(** * dns-bench: a shallow embedding of [dns_bench_linux.py]

    The development follows the class [DNSBenchmark] method by method.

    - A Python [str] is a [string]; the model covers strings whose code
      points are below 256, where [\d] is exactly [0-9].
    - Measured times are exact rationals ([Q]) and [float('inf')] is a
      constructor of its own ([Inf]); the success rate, which the source
      computes from two small integers, is evaluated in binary64 with the
      kernel's primitive floats, as CPython does.
    - Exceptions are values of [exn]; code that can raise lives in the
      monad [M], whose state survives a raise, as Python's mutations do.
    - What the program reads from the machine (files, command output,
      clock readings, the order in which futures complete) is a field of
      the record [host]. *)

From Stdlib Require Import ZArith QArith Ascii String List Lia.
From Stdlib Require Import Floats.PrimFloat Uint63.
From stdpp Require Import base decidable option list gmap sets strings sorting.

Open Scope string_scope.
Open Scope list_scope.
Open Scope Z_scope.

(** ** Python string primitives *)

Module Py.

Definition code (c : ascii) : nat := nat_of_ascii c.

Definition is_digit (c : ascii) : bool :=
  (48 <=? code c)%nat && (code c <=? 57)%nat.

Definition digit_val (c : ascii) : Z := Z.of_nat (code c) - 48.

(** [str.isspace] on code points below 256. *)
Definition is_space (c : ascii) : bool :=
  ((9 <=? code c)%nat && (code c <=? 13)%nat)
  || ((28 <=? code c)%nat && (code c <=? 32)%nat)
  || (code c =? 133)%nat || (code c =? 160)%nat.

Definition is_empty (s : string) : bool :=
  match s with EmptyString => true | String _ _ => false end.

Fixpoint lstrip (s : string) : string :=
  match s with
  | String c s' => if is_space c then lstrip s' else s
  | EmptyString => EmptyString
  end.

Fixpoint rstrip (s : string) : string :=
  match s with
  | String c s' =>
      let r := rstrip s' in
      if is_empty r && is_space c then EmptyString else String c r
  | EmptyString => EmptyString
  end.

Definition strip (s : string) : string := rstrip (lstrip s).

Fixpoint startswith (p s : string) : bool :=
  match p, s with
  | EmptyString, _ => true
  | String a p', String b s' => Ascii.eqb a b && startswith p' s'
  | String _ _, EmptyString => false
  end.

(** [p in s] for strings. *)
Fixpoint contains (p s : string) : bool :=
  startswith p s
  || match s with
     | String _ s' => contains p s'
     | EmptyString => false
     end.

(** [s.split(sep)] for a one-character separator. *)
Fixpoint split_on (sep : ascii) (s : string) : list string :=
  match s with
  | EmptyString => [EmptyString]
  | String c s' =>
      if Ascii.eqb c sep then EmptyString :: split_on sep s'
      else match split_on sep s' with
           | w :: ws => String c w :: ws
           | [] => [String c EmptyString]
           end
  end.

(** [s.split(sep, 1)]. *)
Fixpoint split_once (sep : ascii) (s : string) : list string :=
  match s with
  | EmptyString => [EmptyString]
  | String c s' =>
      if Ascii.eqb c sep then [EmptyString; s']
      else match split_once sep s' with
           | w :: ws => String c w :: ws
           | [] => [String c EmptyString]
           end
  end.

(** The word that starts at the head of [s] (empty when [s] starts with
    white space) and the words after it. *)
Fixpoint words_from (s : string) : string * list string :=
  match s with
  | EmptyString => (EmptyString, [])
  | String c s' =>
      let '(w, ws) := words_from s' in
      if is_space c then (EmptyString, if is_empty w then ws else w :: ws)
      else (String c w, ws)
  end.

(** [s.split()]: maximal runs of non-space characters. *)
Definition split (s : string) : list string :=
  let '(w, ws) := words_from s in if is_empty w then ws else w :: ws.

(** Iterating over a text file: lines keep their newline. *)
Fixpoint file_lines (s : string) : list string :=
  match s with
  | EmptyString => []
  | String c s' =>
      if Ascii.eqb c "010" then String c EmptyString :: file_lines s'
      else match file_lines s' with
           | l :: ls => String c l :: ls
           | [] => [String c EmptyString]
           end
  end.

(** Decimal digits with single underscores between them, as [int] reads
    them; [started] says that the previous character was a digit. *)
Fixpoint int_digits (acc : Z) (started : bool) (s : string) : option Z :=
  match s with
  | EmptyString => if started then Some acc else None
  | String c s' =>
      if is_digit c then int_digits (10 * acc + digit_val c) true s'
      else if Ascii.eqb c "_" && started then int_digits acc false s'
      else None
  end.

(** [int(s)]: [None] stands for [ValueError]. *)
Definition int (s : string) : option Z :=
  match strip s with
  | String c r =>
      if Ascii.eqb c "+" then int_digits 0 false r
      else if Ascii.eqb c "-" then Z.opp <$> int_digits 0 false r
      else int_digits 0 false (String c r)
  | EmptyString => None
  end.

(** Helpers of the statements, not of the program. *)
Fixpoint all_chars (p : ascii → bool) (s : string) : bool :=
  match s with
  | EmptyString => true
  | String c s' => p c && all_chars p s'
  end.

Fixpoint ends_with_newline (s : string) : bool :=
  match s with
  | EmptyString => false
  | String c EmptyString => Ascii.eqb c "010"
  | String _ s' => ends_with_newline s'
  end.

(** The value of a string of decimal digits. *)
Fixpoint digits_value (acc : Z) (s : string) : Z :=
  match s with
  | EmptyString => acc
  | String c s' => digits_value (10 * acc + digit_val c) s'
  end.

End Py.

(** ** Regular expressions

    The constructs the two patterns of [validate_ip_address] use, with a
    backtracking matcher in continuation style. *)

Inductive regex : Type :=
  | Void
  | Eps
  | Cls (p : ascii → bool)
  | Seq (r1 r2 : regex)
  | Alt (r1 r2 : regex).

(** [r{n}] *)
Fixpoint times (n : nat) (r : regex) : regex :=
  match n with O => Eps | S n' => Seq r (times n' r) end.

(** [r{0,n}], greedy *)
Fixpoint upto (n : nat) (r : regex) : regex :=
  match n with O => Eps | S n' => Alt (Seq r (upto n' r)) Eps end.

(** [r{m,n}] *)
Definition range (m n : nat) (r : regex) : regex :=
  Seq (times m r) (upto (n - m) r).

(** [match_k r s k]: some prefix of [s] matches [r] and [k] accepts the
    rest. *)
Fixpoint match_k (r : regex) (s : string) (k : string → bool) : bool :=
  match r with
  | Void => false
  | Eps => k s
  | Cls p => match s with
             | String c s' => p c && k s'
             | EmptyString => false
             end
  | Seq r1 r2 => match_k r1 s (λ rest, match_k r2 rest k)
  | Alt r1 r2 => match_k r1 s k || match_k r2 s k
  end.

(** [$] without [re.MULTILINE]: the end of the string, or just before a
    newline that ends the string. *)
Definition at_dollar (rest : string) : bool :=
  match rest with
  | EmptyString => true
  | String c EmptyString => Ascii.eqb c "010"
  | _ => false
  end.

(** [re.match('^' r '$', s)] as a truth value. *)
Definition re_match (r : regex) (s : string) : bool := match_k r s at_dollar.

(** The language of a regular expression. *)
Fixpoint lang (r : regex) (s : string) : Prop :=
  match r with
  | Void => False
  | Eps => s = EmptyString
  | Cls p => ∃ c, s = String c EmptyString ∧ p c = true
  | Seq r1 r2 => ∃ s1 s2, s = s1 +:+ s2 ∧ lang r1 s1 ∧ lang r2 s2
  | Alt r1 r2 => lang r1 s ∨ lang r2 s
  end.

(** ** Exceptions *)

Inductive exn : Type :=
  | ValueError
  | IndexError
  | AttributeError
  | ZeroDivisionError
  | StopIteration
  | OSError
  | TimeoutExpired
  | CalledProcessError
  | KeyboardInterrupt.

(** [except Exception] catches everything but [KeyboardInterrupt]. *)
Definition is_Exception (e : exn) : bool :=
  match e with KeyboardInterrupt => false | _ => true end.

Inductive res (A : Type) : Type :=
  | Ok (a : A)
  | Raise (e : exn).
Arguments Ok {A} a.
Arguments Raise {A} e.

(** ** validate_ip_address *)

Definition is_hex (c : ascii) : bool :=
  Py.is_digit c
  || ((97 <=? Py.code c)%nat && (Py.code c <=? 102)%nat)
  || ((65 <=? Py.code c)%nat && (Py.code c <=? 70)%nat).

Definition is_char (a c : ascii) : bool := Ascii.eqb c a.

(** [^(\d{1,3}\.){3}\d{1,3}$] *)
Definition ipv4_pattern : regex :=
  Seq (times 3 (Seq (range 1 3 (Cls Py.is_digit)) (Cls (is_char "."))))
      (range 1 3 (Cls Py.is_digit)).

(** [^([0-9a-fA-F]{0,4}:){2,7}[0-9a-fA-F]{0,4}$] *)
Definition ipv6_pattern : regex :=
  Seq (range 2 7 (Seq (range 0 4 (Cls is_hex)) (Cls (is_char ":"))))
      (range 0 4 (Cls is_hex)).

(** [all(0 <= int(part) <= 255 for part in parts)]: stops at the first
    part out of range. *)
Fixpoint all_octets (parts : list string) : res bool :=
  match parts with
  | [] => Ok true
  | part :: rest =>
      match Py.int part with
      | None => Raise ValueError
      | Some n => if (0 <=? n) && (n <=? 255) then all_octets rest else Ok false
      end
  end.

Definition validate_ip_address (ip : string) : res bool :=
  if re_match ipv4_pattern ip then all_octets (Py.split_on "." ip)
  else if re_match ipv6_pattern ip then Ok true
  else Ok false.

Definition nl : string := String "010" EmptyString.

(** ** Dotted quads *)

Definition dotted (g1 g2 g3 g4 : string) : string :=
  g1 +:+ "." +:+ g2 +:+ "." +:+ g3 +:+ "." +:+ g4.

(** One to three decimal digits: what [\d{1,3}] matches. *)
Definition is_digit_group (g : string) : bool :=
  (1 <=? String.length g)%nat && (String.length g <=? 3)%nat
  && Py.all_chars Py.is_digit g.

Definition octet_value (g : string) : Z := Py.digits_value 0 g.

(** [s] does not contain the character [sep]. *)
Definition lacks (sep : ascii) (s : string) : bool :=
  Py.all_chars (λ c, negb (Ascii.eqb c sep)) s.

(** The strings of a language use only the characters of its classes. *)
Fixpoint classes_within (q : ascii → bool) (r : regex) : Prop :=
  match r with
  | Cls p => ∀ c, p c = true → q c = true
  | Seq r1 r2 | Alt r1 r2 => classes_within q r1 ∧ classes_within q r2
  | Void | Eps => True
  end.

(** An octet in the sense of the dotted-decimal notation: digits only, at
    least one, of value at most 255. *)
Definition numeric_octet (g : string) : bool :=
  negb (Py.is_empty g) && Py.all_chars Py.is_digit g
  && (octet_value g <=? 255).

(** ** Stateful code that can raise

    A computation takes the state and gives back its result, a value or an
    exception, with the state as it then is. *)

Definition M (S A : Type) : Type := S → res A * S.

Definition ret {S A} (a : A) : M S A := λ s, (Ok a, s).

Definition bind {S A B} (m : M S A) (f : A → M S B) : M S B :=
  λ s, match m s with
       | (Ok a, s') => f a s'
       | (Raise e, s') => (Raise e, s')
       end.

Definition raise {S A} (e : exn) : M S A := λ s, (Raise e, s).

Definition lift {S A} (r : res A) : M S A := λ s, (r, s).

Definition gets {S A} (f : S → A) : M S A := λ s, (Ok (f s), s).

Definition modify {S} (f : S → S) : M S unit := λ s, (Ok tt, f s).

(** [try: m  except Exception as e: handler e] *)
Definition try_except {S A} (m : M S A) (handler : exn → M S A) : M S A :=
  λ s, match m s with
       | (Raise e, s') =>
           if is_Exception e then handler e s' else (Raise e, s')
       | done => done
       end.

Notation "'let*' x := m 'in' k" := (bind m (λ x, k))
  (at level 10, x name, m at level 100, k at level 200,
   format "'let*'  x  :=  m  'in'  '/' k").

Notation "m >>> k" := (bind m (λ _, k))
  (at level 90, right associativity).

(** [for x in xs: body x] without [break]. *)
Fixpoint for_each {S X} (xs : list X) (body : X → M S unit) : M S unit :=
  match xs with
  | [] => ret tt
  | x :: xs' => body x >>> for_each xs' body
  end.

(** [x[i]] *)
Definition index {S A} (l : list A) (i : nat) : M S A :=
  match l !! i with
  | Some a => ret a
  | None => raise IndexError
  end.

(** [range(a, b)] and [enumerate(xs)] as lists. *)
Definition py_range (a b : nat) : list nat := seq a (b - a).

Definition enumerate {A} (start : nat) (xs : list A) : list (nat * A) :=
  imap (λ i x, ((start + i)%nat, x)) xs.

(** [any(x in s for x in needles)] *)
Definition any_in (needles : list string) (s : string) : bool :=
  existsb (λ x, Py.contains x s) needles.

(** ** The machine the tool runs on *)

(** How [subprocess.run] ends: the process exits, the time limit passes, or
    the program cannot be started. *)
Inductive proc : Type :=
  | Completed (returncode : Z) (stdout : string)
  | TimedOut
  | NotStarted.

Record host : Type := {
  (** the text of [/etc/resolv.conf], when it can be read *)
  resolv_conf : option string;
  (** the outcome of running a command line *)
  run : list string → proc;
  (** the two readings of [time.time()] around a run of a command line,
      in seconds *)
  clock : list string → Q * Q;
  (** the order in which the futures of one server's probes complete, as
      positions in [test_domains] *)
  completion : string → list nat;
  (** whether the user interrupts the benchmark of the [i]-th server *)
  interrupted : nat → bool;
}.

Definition subprocess_run {S} (h : host) (argv : list string) : M S (Z * string) :=
  match run h argv with
  | Completed rc out => ret (rc, out)
  | TimedOut => raise TimeoutExpired
  | NotStarted => raise OSError
  end.

Definition open_resolv_conf {S} (h : host) : M S string :=
  match resolv_conf h with
  | Some text => ret text
  | None => raise OSError
  end.

(** ** get_current_dns_servers *)

(** The two locals of the method, and a ghost log of every token on which
    the guard of an append is evaluated, in order. The log is written and
    never read. *)
Record discovery : Type := {
  dns_servers : list string;
  seen_servers : gset string;
  offered : list string;
}.

Definition discovery_start : discovery :=
  {| dns_servers := []; seen_servers := ∅; offered := [] |}.

Definition log_offer (server : string) (d : discovery) : discovery :=
  {| dns_servers := dns_servers d;
     seen_servers := seen_servers d;
     offered := offered d ++ [server] |}.

Definition append_server (server : string) (d : discovery) : discovery :=
  {| dns_servers := dns_servers d ++ [server];
     seen_servers := {[ server ]} ∪ seen_servers d;
     offered := offered d |}.

(** The block that occurs four times in the method:
[[
    if self.validate_ip_address(server) and not server.startswith('127.'):
        if server not in seen_servers:
            dns_servers.append(server)
            seen_servers.add(server)
]] *)
Definition consider (server : string) : M discovery unit :=
  modify (log_offer server) >>>
  let* valid := lift (validate_ip_address server) in
  if valid && negb (Py.startswith "127." server) then
    let* seen := gets seen_servers in
    if decide (server ∈ seen) then ret tt
    else modify (append_server server)
  else ret tt.

(** Method 1: [/etc/resolv.conf]. *)
Definition from_resolv_conf (h : host) : M discovery unit :=
  try_except
    (let* text := open_resolv_conf h in
     for_each (Py.file_lines text) (λ line,
       if Py.startswith "nameserver" (Py.strip line) then
         let parts := Py.split (Py.strip line) in
         if (2 <=? length parts)%nat then
           let* server := index parts 1 in
           consider server
         else ret tt
       else ret tt))
    (λ _, ret tt).

(** The loop over the lines that follow a [DNS Servers:] line; it ends at
    the first line with [:] or [=]. *)
Fixpoint following_lines (lines : list string) (js : list nat)
    : M discovery unit :=
  match js with
  | [] => ret tt
  | j :: js' =>
      let* line := index lines j in
      let next_line := Py.strip line in
      if negb (Py.is_empty next_line)
         && negb (any_in [":"; "="; "Domain"] next_line) then
        for_each (Py.split next_line) consider >>>
        following_lines lines js'
      else if any_in [":"; "="] next_line then ret tt
      else following_lines lines js'
  end.

Definition scan_status (stdout : string) : M discovery unit :=
  let lines := Py.split_on "010" stdout in
  for_each (enumerate 0 lines) (λ '(i, line),
    if Py.contains "DNS Servers:" line || Py.contains "DNS Server:" line then
      (if Py.contains ":" line then
         let* after := index (Py.split_once ":" line) 1 in
         let server_part := Py.strip after in
         for_each (Py.split server_part) consider
       else ret tt) >>>
      following_lines lines
        (py_range (i + 1) (Nat.min (i + 10) (length lines)))
    else ret tt).

(** Method 2: [systemd-resolve --status], then [resolvectl status]. *)
Definition from_resolved (h : host) : M discovery unit :=
  for_each ["systemd-resolve --status"; "resolvectl status"] (λ cmd,
    try_except
      (let* result := subprocess_run h (Py.split cmd) in
       if fst result =? 0 then scan_status (snd result) else ret tt)
      (λ _, ret tt)).

(** Method 3: [nmcli dev show]. *)
Definition from_nmcli (h : host) : M discovery unit :=
  try_except
    (let* result := subprocess_run h ["nmcli"; "dev"; "show"] in
     if fst result =? 0 then
       for_each (Py.split_on "010" (snd result)) (λ line,
         if Py.contains "IP4.DNS" line || Py.contains "IP6.DNS" line then
           if Py.contains ":" line then
             let* after := index (Py.split_once ":" line) 1 in
             consider (Py.strip after)
           else ret tt
         else ret tt)
     else ret tt)
    (λ _, ret tt).

(** The body of the method; diagnostics printed in verbose mode by the
    handlers are left out. *)
Definition discover (h : host) : M discovery unit :=
  from_resolv_conf h >>> from_resolved h >>> from_nmcli h.

Definition get_current_dns_servers (h : host) : res (list string) :=
  fst ((discover h >>> gets dns_servers) discovery_start).

(** The candidate tokens of a run of discovery, in discovery order. *)
Definition candidates (h : host) : list string :=
  offered (snd (discover h discovery_start)).

(** What the guard lets through. *)
Definition accepted (server : string) : bool :=
  match validate_ip_address server with
  | Ok true => negb (Py.startswith "127." server)
  | _ => false
  end.

(** Every element once, at the place of its first occurrence. *)
Fixpoint keep_first (l : list string) : list string :=
  match l with
  | [] => []
  | x :: l' => x :: filter (λ y, y ≠ x) (keep_first l')
  end.

(** A machine on which only [/etc/resolv.conf] yields anything. *)
Definition only_resolv_conf (text : string) : host :=
  {| resolv_conf := Some text;
     run := λ _, NotStarted;
     clock := λ _, (0%Q, 0%Q);
     completion := λ _, [];
     interrupted := λ _, false |}.

(** ** Vocabulary of the statements about discovery *)

(** The invariant of the method's locals. *)
Definition discovery_inv (d : discovery) : Prop :=
  dns_servers d = keep_first (filter (λ s, accepted s) (offered d))
  ∧ ∀ x, x ∈ seen_servers d ↔ x ∈ dns_servers d.

(** [m] keeps [I] and raises nothing but instances of [Exception]. *)
Definition safe {S A} (I : S → Prop) (m : M S A) : Prop :=
  ∀ s, I s → I (snd (m s)) ∧ ∀ e, fst (m s) = Raise e → is_Exception e = true.

(** [m] keeps [I] and does not raise. *)
Definition total {S A} (I : S → Prop) (m : M S A) : Prop :=
  ∀ s, I s → I (snd (m s)) ∧ ∃ a, fst (m s) = Ok a.

(** A dotted quad of decimal numbers whose first is 127. *)
Definition ipv4_loopback (s : string) : Prop :=
  ∃ g1 g2 g3 g4, s = dotted g1 g2 g3 g4
    ∧ Forall (λ g, Py.all_chars Py.is_digit g = true ∧ g ≠ "") [g1; g2; g3; g4]
    ∧ octet_value g1 = 127.

(** ** Numbers *)

(** A time in milliseconds, or [float('inf')]. *)
Inductive latency : Type :=
  | Finite (ms : Q)
  | Inf.

(** [t == float('inf')] *)
Definition is_inf (t : latency) : bool :=
  match t with Inf => true | Finite _ => false end.

Definition Qltb (a b : Q) : bool := negb (Qle_bool b a).

(** [a < b] and [a == b] on times. *)
Definition lat_ltb (a b : latency) : bool :=
  match a, b with
  | Finite x, Finite y => Qltb x y
  | Finite _, Inf => true
  | Inf, _ => false
  end.

Definition lat_eqb (a b : latency) : bool :=
  match a, b with
  | Finite x, Finite y => Qeq_bool x y
  | Inf, Inf => true
  | _, _ => false
  end.

Definition float_of_nat (n : nat) : float :=
  PrimFloat.of_uint63 (Uint63.of_Z (Z.of_nat n)).

(** [a / b] on integers, a [float]. *)
Definition truediv {S} (a b : nat) : M S float :=
  if (b =? 0)%nat then raise ZeroDivisionError
  else ret (PrimFloat.div (float_of_nat a) (float_of_nat b)).

(** Python's sort is stable and compares keys with [<] only; it is
    modelled by the insertion sort with these two properties. On keys that
    [<] orders totally every stable sort gives the same list. *)
Fixpoint insert_by {A} (lt : A → A → bool) (x : A) (l : list A) : list A :=
  match l with
  | [] => [x]
  | y :: l' => if lt y x then y :: insert_by lt x l' else x :: y :: l'
  end.

Fixpoint py_sorted {A} (lt : A → A → bool) (l : list A) : list A :=
  match l with
  | [] => []
  | x :: l' => insert_by lt x (py_sorted lt l')
  end.

(** Arithmetic on times, as far as the program uses it. *)
Definition lat_add (a b : latency) : latency :=
  match a, b with
  | Finite x, Finite y => Finite (x + y)
  | _, _ => Inf
  end.

Definition lat_div_nat (a : latency) (n : nat) : latency :=
  match a with
  | Finite x => Finite (x / inject_Z (Z.of_nat n))
  | Inf => Inf
  end.

(** [statistics.mean], [min], [max] and [statistics.median] of a list
    that is not empty. *)
Definition mean (xs : list latency) : latency :=
  lat_div_nat (foldr lat_add (Finite 0) xs) (length xs).

Definition minimum (xs : list latency) : latency :=
  match xs with
  | [] => Inf
  | x :: xs' => foldl (λ m y, if lat_ltb y m then y else m) x xs'
  end.

Definition maximum (xs : list latency) : latency :=
  match xs with
  | [] => Inf
  | x :: xs' => foldl (λ m y, if lat_ltb m y then y else m) x xs'
  end.

Definition median (xs : list latency) : latency :=
  let data := py_sorted lat_ltb xs in
  let n := length data in
  if Nat.odd n then nth (n / 2) data Inf
  else lat_div_nat (lat_add (nth (n / 2 - 1) data Inf) (nth (n / 2) data Inf)) 2.

(** ** query_dns *)

(** The first component of the pair [query_dns] returns: [False], [True],
    or, with [nslookup], the stripped output itself. *)
Inductive pyval : Type :=
  | PBool (b : bool)
  | PStr (s : string).

Definition truthy (v : pyval) : bool :=
  match v with
  | PBool b => b
  | PStr s => negb (Py.is_empty s)
  end.

(** [catch m handler]: a [try] whose handler sees every exception. *)
Definition catch {S A} (m : M S A) (handler : exn → M S A) : M S A :=
  λ s, match m s with
       | (Raise e, s') => handler e s'
       | done => done
       end.

(** [self.dig_available], an attribute that [run_benchmark] sets. *)
Definition attribute {S A} (field : option A) : M S A :=
  match field with
  | Some a => ret a
  | None => raise AttributeError
  end.

Definition dig_argv (domain dns_server : string) : list string :=
  ["dig"; "+short"; "+time=2"; "+tries=1"; "@" +:+ dns_server; domain].

Definition nslookup_argv (domain dns_server : string) : list string :=
  ["nslookup"; "-timeout=2"; domain; dns_server].

Definition query_dns {S} (h : host) (dig_available : option bool)
    (domain dns_server : string) : M S (pyval * latency) :=
  catch
    (let* dig := attribute dig_available in
     let argv := if dig then dig_argv domain dns_server
                 else nslookup_argv domain dns_server in
     let '(start_time, end_time) := clock h argv in
     let* result := subprocess_run h argv in
     let response_time := ((end_time - start_time) * 1000)%Q in
     if fst result =? 0 then
       let stdout := snd result in
       let success :=
         if dig then PBool (negb (Py.is_empty (Py.strip stdout)))
         else if Py.contains "NXDOMAIN" stdout then PBool false
         else if Py.contains "can't find" stdout then PBool false
         else PStr (Py.strip stdout) in
       ret (success, if truthy success then Finite response_time else Inf)
     else ret (PBool false, Inf))
    (λ e, match e with
          | TimeoutExpired => ret (PBool false, Inf)
          | KeyboardInterrupt => raise e
          | _ => ret (PBool false, Inf)
          end).

(** ** benchmark_server *)

Definition test_domains : list string :=
  [ "google.com"; "facebook.com"; "youtube.com"; "amazon.com";
    "wikipedia.org"; "twitter.com"; "instagram.com"; "linkedin.com";
    "github.com"; "stackoverflow.com"; "reddit.com"; "netflix.com";
    "apple.com"; "microsoft.com"; "cloudflare.com"; "baidu.com";
    "yahoo.com"; "ebay.com"; "cnn.com"; "bbc.com";
    "spotify.com"; "zoom.us"; "adobe.com"; "oracle.com" ].

(** The dictionary [benchmark_server] returns. *)
Record stats : Type := {
  name : string;
  server : string;
  success_rate : float;
  successful_queries : nat;
  failed_queries : nat;
  avg_time : latency;
  min_time : latency;
  max_time : latency;
  median_time : latency;
}.

(** The two accumulators of the method. *)
Record tally : Type := {
  successful : list latency;
  failed : nat;
}.

Definition tally_start : tally := {| successful := []; failed := 0 |}.

Definition add_success (t : latency) (a : tally) : tally :=
  {| successful := successful a ++ [t]; failed := failed a |}.

Definition add_failure (a : tally) : tally :=
  {| successful := successful a; failed := S (failed a) |}.

(** The loop over [as_completed]: the futures are taken in the order in
    which the machine completes them. *)
Definition collect (h : host) (dig_available : option bool)
    (dns_server : string) : M tally unit :=
  for_each (completion h dns_server) (λ j,
    let* domain := index test_domains j in
    try_except
      (let* result := query_dns h dig_available domain dns_server in
       let '(success, response_time) := result in
       if truthy success && negb (is_inf response_time)
       then modify (add_success response_time)
       else modify add_failure)
      (λ _, modify add_failure)).

Definition summarize (name dns_server : string) : M tally stats :=
  let* successful_queries := gets successful in
  let* failed_queries := gets failed in
  let total_queries := length test_domains in
  let '(avg, lo, hi, med) :=
    if negb (bool_decide (successful_queries = []))
    then (mean successful_queries,
          minimum successful_queries,
          maximum successful_queries,
          median successful_queries)
    else (Inf, Inf, Inf, Inf) in
  let* ratio := truediv (length successful_queries) total_queries in
  ret {| name := name;
         server := dns_server;
         success_rate := PrimFloat.mul ratio 100;
         successful_queries := length successful_queries;
         failed_queries := failed_queries;
         avg_time := avg;
         min_time := lo;
         max_time := hi;
         median_time := med |}.

(** With [name=None] the address is the name. Diagnostics printed in
    verbose mode are left out. *)
Definition benchmark_server (h : host) (dig_available : option bool)
    (dns_server : string) (name : option string) : res stats :=
  let name := default dns_server name in
  fst ((collect h dig_available dns_server >>> summarize name dns_server)
         tally_start).

(** ** What the tool prints

    One constructor for each [print] of [run_benchmark] and of
    [print_results], with the values the call formats. *)

Inductive line : Type :=
  | NoLookupTool
  | InstallHint
  | Banner
  | VerboseHint
  | CurrentDetected
  | CurrentServer (i : nat) (server : string)
  | NoCurrentWarning
  | NoCurrentNote
  | InvalidCustom (server : string)
  | NoServers
  | Testing (n_servers n_domains : nat)
  | ProgressStart
  | Dot
  | Done
  | Interrupted
  | FailedToTest (name : string)
  | JsonDump (results : list stats)
  | RuleTop
  | Title
  | Rule
  | TableHeader
  | Dashes
  | Row (rank : nat) (r : stats)
  | FailedHeader
  | FailedRow (r : stats)
  | BestHeader
  | BestServer (r : stats)
  | BestAverage (r : stats)
  | CurrentRank (rank : nat)
  | Switching (best_name : string) (improvement : Q)
  | AlreadyFastest.

(** [print(...)] on a standard output that takes every line: the line is
    added to what is on the terminal, and nothing is raised. *)
Definition print (l : line) : M (list line) unit := modify (λ out, out ++ [l]).

(** ** run_benchmark *)

Record options : Type := {
  test_current : bool;
  test_public : bool;
  custom_servers : option (list string);
  top3_only : bool;
}.

Definition public_dns_servers : list (string * string) :=
  [ ("Cloudflare", "1.1.1.1"); ("Cloudflare-2", "1.0.0.1");
    ("Google", "8.8.8.8"); ("Google-2", "8.8.4.4");
    ("Quad9", "9.9.9.9"); ("Quad9-2", "149.112.112.112");
    ("OpenDNS", "208.67.222.222"); ("OpenDNS-2", "208.67.220.220");
    ("Level3", "4.2.2.1"); ("Level3-2", "4.2.2.2") ].

Definition top3_dns_servers : list (string * string) :=
  [ ("Cloudflare", "1.1.1.1"); ("Google", "8.8.8.8"); ("Quad9", "9.9.9.9") ].

(** What is on the terminal, and the two lists the method builds. *)
Record run_state : Type := {
  output : list line;
  servers_to_test : list (string * string);
  results : list stats;
}.

Definition run_start : run_state :=
  {| output := []; servers_to_test := []; results := [] |}.

Definition say (l : line) : M run_state unit :=
  modify (λ st, {| output := output st ++ [l];
                   servers_to_test := servers_to_test st;
                   results := results st |}).

Definition extend_servers (new : list (string * string)) : M run_state unit :=
  modify (λ st, {| output := output st;
                   servers_to_test := servers_to_test st ++ new;
                   results := results st |}).

Definition append_result (r : stats) : M run_state unit :=
  modify (λ st, {| output := output st;
                   servers_to_test := servers_to_test st;
                   results := results st ++ [r] |}).

Definition is_nil {A} (l : list A) : bool :=
  match l with [] => true | _ :: _ => false end.

(** [subprocess.run(['which', command], check=True)] under a bare
    [except]. *)
Definition check_command {S} (h : host) (command : string) : M S bool :=
  catch
    (let* result := subprocess_run h ["which"; command] in
     if fst result =? 0 then ret true else raise CalledProcessError)
    (λ _, ret false).

(** The block under [# Prepare server list]. *)
Definition prepare_servers (o : options) (current_dns : list string)
    : M run_state unit :=
  (if test_current o then
     for_each current_dns (λ server,
       extend_servers [("Current-" +:+ server, server)])
   else ret tt) >>>
  (match custom_servers o with
   | Some customs =>
       if negb (is_nil customs) then
         for_each customs (λ server,
           let* valid := lift (validate_ip_address server) in
           if valid then extend_servers [("Custom-" +:+ server, server)]
           else say (InvalidCustom server))
       else ret tt
   | None => ret tt
   end) >>>
  (if test_public o then
     if top3_only o then extend_servers top3_dns_servers
     else extend_servers public_dns_servers
   else ret tt).

(** The loop under [# Run benchmarks]; an interrupt ends it. *)
Fixpoint bench_loop (h : host) (verbose : bool) (dig_available : bool)
    (items : list (nat * (string * string))) : M run_state unit :=
  match items with
  | [] => ret tt
  | (i, (name, server)) :: rest =>
      (if negb verbose then say Dot else ret tt) >>>
      let* go_on :=
        catch
          (let* result :=
             if interrupted h i then raise KeyboardInterrupt
             else lift (benchmark_server h (Some dig_available) server (Some name)) in
           append_result result >>> ret true)
          (λ e, match e with
                | KeyboardInterrupt => say Interrupted >>> ret false
                | _ => (if verbose then say (FailedToTest name) else ret tt)
                       >>> ret true
                end) in
      if go_on then bench_loop h verbose dig_available rest else ret tt
  end.

Definition run_benchmark (h : host) (verbose : bool) (o : options)
    : M run_state (list stats) :=
  let* dig_available := check_command h "dig" in
  let* nslookup_available := check_command h "nslookup" in
  if negb dig_available && negb nslookup_available then
    say NoLookupTool >>> say InstallHint >>> ret []
  else
    say Banner >>>
    (if negb verbose then say VerboseHint else ret tt) >>>
    let* current_dns :=
      if test_current o then lift (get_current_dns_servers h) else ret [] in
    (if negb (is_nil current_dns) then
       say CurrentDetected >>>
       for_each (enumerate 1 current_dns) (λ '(i, server),
         say (CurrentServer i server))
     else if test_current o then say NoCurrentWarning >>> say NoCurrentNote
     else ret tt) >>>
    prepare_servers o current_dns >>>
    let* servers := gets servers_to_test in
    if is_nil servers then say NoServers >>> ret []
    else
      say (Testing (length servers) (length test_domains)) >>>
      (if negb verbose then say ProgressStart else ret tt) >>>
      bench_loop h verbose dig_available (enumerate 0 servers) >>>
      (if negb verbose then say Done else ret tt) >>>
      gets results.

(** ** print_results *)

Definition valid_results (results : list stats) : list stats :=
  filter (λ r, negb (is_inf (avg_time r))) results.

Definition failed_results (results : list stats) : list stats :=
  filter (λ r, is_inf (avg_time r)) results.

(** [a == b] on the dictionaries. *)
Definition stats_eqb (a b : stats) : bool :=
  String.eqb (name a) (name b) && String.eqb (server a) (server b)
  && PrimFloat.eqb (success_rate a) (success_rate b)
  && Nat.eqb (successful_queries a) (successful_queries b)
  && Nat.eqb (failed_queries a) (failed_queries b)
  && lat_eqb (avg_time a) (avg_time b) && lat_eqb (min_time a) (min_time b)
  && lat_eqb (max_time a) (max_time b)
  && lat_eqb (median_time a) (median_time b).

Definition is_current (r : stats) : bool := Py.startswith "Current-" (name r).

(** [next(i for i, r in enumerate(rs, 1) if r == target)] *)
Fixpoint next_rank {T} (i : nat) (target : stats) (rs : list stats) : M T nat :=
  match rs with
  | [] => raise StopIteration
  | r :: rs' => if stats_eqb r target then ret i
                else next_rank (S i) target rs'
  end.

(** [((c - b) / c) * 100] on two averages; the averages of valid results
    are finite. *)
Definition improvement_of {S} (current best : latency) : M S Q :=
  match current, best with
  | Finite c, Finite b =>
      if Qeq_bool c 0 then raise ZeroDivisionError
      else ret (((c - b) / c) * 100)%Q
  | _, _ => raise ValueError
  end.

(** The block under [# Compare with current DNS]. *)
Definition compare_with_current (best : stats) (valid_results : list stats)
    : M (list line) unit :=
  let current_results := filter (λ r, is_current r) valid_results in
  if negb (is_nil current_results) && (1 <? length valid_results)%nat then
    let* current_best := index current_results 0 in
    let* current_rank := next_rank 1 current_best valid_results in
    if (1 <? current_rank)%nat then
      let* improvement :=
        improvement_of (avg_time current_best) (avg_time best) in
      print (CurrentRank current_rank) >>>
      print (Switching (name best) improvement)
    else print AlreadyFastest
  else ret tt.

(** The block under [# Recommendations]. *)
Definition recommend (valid_results : list stats) : M (list line) unit :=
  if negb (is_nil valid_results) then
    let* best := index valid_results 0 in
    print BestHeader >>> print (BestServer best) >>>
    print (BestAverage best) >>>
    compare_with_current best valid_results
  else ret tt.

Definition print_results (results : list stats) (json_output : bool)
    : M (list line) unit :=
  if is_nil results then ret tt
  else if json_output then print (JsonDump results)
  else
    let valid_results := valid_results results in
    let failed_results := failed_results results in
    let valid_results :=
      py_sorted (λ x y, lat_ltb (avg_time x) (avg_time y)) valid_results in
    print RuleTop >>> print Title >>> print Rule >>>
    (if negb (is_nil valid_results) then
       print TableHeader >>> print Dashes >>>
       for_each (enumerate 1 valid_results) (λ '(i, r), print (Row i r))
     else ret tt) >>>
    (if negb (is_nil failed_results) then
       print FailedHeader >>>
       for_each failed_results (λ r, print (FailedRow r))
     else ret tt) >>>
    recommend valid_results.

(** ** Vocabulary of the statements about probes and benchmarks *)

Definition lookup_argv (dig : bool) (domain dns_server : string) : list string :=
  if dig then dig_argv domain dns_server else nslookup_argv domain dns_server.

(** The ways a probe fails: the attribute is not set, the lookup runs out
    of time or cannot be started, it exits with a status other than zero,
    it prints nothing, or [nslookup] reports that the name was not found. *)
Inductive probe_failure (h : host) (domain dns_server : string)
    : option bool → Prop :=
  | attribute_unset : probe_failure h domain dns_server None
  | lookup_timeout dig :
      run h (lookup_argv dig domain dns_server) = TimedOut →
      probe_failure h domain dns_server (Some dig)
  | lookup_error dig :
      run h (lookup_argv dig domain dns_server) = NotStarted →
      probe_failure h domain dns_server (Some dig)
  | exit_status dig rc out :
      run h (lookup_argv dig domain dns_server) = Completed rc out →
      rc ≠ 0 →
      probe_failure h domain dns_server (Some dig)
  | empty_output dig out :
      run h (lookup_argv dig domain dns_server) = Completed 0 out →
      Py.strip out = "" →
      probe_failure h domain dns_server (Some dig)
  | name_not_found out :
      run h (lookup_argv false domain dns_server) = Completed 0 out →
      Py.contains "NXDOMAIN" out = true ∨ Py.contains "can't find" out = true →
      probe_failure h domain dns_server (Some false).

(** [(k / n) * 100], the way the code computes the rate, and
    [100 * k / n], the way the spec writes it, both in binary64. *)
Definition code_rate (k n : nat) : float :=
  PrimFloat.mul (PrimFloat.div (float_of_nat k) (float_of_nat n)) 100.

Definition spec_rate (k n : nat) : float :=
  PrimFloat.div (float_of_nat (100 * k)) (float_of_nat n).

(** Equal, or neighbours among the doubles. *)
Definition within_one_ulp (a b : float) : Prop :=
  a = b ∨ a = PrimFloat.next_down b ∨ a = PrimFloat.next_up b.

(** Every sample is a finite time. *)
Definition finite_samples (a : tally) : Prop :=
  Forall (λ t, is_inf t = false) (successful a).

(** The futures of one server complete once each. *)
Definition completes_all (h : host) (dns_server : string) : Prop :=
  completion h dns_server ≡ₚ seq 0 (length test_domains).

(** A machine with [dig] on which the lookup of a domain at a server
    prints an address when [answers] says so and nothing otherwise, and
    takes [millis] milliseconds. *)
Definition lab (answers : string → string → bool)
    (millis : string → Z) : host :=
  {| resolv_conf := None;
     run := λ argv,
       match argv with
       | ["which"; command] =>
           Completed (if String.eqb command "dig" then 0 else 1) ""
       | ["dig"; _; _; _; String _ dns_server; domain] =>
           Completed 0 (if answers dns_server domain then "192.0.2.1" else "")
       | _ => NotStarted
       end;
     clock := λ argv,
       match argv with
       | ["dig"; _; _; _; String _ dns_server; _] =>
           (0, inject_Z (millis dns_server) / 1000)%Q
       | _ => (0, 0)%Q
       end;
     completion := λ _, rev (seq 0 (length test_domains));
     interrupted := λ _, false |}.

(** ** Vocabulary of the statements about the report *)

(** The valid results in the order of the table. *)
Definition ranked (results : list stats) : list stats :=
  py_sorted (λ x y, lat_ltb (avg_time x) (avg_time y)) (valid_results results).

(** The average of a result is a finite time. *)
Definition has_finite_average (r : stats) : bool :=
  match avg_time r with Finite _ => true | Inf => false end.

(** [a <= b] on times, as [not (b < a)]. *)
Definition lat_le (a b : latency) : Prop := lat_ltb b a = false.

(** The report that [print_results] writes on an empty terminal. *)
Definition report (results : list stats) (json_output : bool) : list line :=
  snd (print_results results json_output []).

(** The results in the rows of the table, the results in the failure
    listing, and the lines that compare with the current server. *)
Fixpoint table_rows (out : list line) : list stats :=
  match out with
  | [] => []
  | Row _ r :: out' => r :: table_rows out'
  | _ :: out' => table_rows out'
  end.

Fixpoint failure_rows (out : list line) : list stats :=
  match out with
  | [] => []
  | FailedRow r :: out' => r :: failure_rows out'
  | _ :: out' => failure_rows out'
  end.

Definition is_comparison (l : line) : bool :=
  match l with
  | CurrentRank _ | Switching _ _ | AlreadyFastest => true
  | _ => false
  end.

Definition comparison (out : list line) : list line :=
  filter (λ l, is_comparison l) out.

(** The first result of a current server, with its position from 0. *)
Fixpoint first_current (rs : list stats) : option (nat * stats) :=
  match rs with
  | [] => None
  | r :: rs' =>
      if is_current r then Some (0%nat, r)
      else (λ '(p, c), (S p, c)) <$> first_current rs'
  end.

(** The success rate is a number: it equals itself. *)
Definition rate_is_number (r : stats) : Prop :=
  PrimFloat.eqb (success_rate r) (success_rate r) = true.

(** A result with the given name, average and number of successes. *)
Definition result_of (name : string) (avg : latency) (k : nat) : stats :=
  {| name := name; server := name; success_rate := code_rate k 24;
     successful_queries := k; failed_queries := 24 - k;
     avg_time := avg; min_time := avg; max_time := avg; median_time := avg |}.

(** The lines of the table and of the failure listing. *)
Definition table_lines (rs : list stats) : list line :=
  if is_nil rs then []
  else TableHeader :: Dashes :: map (λ '(i, r), Row i r) (enumerate 1 rs).

Definition failure_lines (rs : list stats) : list line :=
  if is_nil rs then [] else FailedHeader :: map FailedRow rs.

Definition is_row (l : line) : bool :=
  match l with Row _ _ | FailedRow _ => true | _ => false end.

(** [m] only adds lines, and only lines that satisfy [Q]. *)
Definition writes {A} (Q : line → Prop) (m : M (list line) A) : Prop :=
  ∀ out, ∃ extra, snd (m out) = out ++ extra ∧ Forall Q extra.

(** Two reports to try the comparison on: a current server at 100 ms
    beside a public one at 50 ms, and a current server alone. *)
Definition slower_current : list stats :=
  [result_of "Current-192.168.1.1" (Finite 100) 24;
   result_of "Cloudflare" (Finite 50) 24].

Definition lone_current : list stats :=
  [result_of "Current-192.168.1.1" (Finite 20) 24].

(** ** Vocabulary of the statements about the orchestrator *)

(** [check_command] in terms of the machine. *)
Definition has_tool (h : host) (command : string) : bool :=
  match run h ["which"; command] with
  | Completed rc _ => rc =? 0
  | _ => false
  end.

Definition valid_address (s : string) : bool :=
  match validate_ip_address s with Ok true => true | _ => false end.

Definition label_current (s : string) : string * string := ("Current-" +:+ s, s).
Definition label_custom (s : string) : string * string := ("Custom-" +:+ s, s).

(** The server list as the spec describes it. *)
Definition expected_servers (o : options) (current_dns : list string)
    : list (string * string) :=
  (if test_current o then label_current <$> current_dns else [])
  ++ (label_custom <$>
        filter (λ s, valid_address s) (default [] (custom_servers o)))
  ++ (if test_public o then
        if top3_only o then top3_dns_servers else public_dns_servers
      else []).

(** The addresses that the warnings on the terminal name. *)
Fixpoint warned (out : list line) : list string :=
  match out with
  | [] => []
  | InvalidCustom s :: out' => s :: warned out'
  | _ :: out' => warned out'
  end.

Definition is_warning (l : line) : bool :=
  match l with InvalidCustom _ => true | _ => false end.

(** A machine with the given lookup tools and nothing else. *)
Definition bare (tools : list string) : host :=
  {| resolv_conf := None;
     run := λ argv,
       match argv with
       | ["which"; command] =>
           Completed (if bool_decide (command ∈ tools) then 0 else 1) ""
       | _ => NotStarted
       end;
     clock := λ _, (0, 0)%Q;
     completion := λ _, seq 0 (length test_domains);
     interrupted := λ _, false |}.

Definition no_servers : options :=
  {| test_current := false; test_public := false;
     custom_servers := None; top3_only := false |}.

(** The machine [h] with the given text in [/etc/resolv.conf]. *)
Definition with_resolv_conf (text : string) (h : host) : host :=
  {| resolv_conf := Some text;
     run := run h;
     clock := clock h;
     completion := completion h;
     interrupted := interrupted h |}.

Definition office : host :=
  with_resolv_conf ("nameserver 10.0.0.1" +:+ nl) (bare ["nslookup"]).

Definition quick_with_customs : options :=
  {| test_current := true; test_public := true;
     custom_servers := Some ["300.1.1.1"; "8.8.4.4"]; top3_only := true |}.

(** ** Further vocabulary: the shape of accepted addresses *)

(** [sep.join(parts)] *)
Fixpoint join_with (sep : string) (parts : list string) : string :=
  match parts with
  | [] => ""
  | [p] => p
  | p :: rest => p +:+ sep +:+ join_with sep rest
  end.

(** The concatenation of the parts. *)
Definition sconcat (parts : list string) : string :=
  foldr String.append "" parts.

(** At most four hexadecimal digits: what [[0-9a-fA-F]{0,4}] matches. *)
Definition is_hex_group (g : string) : bool :=
  (String.length g <=? 4)%nat && Py.all_chars is_hex g.

(** A dotted quad of octets, and three to eight groups joined by colons;
    either may be followed by one newline. *)
Definition ipv4_shaped (s : string) : Prop :=
  ∃ g1 g2 g3 g4 rest,
    s = dotted g1 g2 g3 g4 +:+ rest
    ∧ Forall (λ g, is_digit_group g = true ∧ octet_value g ≤ 255)
        [g1; g2; g3; g4]
    ∧ (rest = "" ∨ rest = nl).

Definition ipv6_shaped (s : string) : Prop :=
  ∃ groups rest,
    s = join_with ":" groups +:+ rest
    ∧ (3 ≤ length groups ≤ 8)%nat
    ∧ Forall (λ g, is_hex_group g = true) groups
    ∧ (rest = "" ∨ rest = nl).

(** ** Further vocabulary: probes and samples *)

(** The time between the two clock readings around a lookup, in
    milliseconds. *)
Definition elapsed_ms (h : host) (argv : list string) : Q :=
  ((snd (clock h argv) - fst (clock h argv)) * 1000)%Q.

(** The lookup of a domain at a server succeeds: the tool exits with
    status 0 and prints something other than white space, and the output of
    [nslookup] has neither [NXDOMAIN] nor [can't find] in it. *)
Definition lookup_succeeds (h : host) (dig_available : option bool)
    (dns_server domain : string) : bool :=
  match dig_available with
  | Some dig =>
      match run h (lookup_argv dig domain dns_server) with
      | Completed rc out =>
          (rc =? 0) && negb (Py.is_empty (Py.strip out))
          && (dig || negb (Py.contains "NXDOMAIN" out)
                     && negb (Py.contains "can't find" out))
      | _ => false
      end
  | None => false
  end.

(** The body of the loop of [collect], which takes one completed future. *)
Definition collect_body (h : host) (dig_available : option bool)
    (dns_server : string) (j : nat) : M tally unit :=
  let* domain := index test_domains j in
  try_except
    (let* result := query_dns h dig_available domain dns_server in
     let '(success, response_time) := result in
     if truthy success && negb (is_inf response_time)
     then modify (add_success response_time)
     else modify add_failure)
    (λ _, modify add_failure).

(** The lookup for the domain at a position of [test_domains] succeeds. *)
Definition succeeds_at (h : host) (dig_available : option bool)
    (dns_server : string) (j : nat) : bool :=
  default false
    (lookup_succeeds h dig_available dns_server <$> test_domains !! j).

(** ** Further vocabulary: discovery *)

(** The second word of every [nameserver] line of a resolv.conf, in the
    order of the file. *)
Definition nameservers (text : string) : list string :=
  omap (λ line,
    if Py.startswith "nameserver" (Py.strip line)
    then Py.split (Py.strip line) !! 1%nat
    else None) (Py.file_lines text).

(** The command line runs to its end and exits with status 0. *)
Definition exits_zero (h : host) (argv : list string) : bool :=
  match run h argv with
  | Completed rc _ => rc =? 0
  | _ => false
  end.

(** [m] only adds to the log of candidates. *)
Definition grows {A} (m : M discovery A) : Prop :=
  ∀ d, offered d `prefix_of` offered (snd (m d)).

(** ** Further vocabulary: the report *)

(** The results that the report names as the best server. *)
Fixpoint best_servers (out : list line) : list stats :=
  match out with
  | [] => []
  | BestServer r :: out' => r :: best_servers out'
  | _ :: out' => best_servers out'
  end.

Definition is_best_server (l : line) : bool :=
  match l with BestServer _ => true | _ => false end.

(** Two results with an average of zero, the second a current server's. *)
Definition zero_averages : list stats :=
  [result_of "Cloudflare" (Finite 0) 24;
   result_of "Current-192.168.1.1" (Finite 0) 24].

(** ** Further vocabulary: the run *)

(** The items of an enumerated list that come before the first interrupt. *)
Fixpoint before_interrupt {A} (h : host) (items : list (nat * A)) : list A :=
  match items with
  | [] => []
  | (i, x) :: rest =>
      if interrupted h i then [] else x :: before_interrupt h rest
  end.

(** The user interrupts the benchmark of one of the items. *)
Definition interrupted_in {A} (h : host) (items : list (nat * A)) : bool :=
  existsb (λ '(i, _), interrupted h i) items.

(** What a run prints before it looks at the server list: the banner, the
    current servers or the warning that there are none, and the warnings
    about custom addresses. *)
Definition prelude (verbose : bool) (o : options) (current_dns : list string)
    : list line :=
  (Banner :: (if verbose then [] else [VerboseHint]))
  ++ (if negb (is_nil current_dns) then
        CurrentDetected
        :: ((λ '(i, server), CurrentServer i server) <$> enumerate 1 current_dns)
      else if test_current o then [NoCurrentWarning; NoCurrentNote]
      else [])
  ++ (InvalidCustom <$>
        filter (λ s, negb (valid_address s)) (default [] (custom_servers o))).



(** ** main *)

(** The namespace that [parse_args] returns. *)
Module Args.
Record t : Type := {
  top3 : bool;
  current_only : bool;
  public_only : bool;
  custom : option (list string);
  verbose : bool;
  json : bool;
}.
End Args.

(** What is on the terminal after [main]: the note about conflicting
    options, and the lines of the run and of the report. *)
Inductive printed : Type :=
  | PrecedenceNote
  | Printed (l : line).

(** The keyword arguments that [main] passes to [run_benchmark], after it
    has cleared [public_only] when [top3] is set as well. *)
Definition main_options (args : Args.t) : options :=
  let public_only :=
    if Args.top3 args && Args.public_only args then false
    else Args.public_only args in
  {| test_current := negb public_only;
     test_public := negb (Args.current_only args);
     custom_servers := Args.custom args;
     top3_only := Args.top3 args |}.

(** [main], from the parsed arguments on. *)
Definition main (h : host) (args : Args.t) : res unit * list printed :=
  let note :=
    if Args.top3 args && Args.public_only args then [PrecedenceNote] else [] in
  match run_benchmark h (Args.verbose args) (main_options args) run_start with
  | (Ok results, st) =>
      let '(r, out) := print_results results (Args.json args) (output st) in
      (r, note ++ (Printed <$> out))
  | (Raise e, st) => (Raise e, note ++ (Printed <$> output st))
  end.

(** [dns-bench --json], and the two [...-only] options together. *)
Definition json_args : Args.t :=
  {| Args.top3 := false; Args.current_only := false;
     Args.public_only := false; Args.custom := None;
     Args.verbose := false; Args.json := true |}.

Definition both_only_args (verbose json : bool) : Args.t :=
  {| Args.top3 := false; Args.current_only := true;
     Args.public_only := true; Args.custom := None;
     Args.verbose := verbose; Args.json := json |}.

(** ** Further vocabulary: the sources of discovery *)

(** Every run of [m] from a state of the method leaves [t] in the log of
    candidates. *)
Definition offers {A} (t : string) (m : M discovery A) : Prop :=
  ∀ d, discovery_inv d → t ∈ offered (snd (m d)).


(** The machine [h] on which the command line [argv] exits with status 0
    and prints [out]. *)
Definition with_command (argv : list string) (out : string) (h : host)
    : host :=
  {| resolv_conf := resolv_conf h;
     run := λ a, if decide (a = argv) then Completed 0 out else run h a;
     clock := clock h;
     completion := completion h;
     interrupted := interrupted h |}.
(** ** Facts about strings *)

Section string_facts.
Implicit Types (s t u : string) (c : ascii).

Lemma sapp_nil_l s : "" +:+ s = s.
Proof. reflexivity. Qed.

Lemma sapp_cons c s t : String c s +:+ t = String c (s +:+ t).
Proof. reflexivity. Qed.

Lemma sapp_nil_r s : s +:+ "" = s.
Proof. induction s as [|c s IH]; [done | by rewrite sapp_cons, IH]. Qed.

Lemma sapp_assoc s t u : (s +:+ t) +:+ u = s +:+ (t +:+ u).
Proof. induction s as [|c s IH]; [done | by rewrite !sapp_cons, IH]. Qed.

Lemma sapp_length s t :
  String.length (s +:+ t) = (String.length s + String.length t)%nat.
Proof.
  induction s as [|c s IH]; [done | rewrite sapp_cons; simpl; by rewrite IH].
Qed.

Lemma all_chars_app p s t :
  Py.all_chars p (s +:+ t) = Py.all_chars p s && Py.all_chars p t.
Proof.
  induction s as [|c s IH]; [done|].
  rewrite sapp_cons. simpl. by rewrite IH, andb_assoc.
Qed.

Lemma all_chars_weaken (p q : ascii → bool) s :
  (∀ c, p c = true → q c = true) →
  Py.all_chars p s = true → Py.all_chars q s = true.
Proof.
  intros Hpq. induction s as [|c s IH]; simpl; [done|].
  rewrite !andb_true_iff. naive_solver.
Qed.

(** Cutting a string after its first [k] characters. *)
Lemma string_cut k : ∀ s, (k ≤ String.length s)%nat →
  ∃ s1 s2, s = s1 +:+ s2 ∧ String.length s1 = k.
Proof.
  induction k as [|k IH]; intros s Hk.
  - by exists "", s.
  - destruct s as [|c s]; simpl in Hk; [lia|].
    destruct (IH s) as (s1&s2&->&Hl); [lia|].
    exists (String c s1), s2. simpl. by rewrite Hl.
Qed.
End string_facts.

(** ** The matcher decides the language *)

Lemma match_k_spec r : ∀ s k,
  match_k r s k = true ↔ ∃ s1 s2, s = s1 +:+ s2 ∧ lang r s1 ∧ k s2 = true.
Proof.
  induction r as [| |p|r1 IH1 r2 IH2|r1 IH1 r2 IH2]; intros s k; simpl.
  - split; [done | by intros (?&?&?&[]&?)].
  - split.
    + intros Hk. by exists "", s.
    + by intros (s1&s2&->&->&Hk).
  - destruct s as [|c s].
    + split; [done|]. intros (s1&s2&Hs&(c&->&_)&_). done.
    + rewrite andb_true_iff. split.
      * intros [Hp Hk]. exists (String c ""), s. eauto.
      * intros (s1&s2&Hs&(c'&->&Hp)&Hk).
        rewrite sapp_cons, sapp_nil_l in Hs. by simplify_eq.
  - rewrite IH1. split.
    + intros (s1&s2&->&H1&H2). apply IH2 in H2 as (t1&t2&->&H2&Hk).
      exists (s1 +:+ t1), t2. rewrite sapp_assoc. eauto 10.
    + intros (s12&s3&->&(s1&s2&->&H1&H2)&Hk).
      exists s1, (s2 +:+ s3). rewrite sapp_assoc. split; [done|].
      split; [done|]. apply IH2. eauto.
  - rewrite orb_true_iff, IH1, IH2. naive_solver.
Qed.

Lemma at_dollar_spec rest : at_dollar rest = true ↔ rest = "" ∨ rest = nl.
Proof.
  unfold nl. destruct rest as [|c [|c' rest]]; simpl.
  - naive_solver.
  - rewrite Ascii.eqb_eq. naive_solver.
  - naive_solver.
Qed.

Lemma re_match_spec r s :
  re_match r s = true ↔
  ∃ s1 rest, s = s1 +:+ rest ∧ lang r s1 ∧ (rest = "" ∨ rest = nl).
Proof.
  unfold re_match. rewrite match_k_spec.
  by setoid_rewrite at_dollar_spec.
Qed.

(** Repetitions of one character class. *)
Lemma lang_times_cls p n : ∀ s,
  lang (times n (Cls p)) s ↔ String.length s = n ∧ Py.all_chars p s = true.
Proof.
  induction n as [|n IH]; intros s; simpl.
  - split; [by intros ->|]. intros [Hl _]. by destruct s.
  - split.
    + intros (s1&s2&->&(c&->&Hp)&H2). apply IH in H2 as [<- H2].
      rewrite sapp_cons, sapp_nil_l. simpl. by rewrite Hp, H2.
    + intros [Hl Hp]. destruct s as [|c s]; [done|]. simpl in *.
      apply andb_true_iff in Hp as [Hc Hp].
      exists (String c ""), s. split; [done|]. split; [eauto|].
      apply IH. split; [lia | done].
Qed.

Lemma lang_upto_cls p n : ∀ s,
  lang (upto n (Cls p)) s ↔
  (String.length s ≤ n)%nat ∧ Py.all_chars p s = true.
Proof.
  induction n as [|n IH]; intros s; simpl.
  - split; [by intros ->|]. intros [Hl _]. destruct s; [done | simpl in Hl; lia].
  - split.
    + intros [(s1&s2&->&(c&->&Hp)&H2) | ->]; [|simpl; split; [lia | done]].
      apply IH in H2 as [Hl H2]. rewrite sapp_cons, sapp_nil_l. simpl.
      rewrite Hp, H2. split; [lia | done].
    + intros [Hl Hp]. destruct s as [|c s]; [by right|]. left. simpl in *.
      apply andb_true_iff in Hp as [Hc Hp].
      exists (String c ""), s. split; [done|]. split; [eauto|].
      apply IH. split; [lia | done].
Qed.

Lemma lang_range_cls p m n s :
  (m ≤ n)%nat →
  lang (range m n (Cls p)) s ↔
  (m ≤ String.length s ≤ n)%nat ∧ Py.all_chars p s = true.
Proof.
  intros Hmn. unfold range. simpl. split.
  - intros (s1&s2&->&H1&H2).
    apply lang_times_cls in H1 as [<- H1]. apply lang_upto_cls in H2 as [Hl H2].
    rewrite sapp_length, all_chars_app, H1, H2. split; [lia | done].
  - intros [Hl Hp].
    destruct (string_cut m s) as (s1&s2&->&Hl1); [lia|].
    rewrite sapp_length in Hl. rewrite all_chars_app in Hp.
    apply andb_true_iff in Hp as [Hp1 Hp2].
    exists s1, s2. split; [done|]. split.
    + by apply lang_times_cls.
    + apply lang_upto_cls. split; [lia | done].
Qed.


Lemma is_digit_group_lang g :
  is_digit_group g = true ↔ lang (range 1 3 (Cls Py.is_digit)) g.
Proof.
  rewrite lang_range_cls by lia. unfold is_digit_group.
  rewrite !andb_true_iff, !Nat.leb_le. naive_solver.
Qed.

Lemma is_char_eq a c : is_char a c = true → c = a.
Proof. unfold is_char. by rewrite Ascii.eqb_eq. Qed.

Ltac sapp_norm := rewrite ?sapp_assoc, ?sapp_cons, ?sapp_nil_l, ?sapp_nil_r.

Lemma lang_ipv4_pattern s :
  lang ipv4_pattern s ↔
  ∃ g1 g2 g3 g4, s = dotted g1 g2 g3 g4
    ∧ Forall (λ g, is_digit_group g = true) [g1; g2; g3; g4].
Proof.
  unfold ipv4_pattern. split.
  - intros (s123&g4&->&H123&H4).
    destruct H123 as (x1&r1&->&(g1&d1&->&H1&(c1&->&Hc1))&H23).
    destruct H23 as (x2&r2&->&(g2&d2&->&H2&(c2&->&Hc2))&H3).
    destruct H3 as (x3&r3&->&(g3&d3&->&H3&(c3&->&Hc3))&->).
    apply is_char_eq in Hc1 as ->, Hc2 as ->, Hc3 as ->.
    apply is_digit_group_lang in H1, H2, H3, H4.
    exists g1, g2, g3, g4. split; [|by repeat constructor].
    unfold dotted. by sapp_norm.
  - intros (g1&g2&g3&g4&->&Hg).
    apply Forall_cons in Hg as [H1 Hg]. apply Forall_cons in Hg as [H2 Hg].
    apply Forall_cons in Hg as [H3 Hg]. apply Forall_cons in Hg as [H4 _].
    apply is_digit_group_lang in H1, H2, H3, H4.
    exists (g1 +:+ "." +:+ g2 +:+ "." +:+ g3 +:+ "."), g4.
    split; [unfold dotted; by sapp_norm|]. split; [|done].
    exists (g1 +:+ "."), (g2 +:+ "." +:+ g3 +:+ "."). split; [by sapp_norm|].
    split; [exists g1, "."; repeat split; [done | by exists "."%char]|].
    exists (g2 +:+ "."), (g3 +:+ "."). split; [by sapp_norm|].
    split; [exists g2, "."; repeat split; [done | by exists "."%char]|].
    exists (g3 +:+ "."), "". split; [by sapp_norm|].
    split; [exists g3, "."; repeat split; [done | by exists "."%char]|done].
Qed.


Lemma split_on_nonempty sep s : Py.split_on sep s ≠ [].
Proof.
  induction s as [|c s IH]; simpl; [done|].
  destruct (Ascii.eqb c sep); [done|]. by destruct (Py.split_on sep s).
Qed.

Lemma split_on_lacks sep g : lacks sep g = true → Py.split_on sep g = [g].
Proof.
  unfold lacks. induction g as [|c g IH]; simpl; [done|].
  rewrite andb_true_iff, negb_true_iff. intros [-> Hg]. by rewrite IH.
Qed.

Lemma split_on_app sep g s :
  lacks sep g = true →
  Py.split_on sep (g +:+ String sep s) = g :: Py.split_on sep s.
Proof.
  unfold lacks. induction g as [|c g IH]; intros Hg.
  - rewrite sapp_nil_l. simpl. by rewrite Ascii.eqb_refl.
  - simpl in Hg. apply andb_true_iff in Hg as [Hc%negb_true_iff Hg].
    rewrite sapp_cons. simpl. by rewrite Hc, IH.
Qed.

Lemma lacks_app sep s t : lacks sep (s +:+ t) = lacks sep s && lacks sep t.
Proof. apply all_chars_app. Qed.

Lemma lacks_contains sep s :
  lacks sep s = negb (Py.contains (String sep "") s).
Proof.
  unfold lacks. induction s as [|c s IH]; simpl; [done|].
  rewrite IH, andb_true_r, negb_orb. by rewrite (Ascii.eqb_sym sep c).
Qed.

(** Digits are neither separators nor white space. *)
Lemma digit_code c : Py.is_digit c = true → (48 ≤ Py.code c ≤ 57)%nat.
Proof.
  unfold Py.is_digit. rewrite andb_true_iff, !Nat.leb_le. done.
Qed.

Lemma digit_not a c :
  Py.is_digit a = false → Py.is_digit c = true → Ascii.eqb c a = false.
Proof.
  intros Ha Hc. apply Ascii.eqb_neq. intros ->. congruence.
Qed.

Lemma digit_not_space c : Py.is_digit c = true → Py.is_space c = false.
Proof.
  intros Hc%digit_code. unfold Py.is_space.
  repeat match goal with
  | |- context [(?a <=? ?b)%nat] => destruct (Nat.leb_spec a b)
  | |- context [(?a =? ?b)%nat] => destruct (Nat.eqb_spec a b)
  end; simpl; try done; lia.
Qed.

Lemma digits_lack a s :
  Py.is_digit a = false → Py.all_chars Py.is_digit s = true → lacks a s = true.
Proof.
  intros Ha. apply all_chars_weaken. intros c Hc.
  by rewrite (digit_not a c).
Qed.

Lemma is_digit_group_digits g :
  is_digit_group g = true → Py.all_chars Py.is_digit g = true ∧ g ≠ "".
Proof.
  unfold is_digit_group. rewrite !andb_true_iff, !Nat.leb_le.
  intros [[Hl _] Hd]. split; [done|]. intros ->. simpl in Hl. lia.
Qed.

Lemma split_on_digits g1 g2 g3 g4 rest :
  Forall (λ g, Py.all_chars Py.is_digit g = true) [g1; g2; g3; g4] →
  lacks "." rest = true →
  Py.split_on "." (dotted g1 g2 g3 g4 +:+ rest) = [g1; g2; g3; g4 +:+ rest].
Proof.
  intros Hg Hrest.
  apply Forall_cons in Hg as [H1 Hg]. apply Forall_cons in Hg as [H2 Hg].
  apply Forall_cons in Hg as [H3 Hg]. apply Forall_cons in Hg as [H4 _].
  unfold dotted. sapp_norm.
  rewrite !split_on_app by (by apply digits_lack).
  rewrite split_on_lacks; [done|].
  rewrite lacks_app, Hrest, andb_true_r. by apply digits_lack.
Qed.

Lemma split_on_dotted g1 g2 g3 g4 rest :
  Forall (λ g, is_digit_group g = true) [g1; g2; g3; g4] →
  lacks "." rest = true →
  Py.split_on "." (dotted g1 g2 g3 g4 +:+ rest) = [g1; g2; g3; g4 +:+ rest].
Proof.
  intros Hg. apply split_on_digits.
  eapply Forall_impl; [done|]. by intros g [? _]%is_digit_group_digits.
Qed.

(** ** [int] on what the IPv4 pattern lets through *)

Lemma rstrip_digits g w :
  Py.all_chars Py.is_digit g = true →
  Py.rstrip (g +:+ w) = g +:+ Py.rstrip w.
Proof.
  induction g as [|c g IH]; intros Hg; [done|].
  simpl in Hg. apply andb_true_iff in Hg as [Hc Hg].
  rewrite !sapp_cons. simpl. rewrite IH by done.
  by rewrite (digit_not_space c Hc), andb_false_r.
Qed.

Lemma strip_digits g rest :
  Py.all_chars Py.is_digit g = true → g ≠ "" → rest = "" ∨ rest = nl →
  Py.strip (g +:+ rest) = g.
Proof.
  intros Hg Hne Hrest. unfold Py.strip.
  destruct g as [|c g]; [done|]. pose proof Hg as Hg'.
  simpl in Hg. apply andb_true_iff in Hg as [Hc Hg].
  rewrite sapp_cons. simpl. rewrite (digit_not_space c Hc).
  rewrite <- sapp_cons, rstrip_digits by done.
  destruct Hrest as [-> | ->]; simpl; by rewrite sapp_nil_r.
Qed.

Lemma int_digits_digits g : ∀ acc started,
  Py.all_chars Py.is_digit g = true → g ≠ "" ∨ started = true →
  Py.int_digits acc started g = Some (Py.digits_value acc g).
Proof.
  induction g as [|c g IH]; intros acc started Hg Hne; simpl.
  - by destruct Hne as [? | ->].
  - simpl in Hg. apply andb_true_iff in Hg as [Hc Hg].
    rewrite Hc. apply IH; auto.
Qed.

Lemma int_digit_group g rest :
  Py.all_chars Py.is_digit g = true → g ≠ "" → rest = "" ∨ rest = nl →
  Py.int (g +:+ rest) = Some (octet_value g).
Proof.
  intros Hg Hne Hrest. unfold Py.int. rewrite strip_digits by done.
  destruct g as [|c g]; [done|].
  assert (Py.is_digit c = true) as Hc.
  { simpl in Hg. by apply andb_true_iff in Hg as [? _]. }
  rewrite !(digit_not _ c) by done.
  apply int_digits_digits; auto.
Qed.

Lemma digits_value_nonneg g : ∀ acc,
  Py.all_chars Py.is_digit g = true → 0 ≤ acc → 0 ≤ Py.digits_value acc g.
Proof.
  induction g as [|c g IH]; intros acc Hg Hacc; simpl; [done|].
  simpl in Hg. apply andb_true_iff in Hg as [Hc%digit_code Hg].
  apply IH; [done|]. unfold Py.digit_val. lia.
Qed.

Lemma all_octets_values parts : ∀ vs,
  Forall2 (λ p v, Py.int p = Some v ∧ 0 ≤ v) parts vs →
  all_octets parts = Ok (forallb (λ v, v <=? 255) vs).
Proof.
  induction parts as [|p parts IH]; intros vs Hvs.
  - by apply Forall2_nil_inv_l in Hvs as ->.
  - apply Forall2_cons_inv_l in Hvs as (v&vs'&[Hp Hv]&Hvs&->).
    simpl. rewrite Hp. apply Z.leb_le in Hv. rewrite Hv. simpl.
    destruct (v <=? 255); [by apply IH | done].
Qed.

(** ** What [validate_ip_address] returns *)

Lemma validate_dotted g1 g2 g3 g4 rest :
  Forall (λ g, is_digit_group g = true) [g1; g2; g3; g4] →
  rest = "" ∨ rest = nl →
  validate_ip_address (dotted g1 g2 g3 g4 +:+ rest)
  = Ok (forallb (λ g, octet_value g <=? 255) [g1; g2; g3; g4]).
Proof.
  intros Hg Hrest. unfold validate_ip_address.
  assert (re_match ipv4_pattern (dotted g1 g2 g3 g4 +:+ rest) = true) as ->.
  { apply re_match_spec. exists (dotted g1 g2 g3 g4), rest.
    split; [done|]. split; [|done]. apply lang_ipv4_pattern. eauto 10. }
  rewrite split_on_dotted; [|done | by destruct Hrest as [-> | ->]].
  rewrite (all_octets_values _ (octet_value <$> [g1; g2; g3; g4])).
  { simpl. by rewrite !andb_assoc. }
  apply Forall_cons in Hg as [H1 Hg]. apply Forall_cons in Hg as [H2 Hg].
  apply Forall_cons in Hg as [H3 Hg]. apply Forall_cons in Hg as [H4 _].
  apply is_digit_group_digits in H1 as [H1 N1], H2 as [H2 N2],
    H3 as [H3 N3], H4 as [H4 N4].
  assert (∀ g, Py.all_chars Py.is_digit g = true → g ≠ "" →
    Py.int g = Some (octet_value g) ∧ 0 ≤ octet_value g) as Hint.
  { intros g Hd Hne. split; [|by apply digits_value_nonneg].
    rewrite <- (sapp_nil_r g) at 1. apply int_digit_group; auto. }
  simpl. repeat (apply List.Forall2_cons; [by auto|]).
  apply List.Forall2_cons; [|by apply List.Forall2_nil].
  split; [by apply int_digit_group | by apply digits_value_nonneg].
Qed.

Lemma re_match_ipv4_inv s :
  re_match ipv4_pattern s = true →
  ∃ g1 g2 g3 g4 rest, s = dotted g1 g2 g3 g4 +:+ rest
    ∧ Forall (λ g, is_digit_group g = true) [g1; g2; g3; g4]
    ∧ (rest = "" ∨ rest = nl).
Proof.
  intros (s1&rest&->&(g1&g2&g3&g4&->&Hg)%lang_ipv4_pattern&Hrest)%re_match_spec.
  eauto 10.
Qed.


Lemma lang_classes_within q r : ∀ s,
  classes_within q r → lang r s → Py.all_chars q s = true.
Proof.
  induction r as [| |p|r1 IH1 r2 IH2|r1 IH1 r2 IH2]; intros s Hq; simpl.
  - done.
  - by intros ->.
  - intros (c&->&Hp). simpl. by rewrite (Hq c Hp).
  - destruct Hq as [Hq1 Hq2]. intros (s1&s2&->&H1&H2).
    by rewrite all_chars_app, IH1, IH2.
  - destruct Hq as [Hq1 Hq2]. intros [H|H]; auto.
Qed.

Lemma hex_not_dot c : is_hex c = true → negb (Ascii.eqb c ".") = true.
Proof.
  intros Hc. apply negb_true_iff, Ascii.eqb_neq. intros ->. done.
Qed.

Lemma ipv6_lacks_dot s : re_match ipv6_pattern s = true → lacks "." s = true.
Proof.
  intros (s1&rest&->&Hs1&Hrest)%re_match_spec.
  rewrite lacks_app. apply andb_true_iff. split.
  - eapply lang_classes_within; [|done]. unfold ipv6_pattern. simpl.
    repeat split; try apply hex_not_dot;
      by intros c ->%is_char_eq.
  - by destruct Hrest as [-> | ->].
Qed.

Lemma ipv6_has_colon s :
  re_match ipv6_pattern s = true → Py.contains ":" s = true.
Proof.
  intros (s1&rest&->&Hs1&_)%re_match_spec.
  destruct Hs1 as (x&y&->&(x2&y2&->&Hx2&_)&_).
  destruct Hx2 as (a&b&->&(h&d&->&_&(c&->&->%is_char_eq))&_).
  apply negb_false_iff. rewrite <- lacks_contains, !lacks_app. simpl.
  by rewrite !andb_false_r.
Qed.

Lemma ends_with_newline_app s : Py.ends_with_newline (s +:+ nl) = true.
Proof.
  induction s as [|c s IH]; [done|]. rewrite sapp_cons. simpl.
  rewrite IH. destruct (s +:+ nl) eqn:E; [|done].
  by destruct s.
Qed.


Lemma numeric_octet_group g :
  is_digit_group g = true → numeric_octet g = (octet_value g <=? 255).
Proof.
  intros [Hd Hne]%is_digit_group_digits. unfold numeric_octet.
  rewrite Hd. by destruct g.
Qed.

Lemma validate_not_ipv4 s :
  re_match ipv4_pattern s = false →
  validate_ip_address s = Ok (re_match ipv6_pattern s).
Proof.
  intros H. unfold validate_ip_address. rewrite H.
  by destruct (re_match ipv6_pattern s).
Qed.

Lemma validate_total s : ∃ b, validate_ip_address s = Ok b.
Proof.
  destruct (re_match ipv4_pattern s) eqn:H4.
  - apply re_match_ipv4_inv in H4 as (g1&g2&g3&g4&rest&->&Hg&Hrest).
    rewrite validate_dotted by done. eauto.
  - rewrite validate_not_ipv4 by done. eauto.
Qed.

Lemma validate_four_groups s g1 g2 g3 g4 :
  Py.split_on "." s = [g1; g2; g3; g4] →
  Py.ends_with_newline s = false →
  forallb numeric_octet [g1; g2; g3; g4] = false →
  validate_ip_address s = Ok false.
Proof.
  intros Hsplit Hnl Hbad.
  destruct (re_match ipv4_pattern s) eqn:H4.
  - apply re_match_ipv4_inv in H4 as (h1&h2&h3&h4&rest&->&Hg&Hrest).
    destruct Hrest as [-> | ->]; [|by rewrite ends_with_newline_app in Hnl].
    rewrite validate_dotted by auto. f_equal.
    rewrite split_on_dotted, sapp_nil_r in Hsplit by done.
    injection Hsplit as <- <- <- <-. rewrite <- Hbad.
    apply Forall_cons in Hg as [H1 Hg]. apply Forall_cons in Hg as [H2 Hg].
    apply Forall_cons in Hg as [H3 Hg]. apply Forall_cons in Hg as [H4 _].
    simpl. by rewrite !numeric_octet_group.
  - rewrite validate_not_ipv4 by done.
    destruct (re_match ipv6_pattern s) eqn:H6; [|done].
    apply ipv6_lacks_dot, split_on_lacks in H6. congruence.
Qed.

Lemma validate_few_groups s :
  (length (Py.split_on "." s) < 4)%nat →
  Py.contains ":" s = false →
  validate_ip_address s = Ok false.
Proof.
  intros Hlen Hcolon.
  destruct (re_match ipv4_pattern s) eqn:H4.
  - apply re_match_ipv4_inv in H4 as (h1&h2&h3&h4&rest&->&Hg&Hrest).
    rewrite split_on_dotted in Hlen;
      [simpl in Hlen; lia | done | by destruct Hrest as [-> | ->]].
  - rewrite validate_not_ipv4 by done.
    destruct (re_match ipv6_pattern s) eqn:H6; [|done].
    apply ipv6_has_colon in H6. congruence.
Qed.

(** C4 (as the code has it). [validate_ip_address] returns true for every
    string of exactly four dot-separated groups of one to three decimal
    digits whose values are at most 255. It never raises. It returns false
    for the empty string; for every string of four dot-separated groups that
    does not end in a newline and in which some group is not a number or
    exceeds 255; and for every string of fewer than four dot-separated
    groups that contains no colon. So ["8.8.8.8"] is accepted, ["8.8.8.256"]
    and ["8.8.8"] are not. *)
Theorem validate_ip_address_spec :
  (∀ g1 g2 g3 g4,
     Forall (λ g, is_digit_group g = true ∧ octet_value g ≤ 255)
       [g1; g2; g3; g4] →
     validate_ip_address (dotted g1 g2 g3 g4) = Ok true)
  ∧ (∀ s, ∃ b, validate_ip_address s = Ok b)
  ∧ validate_ip_address "" = Ok false
  ∧ (∀ s g1 g2 g3 g4,
       Py.split_on "." s = [g1; g2; g3; g4] →
       Py.ends_with_newline s = false →
       forallb numeric_octet [g1; g2; g3; g4] = false →
       validate_ip_address s = Ok false)
  ∧ (∀ s,
       (length (Py.split_on "." s) < 4)%nat →
       Py.contains ":" s = false →
       validate_ip_address s = Ok false)
  ∧ validate_ip_address "8.8.8.8" = Ok true
  ∧ validate_ip_address "8.8.8.256" = Ok false
  ∧ validate_ip_address "8.8.8" = Ok false.
Proof.
  split; [|split; [|split; [|split; [|split]]]].
  - intros g1 g2 g3 g4 Hg.
    rewrite <- (sapp_nil_r (dotted g1 g2 g3 g4)).
    rewrite validate_dotted; [|eapply Forall_impl; [done | naive_solver] | auto].
    f_equal. apply forallb_forall. intros g Hin%list_elem_of_In.
    rewrite Forall_forall in Hg. apply Z.leb_le, Hg, Hin.
  - apply validate_total.
  - reflexivity.
  - apply validate_four_groups.
  - apply validate_few_groups.
  - by vm_compute.
Qed.

(** The theorem at ["192.168.0.1"], ["1.2.3.x"], ["1.2.3.999"] and ["1.2"]. *)
Lemma validate_ip_address_spec_witness :
  validate_ip_address (dotted "192" "168" "0" "1") = Ok true
  ∧ validate_ip_address "1.2.3.x" = Ok false
  ∧ validate_ip_address "1.2.3.999" = Ok false
  ∧ validate_ip_address "1.2" = Ok false.
Proof.
  destruct validate_ip_address_spec as (Hyes&_&_&Hfour&Hfew&_).
  split; [|split; [|split]].
  - apply Hyes. repeat constructor; by vm_compute.
  - by apply (Hfour "1.2.3.x" "1" "2" "3" "x").
  - by apply (Hfour "1.2.3.999" "1" "2" "3" "999").
  - apply Hfew; [vm_compute; lia | reflexivity].
Defined.

(** C4 as the spec words it fails twice. Four all-digit groups of value at
    most 255 are refused when a group has more than three digits; and a
    string whose last group is not a number, because a newline follows its
    digits, is accepted: [$] also matches before a final newline. *)
Lemma validate_ip_address_counterexample :
  (forallb numeric_octet ["0001"; "1"; "1"; "1"] = true
   ∧ validate_ip_address (dotted "0001" "1" "1" "1") = Ok false)
  ∧ (Py.split_on "." ("8.8.8.8" +:+ nl) = ["8"; "8"; "8"; "8" +:+ nl]
     ∧ numeric_octet ("8" +:+ nl) = false
     ∧ validate_ip_address ("8.8.8.8" +:+ nl) = Ok true).
Proof. by vm_compute. Qed.

(** ** Rules for [safe] and [total] *)

Section rules.
Context {S : Type} (I : S → Prop).

Lemma total_safe {A} (m : M S A) : total I m → safe I m.
Proof.
  intros Hm s Hs. destruct (Hm s Hs) as [HI [a Ha]].
  split; [done|]. intros e He. congruence.
Qed.

Lemma total_ret {A} (a : A) : total I (ret a).
Proof. intros s Hs. simpl. eauto. Qed.

Lemma total_gets {A} (f : S → A) : total I (gets f).
Proof. intros s Hs. simpl. eauto. Qed.

Lemma total_modify (f : S → S) : (∀ s, I s → I (f s)) → total I (modify f).
Proof. intros Hf s Hs. simpl. eauto. Qed.

Lemma total_bind {A B} (m : M S A) (f : A → M S B) :
  total I m → (∀ a, total I (f a)) → total I (bind m f).
Proof.
  intros Hm Hf s Hs. unfold bind.
  destruct (Hm s Hs) as [HI [a Ha]]. destruct (m s) as [r s']. simpl in *.
  subst r. by apply Hf.
Qed.

Lemma total_for_each {X} (xs : list X) (body : X → M S unit) :
  (∀ x, total I (body x)) → total I (for_each xs body).
Proof.
  intros Hb. induction xs as [|x xs IH]; simpl.
  - apply total_ret.
  - apply total_bind; auto.
Qed.

Lemma safe_raise {A} e : is_Exception e = true → safe I (raise (A:=A) e).
Proof. intros He s Hs. simpl. split; [done|]. by intros ? [= <-]. Qed.

Lemma safe_lift {A} (r : res A) :
  (∀ e, r = Raise e → is_Exception e = true) → safe I (lift r).
Proof. intros Hr s Hs. simpl. eauto. Qed.

Lemma safe_bind {A B} (m : M S A) (f : A → M S B) :
  safe I m → (∀ a, safe I (f a)) → safe I (bind m f).
Proof.
  intros Hm Hf s Hs. unfold bind.
  destruct (Hm s Hs) as [HI He]. destruct (m s) as [[a|e] s']; simpl in *.
  - by apply Hf.
  - split; [done|]. intros e' [= <-]. by apply He.
Qed.

Lemma safe_for_each {X} (xs : list X) (body : X → M S unit) :
  (∀ x, safe I (body x)) → safe I (for_each xs body).
Proof.
  intros Hb. induction xs as [|x xs IH]; simpl.
  - apply total_safe, total_ret.
  - apply safe_bind; auto.
Qed.

Lemma safe_index {A} (l : list A) i : safe I (index l i).
Proof.
  unfold index. destruct (l !! i).
  - apply total_safe, total_ret.
  - by apply safe_raise.
Qed.

Lemma safe_subprocess_run h argv : safe I (subprocess_run h argv).
Proof.
  unfold subprocess_run. destruct (run h argv).
  - apply total_safe, total_ret.
  - by apply safe_raise.
  - by apply safe_raise.
Qed.

Lemma safe_open_resolv_conf h : safe I (open_resolv_conf h).
Proof.
  unfold open_resolv_conf. destruct (resolv_conf h).
  - apply total_safe, total_ret.
  - by apply safe_raise.
Qed.

(** A handler that does nothing turns [safe] into [total]. *)
Lemma total_try_except (m : M S unit) :
  safe I m → total I (try_except m (λ _, ret tt)).
Proof.
  intros Hm s Hs. unfold try_except.
  destruct (Hm s Hs) as [HI He]. destruct (m s) as [[[]|e] s']; simpl in *.
  - eauto.
  - rewrite (He e eq_refl). simpl. eauto.
Qed.

End rules.

(** ** First occurrences *)

Lemma elem_of_keep_first l x : x ∈ keep_first l ↔ x ∈ l.
Proof.
  induction l as [|a l IH]; simpl; [done|].
  rewrite !elem_of_cons, list_elem_of_filter, IH.
  destruct (decide (x = a)); naive_solver.
Qed.

Lemma NoDup_keep_first l : NoDup (keep_first l).
Proof.
  induction l as [|a l IH]; simpl; [constructor|].
  apply NoDup_cons. split.
  - rewrite list_elem_of_filter. naive_solver.
  - by apply NoDup_filter.
Qed.

Lemma keep_first_snoc l x :
  keep_first (l ++ [x])
  = if decide (x ∈ l) then keep_first l else (keep_first l ++ [x])%list.
Proof.
  induction l as [|a l IH].
  - done.
  - change (keep_first ((a :: l) ++ [x]))
      with (a :: filter (λ y, y ≠ a) (keep_first (l ++ [x]))).
    change (keep_first (a :: l)) with (a :: filter (λ y, y ≠ a) (keep_first l)).
    rewrite IH. destruct (decide (x ∈ l)) as [Hin|Hin].
    + rewrite decide_True; [done | by right].
    + rewrite filter_app. destruct (decide (x = a)) as [->|Hne].
      * rewrite decide_True by left.
        rewrite filter_cons_False by naive_solver.
        by rewrite filter_nil, app_nil_r.
      * rewrite decide_False by (rewrite elem_of_cons; naive_solver).
        by rewrite filter_cons_True.
Qed.

(** ** The invariant of discovery *)

Lemma accepted_guard server b :
  validate_ip_address server = Ok b →
  accepted server = b && negb (Py.startswith "127." server).
Proof. unfold accepted. intros ->. by destruct b. Qed.

Lemma filter_accepted_snoc (l : list string) server :
  filter (λ s, accepted s) (l ++ [server])%list
  = (filter (λ s, accepted s) l ++ if accepted server then [server] else [])%list.
Proof.
  rewrite filter_app. f_equal. destruct (accepted server) eqn:E.
  - by rewrite filter_cons_True by (by rewrite E).
  - by rewrite filter_cons_False by (rewrite E; by intros []).
Qed.

Lemma total_consider server : total discovery_inv (consider server).
Proof.
  intros d [Hdns Hseen]. unfold consider, bind, modify, lift, gets, ret.
  destruct (validate_total server) as [b Hb]. rewrite Hb.
  pose proof (accepted_guard server b Hb) as Hacc.
  pose proof (filter_accepted_snoc (offered d) server) as Hflt.
  rewrite Hacc in Hflt. 
  destruct (b && negb (Py.startswith "127." server)).
  - cbn [log_offer seen_servers].
  destruct (decide (server ∈ seen_servers d)) as [Hin|Hin]; cbn [fst snd].
    + split; [|eauto]. split; [|done]. simpl. rewrite Hflt, keep_first_snoc.
      rewrite decide_True; [done|].
      apply Hseen in Hin. rewrite Hdns in Hin. by apply elem_of_keep_first.
    + split; [|eauto]. split; simpl.
      * rewrite Hflt, keep_first_snoc, decide_False; [by rewrite Hdns|].
        intros Hin'. apply Hin, Hseen. rewrite Hdns.
        by apply elem_of_keep_first.
      * intros x. rewrite elem_of_union, elem_of_singleton, elem_of_app,
          list_elem_of_singleton, Hseen. naive_solver.
  - cbn [fst snd]. split; [|eauto]. split; [|done]. simpl.
    by rewrite Hflt, app_nil_r.
Qed.

Ltac safe_step :=
  lazymatch goal with
  | |- safe _ (ret _) => apply total_safe, total_ret
  | |- safe _ (bind _ _) => apply safe_bind; [|intros ?]
  | |- safe _ (for_each _ _) => apply safe_for_each; intros ?
  | |- safe _ (index _ _) => apply safe_index
  | |- safe _ (consider _) => apply total_safe, total_consider
  | |- safe _ (subprocess_run _ _) => apply safe_subprocess_run
  | |- safe _ (open_resolv_conf _) => apply safe_open_resolv_conf
  | |- safe _ (if ?b then _ else _) => destruct b
  | |- safe _ (match ?p with (_, _) => _ end) => destruct p
  | |- safe _ _ => progress cbv beta zeta
  end.

Lemma safe_following_lines lines js :
  safe discovery_inv (following_lines lines js).
Proof.
  induction js as [|j js IH]; simpl; repeat safe_step; exact IH.
Qed.

Lemma safe_scan_status stdout : safe discovery_inv (scan_status stdout).
Proof.
  unfold scan_status. repeat safe_step; apply safe_following_lines.
Qed.

Lemma total_from_resolv_conf h : total discovery_inv (from_resolv_conf h).
Proof. apply total_try_except. repeat safe_step. Qed.

Lemma total_from_resolved h : total discovery_inv (from_resolved h).
Proof.
  apply total_for_each. intros cmd. apply total_try_except.
  repeat safe_step. apply safe_scan_status.
Qed.

Lemma total_from_nmcli h : total discovery_inv (from_nmcli h).
Proof. apply total_try_except. repeat safe_step. Qed.

Lemma total_discover h : total discovery_inv (discover h).
Proof.
  unfold discover.
  apply total_bind; [apply total_from_resolv_conf | intros _].
  apply total_bind; [apply total_from_resolved | intros _].
  apply total_from_nmcli.
Qed.

Lemma discovery_inv_start : discovery_inv discovery_start.
Proof. split; [done|]. intros x. simpl. set_solver. Qed.

Lemma get_current_dns_servers_candidates h :
  get_current_dns_servers h
  = Ok (keep_first (filter (λ s, accepted s) (candidates h))).
Proof.
  unfold get_current_dns_servers, candidates, bind, gets.
  destruct (total_discover h _ discovery_inv_start) as [[Hdns _] [[] Hok]].
  destruct (discover h discovery_start) as [r d]. simpl in *.
  by rewrite Hok, Hdns.
Qed.

(** ** Loopback addresses *)

Lemma digit_of_code c n : Py.code c = n → c = ascii_of_nat n.
Proof. intros <-. unfold Py.code. by rewrite ascii_nat_embedding. Qed.

Lemma octet_127 g : is_digit_group g = true → octet_value g = 127 → g = "127".
Proof.
  unfold is_digit_group, octet_value.
  destruct g as [|a [|b [|c [|d g]]]]; simpl; try done;
    rewrite ?andb_true_r, ?andb_true_iff; unfold Py.digit_val.
  - intros Ha%digit_code ?. lia.
  - intros [Ha%digit_code Hb%digit_code] ?. lia.
  - intros [Ha%digit_code [Hb%digit_code Hc%digit_code]] ?.
    rewrite (digit_of_code a 49), (digit_of_code b 50), (digit_of_code c 55)
      by lia. done.
Qed.

Lemma accepted_inv s :
  accepted s = true →
  validate_ip_address s = Ok true ∧ Py.startswith "127." s = false.
Proof.
  unfold accepted. destruct (validate_ip_address s) as [[]|]; try done.
  by intros ->%negb_true_iff.
Qed.

Lemma accepted_not_loopback s : accepted s = true → ¬ ipv4_loopback s.
Proof.
  intros [Hvalid Hprefix]%accepted_inv (g1&g2&g3&g4&->&Hg&H127).
  assert (Py.split_on "." (dotted g1 g2 g3 g4) = [g1; g2; g3; g4]) as Hsplit.
  { rewrite <- (sapp_nil_r (dotted _ _ _ _)), split_on_digits, sapp_nil_r;
      [done | | done].
    eapply Forall_impl; [done | naive_solver]. }
  destruct (re_match ipv4_pattern (dotted g1 g2 g3 g4)) eqn:H4.
  - apply re_match_ipv4_inv in H4 as (h1&h2&h3&h4&rest&Heq&Hh&Hrest).
    rewrite Heq, split_on_dotted in Hsplit;
      [|done | by destruct Hrest as [-> | ->]].
    injection Hsplit as -> _ _ _.
    apply Forall_cons in Hh as [H1 _].
    rewrite (octet_127 g1 H1 H127) in Hprefix.
    unfold dotted in Hprefix. by rewrite !sapp_cons, sapp_nil_l in Hprefix.
  - rewrite validate_not_ipv4 in Hvalid by done.
    injection Hvalid as H6. apply ipv6_lacks_dot, split_on_lacks in H6.
    congruence.
Qed.

(** C1 (as the code has it). Discovery always returns a sequence; it is the
    sequence of candidate tokens that pass the validator and do not start
    with ["127."], each kept at its first occurrence, in discovery order.
    Its elements are pairwise distinct and none is an IPv4 address in
    127.0.0.0/8, whatever the sources yield. *)
Theorem get_current_dns_servers_spec (h : host) :
  ∃ servers,
    get_current_dns_servers h = Ok servers
    ∧ servers = keep_first (filter (λ s, accepted s) (candidates h))
    ∧ NoDup servers
    ∧ Forall (λ s, validate_ip_address s = Ok true
                   ∧ Py.startswith "127." s = false
                   ∧ ¬ ipv4_loopback s) servers.
Proof.
  eexists. split; [apply get_current_dns_servers_candidates|].
  split; [done|]. split; [apply NoDup_keep_first|].
  apply Forall_forall. intros s Hs.
  apply (proj1 (elem_of_keep_first _ _)) in Hs.
  apply list_elem_of_filter in Hs as [Hs%Is_true_true _].
  destruct (accepted_inv s Hs). auto using accepted_not_loopback.
Qed.

(** C1 as the spec words it fails: the IPv6 loopback passes the validator
    and does not start with ["127."], so discovery returns it. The example
    of the spec itself holds. *)
Lemma get_current_dns_servers_counterexample :
  get_current_dns_servers
    (only_resolv_conf ("nameserver ::1" +:+ nl +:+ "nameserver 9.9.9.9" +:+ nl))
  = Ok ["::1"; "9.9.9.9"]
  ∧ get_current_dns_servers
      (only_resolv_conf ("nameserver 1.1.1.1" +:+ nl +:+ "nameserver 1.1.1.1"
                         +:+ nl +:+ "nameserver 127.0.0.53" +:+ nl))
    = Ok ["1.1.1.1"].
Proof. by vm_compute. Qed.

(** ** query_dns *)

Lemma query_dns_returns {S} h dig domain dns_server (s : S) :
  ∃ success elapsed,
    query_dns h dig domain dns_server s = (Ok (success, elapsed), s)
    ∧ is_inf elapsed = negb (truthy success).
Proof.
  unfold query_dns, catch, bind, attribute, subprocess_run.
  destruct dig as [dig|]; simpl; [|by eexists _, _].
  destruct (clock h _) as [start_time end_time].
  destruct (run h _) as [rc out| |]; simpl; try by eexists _, _.
  destruct (rc =? 0); simpl; [|by eexists _, _].
  eexists _, _. split; [done|]. by destruct (truthy _).
Qed.

Lemma query_dns_failure {S} h dig domain dns_server (s : S) :
  probe_failure h domain dns_server dig →
  ∃ success,
    fst (query_dns h dig domain dns_server s) = Ok (success, Inf)
    ∧ truthy success = false.
Proof.
  intros Hfail.
  destruct Hfail as [|dig Hrun|dig Hrun|dig rc out Hrun Hrc|dig out Hrun Hout
                     |out Hrun Hout];
    [by exists (PBool false)|..]; try destruct dig;
    unfold lookup_argv in Hrun;
    unfold query_dns, catch, bind, attribute, subprocess_run; simpl;
    destruct (clock h _); rewrite Hrun; simpl;
    try by exists (PBool false).
  - exists (PBool false). by destruct (Z.eqb_spec rc 0).
  - exists (PBool false). by destruct (Z.eqb_spec rc 0).
  - exists (PBool false). by rewrite Hout.
  - rewrite Hout. destruct (Py.contains "NXDOMAIN" out);
      [by exists (PBool false)|].
    destruct (Py.contains "can't find" out);
      [by exists (PBool false) | by exists (PStr "")].
  - exists (PBool false). destruct Hout as [-> | ->]; [done|]. by case_match.
Qed.

(** C7. A probe always returns a pair, whatever the lookup does, and
    leaves the state alone. The pair is a false value with [inf] when the
    attribute is unset, on a timeout, when the lookup cannot be started, on
    an exit status other than zero, on empty output, and when [nslookup]
    reports that the name was not found. The time is [inf] exactly when the
    first component is false; so a finite time comes only with success. *)
Theorem query_dns_spec {S} h dig domain dns_server (s : S) :
  ∃ success elapsed,
    query_dns h dig domain dns_server s = (Ok (success, elapsed), s)
    ∧ is_inf elapsed = negb (truthy success)
    ∧ (probe_failure h domain dns_server dig →
       truthy success = false ∧ elapsed = Inf).
Proof.
  destruct (query_dns_returns h dig domain dns_server s)
    as (success&elapsed&Hq&Hinf).
  exists success, elapsed. split; [done|]. split; [done|].
  intros (v&Hfail&Hv)%(query_dns_failure (S:=S) _ _ _ _ s).
  rewrite Hq in Hfail. by injection Hfail as -> ->.
Qed.

(** The theorem on a machine without [dig] and [nslookup]. *)
Lemma query_dns_spec_witness :
  ∃ success elapsed,
    query_dns (only_resolv_conf "") (Some true) "github.com" "9.9.9.9" ()
    = (Ok (success, elapsed), ())
    ∧ truthy success = false ∧ elapsed = Inf.
Proof.
  destruct (query_dns_spec (only_resolv_conf "") (Some true)
              "github.com" "9.9.9.9" ()) as (success&elapsed&Hq&_&Hfail).
  exists success, elapsed. split; [done|].
  apply Hfail. by apply lookup_error.
Defined.

(** ** benchmark_server *)

Lemma collect_step h dig dns_server j (a : tally) :
  (j < length test_domains)%nat →
  ∃ domain, test_domains !! j = Some domain ∧
  ∃ success elapsed,
    query_dns h dig domain dns_server a = (Ok (success, elapsed), a)
    ∧ (let* domain := index test_domains j in
       try_except
         (let* result := query_dns h dig domain dns_server in
          let '(success, response_time) := result in
          if truthy success && negb (is_inf response_time)
          then modify (add_success response_time)
          else modify add_failure)
         (λ _, modify add_failure)) a
      = (Ok (), if truthy success && negb (is_inf elapsed)
                then add_success elapsed a else add_failure a).
Proof.
  intros Hj. destruct (lookup_lt_is_Some_2 test_domains j Hj) as [domain Hd].
  exists domain. split; [done|].
  destruct (query_dns_returns h dig domain dns_server a)
    as (success&elapsed&Hq&Hinf).
  exists success, elapsed. split; [done|].
  unfold bind, index, try_except. rewrite Hd. simpl. rewrite Hq.
  by destruct (truthy success && negb (is_inf elapsed)).
Qed.

Lemma collect_run h dig dns_server js : ∀ a,
  Forall (λ j, (j < length test_domains)%nat) js →
  finite_samples a →
  ∃ a',
    for_each js (λ j,
      let* domain := index test_domains j in
      try_except
        (let* result := query_dns h dig domain dns_server in
         let '(success, response_time) := result in
         if truthy success && negb (is_inf response_time)
         then modify (add_success response_time)
         else modify add_failure)
        (λ _, modify add_failure)) a = (Ok (), a')
    ∧ finite_samples a'
    ∧ (length (successful a') + failed a'
       = length (successful a) + failed a + length js)%nat.
Proof.
  induction js as [|j js IH]; intros a Hjs Ha.
  - exists a. simpl. split; [done|]. split; [done | lia].
  - apply Forall_cons in Hjs as [Hj Hjs].
    destruct (collect_step h dig dns_server j a Hj)
      as (domain&_&success&elapsed&_&Hstep).
    cbn [for_each]. unfold bind at 1. rewrite Hstep.
    destruct (truthy success && negb (is_inf elapsed)) eqn:Hok.
    + destruct (IH (add_success elapsed a) Hjs) as (a'&Hrun&Hfin&Hlen).
      { apply Forall_app. split; [done|]. apply Forall_singleton.
        apply andb_true_iff in Hok as [_ Hok]. by apply negb_true_iff. }
      exists a'. split; [done|]. split; [done|].
      simpl in Hlen. rewrite length_app in Hlen. simpl in *. lia.
    + destruct (IH (add_failure a) Hjs Ha) as (a'&Hrun&Hfin&Hlen).
      exists a'. split; [done|]. split; [done|]. simpl in *. lia.
Qed.



(** What [benchmark_server] returns, in terms of the final accumulators. *)
Lemma benchmark_server_run h dig dns_server name :
  completes_all h dns_server →
  ∃ a,
    finite_samples a
    ∧ (length (successful a) + failed a = length test_domains)%nat
    ∧ benchmark_server h dig dns_server name
      = Ok {| name := default dns_server name;
              server := dns_server;
              success_rate :=
                code_rate (length (successful a)) (length test_domains);
              successful_queries := length (successful a);
              failed_queries := failed a;
              avg_time := if negb (bool_decide (successful a = []))
                          then mean (successful a) else Inf;
              min_time := if negb (bool_decide (successful a = []))
                          then minimum (successful a) else Inf;
              max_time := if negb (bool_decide (successful a = []))
                          then maximum (successful a) else Inf;
              median_time := if negb (bool_decide (successful a = []))
                             then median (successful a) else Inf |}.
Proof.
  intros Hperm. unfold completes_all in Hperm.
  destruct (collect_run h dig dns_server (completion h dns_server) tally_start)
    as (a&Hrun&Hfin&Hlen).
  { rewrite Hperm. apply Forall_forall. intros j Hj%elem_of_seq. lia. }
  { constructor. }
  exists a. split; [done|]. split.
  { rewrite Hlen, Hperm, length_seq. simpl. lia. }
  unfold benchmark_server, collect. unfold bind at 1. rewrite Hrun.
  unfold summarize, bind, gets, truediv, code_rate. simpl.
  by destruct (bool_decide (successful a = [])).
Qed.

Lemma code_rate_within k :
  (k ≤ 24)%nat → within_one_ulp (code_rate k 24) (spec_rate k 24).
Proof.
  intros Hk. unfold within_one_ulp.
  do 25 (destruct k as [|k]; [vm_compute; auto|]). lia.
Qed.

Lemma lab_completes_all answers millis dns_server :
  completes_all (lab answers millis) dns_server.
Proof.
  unfold completes_all. cbn [completion lab]. symmetry. apply Permutation_rev.
Qed.

(** C2 (as the code has it). Every benchmark of a server returns a
    dictionary in which [successful_queries + failed_queries] is the number
    of test domains. Its [success_rate] is the double
    [(successful_queries / total) * 100], the quotient taken first, with
    [total] the number of test domains whatever the number of failures;
    this double is the double [100 * successful_queries / total] or one of
    its two neighbours. *)
Theorem benchmark_server_counts h dig dns_server name :
  completes_all h dns_server →
  ∃ r,
    benchmark_server h dig dns_server name = Ok r
    ∧ (successful_queries r + failed_queries r = length test_domains)%nat
    ∧ success_rate r
      = code_rate (successful_queries r) (length test_domains)
    ∧ within_one_ulp (success_rate r)
        (spec_rate (successful_queries r) (length test_domains)).
Proof.
  intros Hall.
  destruct (benchmark_server_run h dig dns_server name Hall)
    as (a&_&Hlen&->).
  eexists. split; [done|]. simpl. split; [done|]. split; [done|].
  apply code_rate_within. simpl in Hlen. lia.
Qed.

(** The theorem on a machine where one server answers for every second
    domain. *)
Lemma benchmark_server_counts_witness :
  ∃ r,
    benchmark_server
      (lab (λ _ domain, Nat.even (String.length domain)) (λ _, 20))
      (Some true) "9.9.9.9" None = Ok r
    ∧ (successful_queries r + failed_queries r = length test_domains)%nat.
Proof.
  destruct (benchmark_server_counts
    (lab (λ _ domain, Nat.even (String.length domain)) (λ _, 20))
    (Some true) "9.9.9.9" None (lab_completes_all _ _ _)) as (r&Hr&Hsum&_).
  by exists r.
Defined.

(** C2 as the spec words it fails: with one success in 24 the rate that
    the code computes, [(1 / 24) * 100], is not the double [100 * 1 / 24]
    but the double just below it. *)
Lemma benchmark_server_rate_counterexample :
  ∃ r,
    benchmark_server
      (lab (λ _ domain, String.eqb domain "github.com") (λ _, 20))
      (Some true) "9.9.9.9" None = Ok r
    ∧ successful_queries r = 1%nat
    ∧ failed_queries r = 23%nat
    ∧ PrimFloat.eqb (success_rate r)
        (spec_rate (successful_queries r) (length test_domains)) = false
    ∧ success_rate r
      = PrimFloat.next_down
          (spec_rate (successful_queries r) (length test_domains)).
Proof. eexists. split; [by vm_compute|]. by vm_compute. Qed.

(** ** The sort *)

Section sorting.
Context {A : Type} (lt : A → A → bool).

Lemma insert_by_Permutation x l : insert_by lt x l ≡ₚ x :: l.
Proof.
  induction l as [|y l IH]; simpl; [done|].
  destruct (lt y x); [|done]. rewrite IH. apply Permutation_swap.
Qed.

Lemma py_sorted_Permutation l : py_sorted lt l ≡ₚ l.
Proof.
  induction l as [|x l IH]; simpl; [done|].
  by rewrite insert_by_Permutation, IH.
Qed.

Lemma py_sorted_nil_inv l : py_sorted lt l = [] → l = [].
Proof.
  intros H. apply Permutation_nil_r. by rewrite <- H, py_sorted_Permutation.
Qed.

(** Among the elements of a class in which none is below another, the
    sort changes nothing. *)
Lemma filter_insert_by (P : A → Prop) `{!∀ x, Decision (P x)} x l :
  (∀ y, P x → P y → lt y x = false) →
  filter P (insert_by lt x l) = filter P (x :: l).
Proof.
  intros Hclass. induction l as [|y l IH]; simpl; [done|].
  destruct (lt y x) eqn:Hyx; [|done].
  rewrite (filter_cons _ y), IH, !(filter_cons _ x), (filter_cons _ y).
  destruct (decide (P x)) as [Hx|Hx], (decide (P y)) as [Hy|Hy]; try done.
  by rewrite Hclass in Hyx.
Qed.

Lemma py_sorted_stable (P : A → Prop) `{!∀ x, Decision (P x)} l :
  (∀ x y, P x → P y → lt y x = false) →
  filter P (py_sorted lt l) = filter P l.
Proof.
  intros Hclass. induction l as [|x l IH]; simpl; [done|].
  rewrite filter_insert_by by auto. by rewrite !filter_cons, IH.
Qed.

(** With [<] asymmetric and [not (b < a)] transitive the result ascends. *)
Context (Hasym : ∀ x y, lt x y = true → lt y x = false).
Context (Htrans : ∀ x y z, lt y x = false → lt z y = false → lt z x = false).

Lemma insert_by_sorted x l :
  StronglySorted (λ a b, lt b a = false) l →
  StronglySorted (λ a b, lt b a = false) (insert_by lt x l).
Proof.
  induction 1 as [|y l Hl IH Hy]; simpl; [by repeat constructor|].
  destruct (lt y x) eqn:Hyx.
  - constructor; [done|]. rewrite insert_by_Permutation.
    constructor; [by apply Hasym | done].
  - constructor; [by constructor|]. constructor; [done|].
    eapply Forall_impl; [done|]. intros z Hz. by eapply Htrans.
Qed.

Lemma py_sorted_sorted l :
  StronglySorted (λ a b, lt b a = false) (py_sorted lt l).
Proof.
  induction l as [|x l IH]; simpl; [constructor | by apply insert_by_sorted].
Qed.

End sorting.

(** ** The order of times *)

Lemma Qltb_asym x y : Qltb x y = true → Qltb y x = false.
Proof.
  unfold Qltb. rewrite negb_true_iff, negb_false_iff, Qle_bool_iff.
  intros H. apply Qlt_le_weak, Qnot_le_lt. intros Hle%Qle_bool_iff. congruence.
Qed.

Lemma Qltb_false x y : Qltb y x = false ↔ (x <= y)%Q.
Proof. unfold Qltb. by rewrite negb_false_iff, Qle_bool_iff. Qed.

Lemma lat_ltb_asym a b : lat_ltb a b = true → lat_ltb b a = false.
Proof. destruct a, b; simpl; try done. apply Qltb_asym. Qed.

Lemma lat_le_trans a b c : lat_le a b → lat_le b c → lat_le a c.
Proof.
  unfold lat_le. destruct a, b, c; simpl; try done.
  rewrite !Qltb_false. apply Qle_trans.
Qed.

Lemma lat_eqb_refl a : lat_eqb a a = true.
Proof. destruct a; simpl; [apply Qeq_bool_refl | done]. Qed.

Lemma lat_eqb_not_lt a b t :
  lat_eqb a t = true → lat_eqb b t = true → lat_ltb b a = false.
Proof.
  destruct a, b, t; simpl; try done.
  intros Ha%Qeq_bool_iff Hb%Qeq_bool_iff. apply Qltb_false.
  rewrite Ha, Hb. apply Qle_refl.
Qed.

(** ** The report *)

Lemma for_each_print {X} (f : X → line) (body : X → M (list line) unit) xs :
  (∀ x out, body x out = (Ok (), out ++ [f x])) →
  ∀ out, for_each xs body out = (Ok (), out ++ map f xs).
Proof.
  intros Hbody. induction xs as [|x xs IH]; intros out; simpl.
  - by rewrite app_nil_r.
  - unfold bind. rewrite Hbody, IH. by rewrite <- app_assoc.
Qed.

Lemma print_results_run results out :
  results ≠ [] →
  print_results results false out
  = recommend (ranked results)
      (out ++ [RuleTop; Title; Rule] ++ table_lines (ranked results)
           ++ failure_lines (failed_results results)).
Proof.
  intros Hne. unfold print_results. destruct results as [|r0 results]; [done|].
  cbn [is_nil]. cbv zeta. fold (ranked (r0 :: results)).
  unfold bind at 1 2 3, print, modify. simpl fst. cbv iota beta.
  unfold bind at 1. unfold table_lines, failure_lines.
  set (rs := ranked (r0 :: results)). set (fs := failed_results (r0 :: results)).
  assert (∀ o, (if negb (is_nil rs)
                then print TableHeader >>> print Dashes >>>
                     for_each (enumerate 1 rs) (λ '(i, r), print (Row i r))
                else ret ()) o
          = (Ok (), o ++ (if is_nil rs then []
               else TableHeader :: Dashes
                    :: map (λ '(i, r), Row i r) (enumerate 1 rs)))) as Htab.
  { intros o. destruct rs as [|r rs']; simpl; [by rewrite app_nil_r|].
    unfold bind, print, modify. simpl.
    rewrite (for_each_print (λ '(i, r), Row i r)) by (by intros [i x] ?).
    by rewrite <- !app_assoc. }
  assert (∀ o, (if negb (is_nil fs)
                then print FailedHeader >>>
                     for_each fs (λ r, print (FailedRow r))
                else ret ()) o
          = (Ok (), o ++ (if is_nil fs then []
                          else FailedHeader :: map FailedRow fs))) as Hfail.
  { intros o. destruct fs as [|r fs']; simpl; [by rewrite app_nil_r|].
    unfold bind, print, modify. simpl.
    rewrite (for_each_print FailedRow) by done.
    by rewrite <- !app_assoc. }
  rewrite Htab. unfold bind at 1. rewrite Hfail.
  by rewrite <- !app_assoc.
Qed.

(** ** What a block writes *)

Section writes.
Context (Q : line → Prop).

Lemma writes_ret {A} (a : A) : writes Q (ret a).
Proof. intros out. exists []. by rewrite app_nil_r. Qed.

Lemma writes_raise {A} e : writes Q (raise (A:=A) e).
Proof. intros out. exists []. by rewrite app_nil_r. Qed.

Lemma writes_print l : Q l → writes Q (print l).
Proof. intros Hl out. exists [l]. split; [done | by constructor]. Qed.

Lemma writes_bind {A B} (m : M (list line) A) (f : A → M (list line) B) :
  writes Q m → (∀ a, writes Q (f a)) → writes Q (bind m f).
Proof.
  intros Hm Hf out. unfold bind. destruct (Hm out) as (e1&H1&HQ1).
  destruct (m out) as [[a|e] out']; simpl in *; subst out'.
  - destruct (Hf a (out ++ e1)) as (e2&H2&HQ2).
    exists (e1 ++ e2). rewrite H2, app_assoc. split; [done|].
    by apply Forall_app.
  - by exists e1.
Qed.

Lemma writes_index {A} (l : list A) i : writes Q (index l i).
Proof. unfold index. destruct (l !! i); [apply writes_ret | apply writes_raise]. Qed.

Lemma writes_next_rank target rs : ∀ i, writes Q (next_rank i target rs).
Proof.
  induction rs as [|r rs IH]; intros i; simpl; [apply writes_raise|].
  destruct (stats_eqb r target); [apply writes_ret | apply IH].
Qed.

Lemma writes_improvement_of c b : writes Q (improvement_of c b).
Proof.
  unfold improvement_of. destruct c, b; try apply writes_raise.
  destruct (Qeq_bool _ _); [apply writes_raise | apply writes_ret].
Qed.

End writes.

Lemma writes_recommend rs : writes (λ l, is_row l = false) (recommend rs).
Proof.
  unfold recommend, compare_with_current.
  repeat first
    [ apply writes_ret | apply writes_index | apply writes_next_rank
    | apply writes_improvement_of | by apply writes_print
    | apply writes_bind; [|intros ?]
    | match goal with |- writes _ (if ?b then _ else _) => destruct b end
    | progress cbv zeta ].
Qed.

Lemma table_rows_app o1 o2 : table_rows (o1 ++ o2) = table_rows o1 ++ table_rows o2.
Proof.
  induction o1 as [|l o1 IH]; simpl; [done|]. destruct l; by rewrite ?IH.
Qed.

Lemma failure_rows_app o1 o2 :
  failure_rows (o1 ++ o2) = failure_rows o1 ++ failure_rows o2.
Proof.
  induction o1 as [|l o1 IH]; simpl; [done|]. destruct l; by rewrite ?IH.
Qed.

Lemma rows_of_others extra :
  Forall (λ l, is_row l = false) extra →
  table_rows extra = [] ∧ failure_rows extra = [].
Proof.
  induction 1 as [|l extra Hl _ [IH1 IH2]]; [done|].
  simpl. by destruct l.
Qed.

Lemma enumerate_cons {A} n (x : A) l :
  enumerate n (x :: l) = (n, x) :: enumerate (S n) l.
Proof.
  unfold enumerate. simpl. rewrite Nat.add_0_r. f_equal.
  apply imap_ext. intros i y _. simpl. f_equal. lia.
Qed.

Lemma rows_of_enumerate rs : ∀ n,
  table_rows (map (λ '(i, r), Row i r) (enumerate n rs)) = rs
  ∧ failure_rows (map (λ '(i, r), Row i r) (enumerate n rs)) = [].
Proof.
  induction rs as [|r rs IH]; intros n; [done|].
  rewrite enumerate_cons. destruct (IH (S n)) as [IH1 IH2].
  simpl. by rewrite IH1, IH2.
Qed.

Lemma rows_of_table rs :
  table_rows (table_lines rs) = rs ∧ failure_rows (table_lines rs) = [].
Proof.
  unfold table_lines. destruct rs as [|r rs]; [done|].
  cbn [is_nil]. apply (rows_of_enumerate (r :: rs) 1).
Qed.

Lemma rows_of_failures rs :
  table_rows (failure_lines rs) = [] ∧ failure_rows (failure_lines rs) = rs.
Proof.
  unfold failure_lines. destruct rs as [|r rs]; [done|].
  cbn [is_nil]. generalize (r :: rs). intros l.
  simpl. induction l as [|x l [IH1 IH2]]; [done|]. simpl. by rewrite IH2.
Qed.

Lemma report_rows results :
  table_rows (report results false) = ranked results
  ∧ failure_rows (report results false) = failed_results results.
Proof.
  unfold report. destruct (decide (results = [])) as [->|Hne]; [done|].
  rewrite print_results_run by done.
  destruct (writes_recommend (ranked results)
    ([] ++ [RuleTop; Title; Rule] ++ table_lines (ranked results)
        ++ failure_lines (failed_results results))) as (extra&->&Hextra).
  destruct (rows_of_others extra Hextra) as [E1 E2].
  destruct (rows_of_table (ranked results)) as [T1 T2].
  destruct (rows_of_failures (failed_results results)) as [F1 F2].
  rewrite !table_rows_app, !failure_rows_app, E1, E2, T1, T2, F1, F2.
  simpl. by rewrite !app_nil_r.
Qed.

Lemma valid_results_finite results :
  valid_results results = filter (λ r, has_finite_average r) results.
Proof.
  unfold valid_results. induction results as [|r results IH]; [done|].
  rewrite !filter_cons, IH. unfold has_finite_average.
  destruct (avg_time r); reflexivity.
Qed.

(** C5. The rows of the table are the results with a finite average,
    each once, and only those; they are in ascending order of the average,
    and results with equal averages stay in the order in which they came.
    So averages 50, 10, 30 are listed as 10, 30, 50. *)
Theorem print_results_ranking (results : list stats) :
  table_rows (report results false)
    ≡ₚ filter (λ r, has_finite_average r) results
  ∧ Forall (λ r, ∃ a, avg_time r = Finite a)
      (table_rows (report results false))
  ∧ StronglySorted (λ a b, lat_le (avg_time a) (avg_time b))
      (table_rows (report results false))
  ∧ (∀ t, filter (λ r, lat_eqb (avg_time r) t = true)
            (table_rows (report results false))
          = filter (λ r, lat_eqb (avg_time r) t = true)
              (filter (λ r, has_finite_average r) results))
  ∧ avg_time <$> table_rows (report
      [result_of "a" (Finite 50) 24; result_of "b" (Finite 10) 24;
       result_of "c" (Finite 30) 24] false)
    = [Finite 10; Finite 30; Finite 50].
Proof.
  destruct (report_rows results) as [-> _]. unfold ranked.
  rewrite valid_results_finite.
  split; [apply py_sorted_Permutation|]. split.
  { rewrite py_sorted_Permutation. apply Forall_forall.
    intros r [Hfin _]%list_elem_of_filter. unfold has_finite_average in Hfin.
    destruct (avg_time r) as [a|]; [by exists a | done]. }
  split.
  - apply (py_sorted_sorted (λ x y, lat_ltb (avg_time x) (avg_time y))).
    + intros x y. apply lat_ltb_asym.
    + intros x y z Hxy Hyz. by apply (lat_le_trans _ (avg_time y)).
  - split; [|by vm_compute]. intros t.
    apply (py_sorted_stable (λ x y, lat_ltb (avg_time x) (avg_time y))).
    intros x y Hx Hy. by apply (lat_eqb_not_lt _ _ t).
Qed.

(** C10. With an empty list of results the reporter prints nothing, in
    either mode, and returns; with one result the JSON mode prints. *)
Theorem print_results_empty (json_output : bool) (out : list line) :
  print_results [] json_output out = (Ok (), out)
  ∧ report [] json_output = []
  ∧ report [result_of "a" Inf 0] true = [JsonDump [result_of "a" Inf 0]].
Proof. by destruct json_output. Qed.

(** ** The comparison with the current server *)

Lemma stats_eqb_refl r : rate_is_number r → stats_eqb r r = true.
Proof.
  intros Hr. unfold stats_eqb.
  by rewrite !String.eqb_refl, Hr, !Nat.eqb_refl, !lat_eqb_refl.
Qed.

Lemma stats_eqb_current r c : stats_eqb r c = true → is_current r = is_current c.
Proof.
  unfold stats_eqb, is_current. rewrite !andb_true_iff.
  intros [[[[[[[[Hn%String.eqb_eq _] _] _] _] _] _] _] _]. by rewrite Hn.
Qed.

Lemma first_current_spec rs : ∀ p c,
  first_current rs = Some (p, c) →
  rs !! p = Some c ∧ is_current c = true
  ∧ ∃ tl, filter (λ r, is_current r) rs = c :: tl.
Proof.
  induction rs as [|r rs IH]; intros p c; simpl; [done|].
  destruct (is_current r) eqn:Hr.
  - intros [= <- <-]. split; [done|]. split; [done|].
    rewrite filter_cons_True by (by rewrite Hr). eauto.
  - destruct (first_current rs) as [[p' c']|] eqn:Hf; simpl; [|done].
    intros [= <- <-]. destruct (IH p' c' eq_refl) as (Hl&Hc&tl&Htl).
    split; [done|]. split; [done|].
    rewrite filter_cons_False by (rewrite Hr; by intros []). eauto.
Qed.

Lemma first_current_none rs :
  first_current rs = None → filter (λ r, is_current r) rs = [].
Proof.
  induction rs as [|r rs IH]; simpl; [done|].
  destruct (is_current r) eqn:Hr; [done|].
  destruct (first_current rs) as [[p' c']|]; simpl; [done|]. intros _.
  rewrite filter_cons_False by (rewrite Hr; by intros []). auto.
Qed.

Lemma next_rank_first_current {T} rs : ∀ i p c (s : T),
  first_current rs = Some (p, c) →
  stats_eqb c c = true →
  next_rank i c rs s = (Ok (i + p)%nat, s).
Proof.
  induction rs as [|r rs IH]; intros i p c s; simpl; [done|].
  destruct (is_current r) eqn:Hr.
  - intros [= <- <-] ->. by rewrite Nat.add_0_r.
  - destruct (first_current rs) as [[p' c']|] eqn:Hf; simpl; [|done].
    intros [= <- <-] Hc.
    destruct (first_current_spec rs p' c' Hf) as (_&Hcur&_).
    destruct (stats_eqb r c') eqn:Heq.
    + apply stats_eqb_current in Heq. congruence.
    + rewrite (IH (S i) p' c' s eq_refl Hc). do 2 f_equal. lia.
Qed.

Lemma compare_with_current_run best rs out p cur :
  first_current rs = Some (p, cur) →
  rate_is_number cur →
  compare_with_current best rs out
  = if (1 <? length rs)%nat then
      match p with
      | O => (Ok (), out ++ [AlreadyFastest])
      | S _ =>
          match improvement_of (avg_time cur) (avg_time best) out with
          | (Ok v, _) =>
              (Ok (), out ++ [CurrentRank (S p); Switching (name best) v])
          | (Raise e, _) => (Raise e, out)
          end
      end
    else (Ok (), out).
Proof.
  intros Hf Hnum. unfold compare_with_current.
  destruct (first_current_spec rs p cur Hf) as (_&_&tl&->). cbn [is_nil negb].
  destruct (1 <? length rs)%nat; [|done]. cbn [andb index lookup list_lookup].
  unfold bind at 1. unfold ret at 1.
  unfold bind at 1.
  rewrite (next_rank_first_current rs 1 p cur out Hf (stats_eqb_refl _ Hnum)).
  destruct p as [|p]; [done|]. cbn [Nat.add Nat.ltb Nat.leb].
  unfold bind at 1, improvement_of.
  destruct (avg_time cur), (avg_time best); try done.
  destruct (Qeq_bool ms 0); [done|]. unfold ret, bind, print, modify. simpl.
  by rewrite <- app_assoc.
Qed.

Lemma comparison_app o1 o2 : comparison (o1 ++ o2) = comparison o1 ++ comparison o2.
Proof. apply filter_app. Qed.

Lemma comparison_none out :
  Forall (λ l, is_comparison l = false) out → comparison out = [].
Proof.
  induction 1 as [|l out Hl _ IH]; [done|].
  unfold comparison in *. rewrite filter_cons_False; [done|].
  rewrite Hl. by intros [].
Qed.

Lemma comparison_table rs : comparison (table_lines rs) = [].
Proof.
  apply comparison_none. unfold table_lines. destruct (is_nil rs); [done|].
  repeat (constructor; [done|]). apply Forall_forall.
  by intros l ([i r]&->&_)%list_elem_of_fmap.
Qed.

Lemma comparison_failures rs : comparison (failure_lines rs) = [].
Proof.
  apply comparison_none. unfold failure_lines. destruct (is_nil rs); [done|].
  constructor; [done|]. apply Forall_forall.
  by intros l (r&->&_)%list_elem_of_fmap.
Qed.

Lemma ranked_elem results r :
  r ∈ ranked results → r ∈ results ∧ is_inf (avg_time r) = false.
Proof.
  unfold ranked. rewrite py_sorted_Permutation. unfold valid_results.
  rewrite list_elem_of_filter. intros [Hr ?]. split; [done|].
  by destruct (is_inf (avg_time r)).
Qed.

(** The lines of the comparison when some valid result is a current
    server's. *)
Lemma report_comparison results best rest p cur :
  Forall rate_is_number results →
  ranked results = best :: rest →
  first_current (ranked results) = Some (p, cur) →
  ∃ c b, avg_time cur = Finite c ∧ avg_time best = Finite b
    ∧ comparison (report results false)
      = if (1 <? length (best :: rest))%nat then
          match p with
          | O => [AlreadyFastest]
          | S _ => if Qeq_bool c 0 then []
                   else [CurrentRank (S p);
                         Switching (name best) (((c - b) / c) * 100)%Q]
          end
        else [].
Proof.
  intros Hnum Hranked Hfirst.
  destruct (first_current_spec _ _ _ Hfirst) as (Hcur%list_elem_of_lookup_2&_&_).
  destruct (ranked_elem results cur Hcur) as [Hcur_in Hcur_fin].
  destruct (ranked_elem results best) as [_ Hbest_fin].
  { rewrite Hranked. left. }
  destruct (avg_time cur) as [c|] eqn:Hc; [|done].
  destruct (avg_time best) as [b|] eqn:Hb; [|done].
  exists c, b. split; [done|]. split; [done|].
  assert (results ≠ []) as Hne by (by intros ->).
  unfold report. rewrite print_results_run by done.
  rewrite Hranked in *. unfold recommend. cbn [is_nil negb index lookup list_lookup].
  unfold bind at 1. unfold ret at 1. unfold bind at 1 2 3, print, modify.
  cbn [fst snd].
  rewrite (compare_with_current_run best (best :: rest) _ p cur Hfirst)
    by (rewrite Forall_forall in Hnum; auto).
  rewrite Hc, Hb. unfold improvement_of.
  destruct (1 <? length (best :: rest))%nat;
    [destruct p as [|p]; [|destruct (Qeq_bool c 0)]|];
    unfold ret, raise; cbv beta iota; cbn [fst snd];
    rewrite ?app_nil_l, !comparison_app, comparison_table, comparison_failures;
    done.
Qed.

(** C9 (as the code has it). Let some valid result be a current
    server's, and take the first of them in the table. When it is not in
    the first row, and its average is not zero, the report gives its rank
    and the improvement [((c - b) / c) * 100] from its average [c] and the
    average [b] of the first row. When it is in the first row and the table
    has more rows, the report says that the current server is already the
    fastest; when it is the only row the report says neither. *)
Theorem print_results_improvement results best rest p cur :
  Forall rate_is_number results →
  ranked results = best :: rest →
  first_current (ranked results) = Some (p, cur) →
  ∃ c b, avg_time cur = Finite c ∧ avg_time best = Finite b
    ∧ (p ≠ 0%nat → Qeq_bool c 0 = false →
       comparison (report results false)
       = [CurrentRank (S p);
          Switching (name best) (((c - b) / c) * 100)%Q])
    ∧ (p = 0%nat → rest ≠ [] →
       comparison (report results false) = [AlreadyFastest])
    ∧ (p = 0%nat → rest = [] → comparison (report results false) = []).
Proof.
  intros Hnum Hranked Hfirst.
  destruct (report_comparison results best rest p cur Hnum Hranked Hfirst)
    as (c&b&Hc&Hb&Hcmp).
  exists c, b. split; [done|]. split; [done|]. rewrite Hcmp.
  destruct (first_current_spec _ _ _ Hfirst) as (Hp&_&_). rewrite Hranked in Hp.
  split; [|split].
  - intros Hp0 ->. destruct p as [|p]; [done|]. by destruct rest.
  - intros -> Hrest. by destruct rest.
  - by intros -> ->.
Qed.

(** The theorem on the example of the spec: 100 ms against 50 ms is an
    improvement of 50 percent. *)
Lemma print_results_improvement_witness :
  comparison (report slower_current false)
  = [CurrentRank 2; Switching "Cloudflare" (((100 - 50) / 100) * 100)%Q]
  ∧ (((100 - 50) / 100) * 100 == 50)%Q.
Proof.
  split; [|reflexivity].
  destruct (print_results_improvement slower_current
    (result_of "Cloudflare" (Finite 50) 24)
    [result_of "Current-192.168.1.1" (Finite 100) 24] 1
    (result_of "Current-192.168.1.1" (Finite 100) 24))
    as (c&b&Hc&Hb&Hsw&_); [by repeat constructor | by vm_compute.. |].
  injection Hc as <-. injection Hb as <-. by apply Hsw.
Defined.

(** C9 as the spec words it fails: a current server alone in the table
    ranks first, and the report does not say so. *)
Lemma print_results_improvement_counterexample :
  first_current (ranked lone_current)
  = Some (0%nat, result_of "Current-192.168.1.1" (Finite 20) 24)
  ∧ comparison (report lone_current false) = []
  ∧ report lone_current false
    = [RuleTop; Title; Rule; TableHeader; Dashes;
       Row 1 (result_of "Current-192.168.1.1" (Finite 20) 24);
       BestHeader;
       BestServer (result_of "Current-192.168.1.1" (Finite 20) 24);
       BestAverage (result_of "Current-192.168.1.1" (Finite 20) 24)].
Proof. by vm_compute. Qed.

(** The rates that [benchmark_server] computes are numbers. *)
Lemma code_rate_is_number k :
  (k ≤ 24)%nat → PrimFloat.eqb (code_rate k 24) (code_rate k 24) = true.
Proof.
  intros Hk. do 25 (destruct k as [|k]; [by vm_compute|]). lia.
Qed.

Lemma benchmark_server_rate_is_number h dig dns_server name r :
  completes_all h dns_server →
  benchmark_server h dig dns_server name = Ok r →
  rate_is_number r.
Proof.
  intros Hall Hr.
  destruct (benchmark_server_run h dig dns_server name Hall) as (a&_&Hlen&Hrun).
  rewrite Hrun in Hr. injection Hr as <-. unfold rate_is_number. simpl.
  apply code_rate_is_number. simpl in Hlen. lia.
Qed.



(** ** run_benchmark *)

Lemma check_command_run {S} h command (s : S) :
  check_command h command s = (Ok (has_tool h command), s).
Proof.
  unfold check_command, has_tool, catch, bind, subprocess_run.
  destruct (run h _) as [rc out| |]; simpl; try done.
  by destruct (rc =? 0).
Qed.

Lemma for_each_extend {X} (f : X → string * string) xs : ∀ o ss rs,
  for_each xs (λ x, extend_servers [f x])
    {| output := o; servers_to_test := ss; results := rs |}
  = (Ok (), {| output := o; servers_to_test := ss ++ (f <$> xs);
               results := rs |}).
Proof.
  induction xs as [|x xs IH]; intros o ss rs; simpl.
  - by rewrite app_nil_r.
  - unfold bind, extend_servers, modify. simpl. rewrite IH.
    by rewrite <- app_assoc.
Qed.

Lemma for_each_say {X} (f : X → line) (body : X → M run_state unit) xs :
  (∀ x st, body x st = say (f x) st) →
  ∀ o ss rs,
  for_each xs body {| output := o; servers_to_test := ss; results := rs |}
  = (Ok (), {| output := o ++ (f <$> xs); servers_to_test := ss;
               results := rs |}).
Proof.
  intros Hbody. induction xs as [|x xs IH]; intros o ss rs; simpl.
  - by rewrite app_nil_r.
  - unfold bind. rewrite Hbody. unfold say, modify. simpl. rewrite IH.
    by rewrite <- app_assoc.
Qed.

Lemma valid_address_spec s b :
  validate_ip_address s = Ok b → valid_address s = b.
Proof. unfold valid_address. intros ->. by destruct b. Qed.

Lemma customs_run customs : ∀ o ss rs,
  for_each customs (λ server,
    let* valid := lift (validate_ip_address server) in
    if valid then extend_servers [("Custom-" +:+ server, server)]
    else say (InvalidCustom server))
    {| output := o; servers_to_test := ss; results := rs |}
  = (Ok (),
     {| output :=
          o ++ (InvalidCustom <$> filter (λ s, negb (valid_address s)) customs);
        servers_to_test :=
          ss ++ (label_custom <$> filter (λ s, valid_address s) customs);
        results := rs |}).
Proof.
  induction customs as [|s customs IH]; intros o ss rs.
  - simpl. by rewrite !app_nil_r.
  - cbn [for_each]. unfold bind at 1 2, lift.
    destruct (validate_total s) as [b Hb]. rewrite Hb.
    rewrite !(filter_cons _ s), (valid_address_spec s b Hb).
    destruct b; unfold extend_servers, say, modify; simpl; rewrite IH;
      by rewrite <- app_assoc.
Qed.

Lemma prepare_servers_run o current_dns out ss rs :
  prepare_servers o current_dns
    {| output := out; servers_to_test := ss; results := rs |}
  = (Ok (),
     {| output :=
          out ++ (InvalidCustom <$>
                    filter (λ s, negb (valid_address s))
                      (default [] (custom_servers o)));
        servers_to_test := ss ++ expected_servers o current_dns;
        results := rs |}).
Proof.
  unfold prepare_servers, expected_servers.
  unfold bind at 1.
  assert ((if test_current o
           then for_each current_dns (λ server,
                  extend_servers [("Current-" +:+ server, server)])
           else ret ())
            {| output := out; servers_to_test := ss; results := rs |}
          = (Ok (), {| output := out;
               servers_to_test :=
                 ss ++ (if test_current o then label_current <$> current_dns
                        else []);
               results := rs |})) as ->.
  { destruct (test_current o); [apply (for_each_extend label_current)|].
    by rewrite app_nil_r. }
  unfold bind at 1.
  assert (∀ o' ss',
    (match custom_servers o with
     | Some customs =>
         if negb (is_nil customs) then
           for_each customs (λ server,
             let* valid := lift (validate_ip_address server) in
             if valid then extend_servers [("Custom-" +:+ server, server)]
             else say (InvalidCustom server))
         else ret ()
     | None => ret ()
     end) {| output := o'; servers_to_test := ss'; results := rs |}
    = (Ok (),
       {| output :=
            o' ++ (InvalidCustom <$>
                     filter (λ s, negb (valid_address s))
                       (default [] (custom_servers o)));
          servers_to_test :=
            ss' ++ (label_custom <$>
                      filter (λ s, valid_address s)
                        (default [] (custom_servers o)));
          results := rs |})) as ->.
  { intros o' ss'. destruct (custom_servers o) as [[|s customs]|]; simpl;
      rewrite ?app_nil_r; try done.
    apply (customs_run (s :: customs)). }
  destruct (test_public o); [destruct (top3_only o)|];
    unfold extend_servers, modify, ret; simpl;
    by rewrite <- ?app_assoc, ?app_nil_r.
Qed.

Lemma bench_loop_run h verbose dig items : ∀ o ss rs,
  ∃ extra rs',
    bench_loop h verbose dig items
      {| output := o; servers_to_test := ss; results := rs |}
    = (Ok (), {| output := o ++ extra; servers_to_test := ss;
                 results := rs ++ rs' |})
    ∧ Forall (λ l, is_warning l = false) extra.
Proof.
  induction items as [|[i [name server]] items IH]; intros o ss rs.
  - exists [], []. simpl. by rewrite !app_nil_r.
  - cbn [bench_loop]. unfold bind, catch, say, append_result, modify, lift,
      raise, ret.
    destruct verbose; simpl.
    + destruct (interrupted h i); simpl.
      * exists [Interrupted], []. rewrite app_nil_r. by repeat constructor.
      * destruct (benchmark_server h (Some dig) server (Some name)) as [r|e];
          simpl.
        -- destruct (IH o ss (rs ++ [r])) as (extra&rs'&->&Hex).
           exists extra, (r :: rs'). by rewrite <- app_assoc.
        -- destruct e; simpl;
             try (destruct (IH (o ++ [FailedToTest name]) ss rs)
                    as (extra&rs'&->&Hex);
                  exists (FailedToTest name :: extra), rs';
                  rewrite <- app_assoc; by repeat constructor).
           exists [Interrupted], []. rewrite app_nil_r. by repeat constructor.
    + destruct (interrupted h i); simpl.
      * exists [Dot; Interrupted], []. rewrite app_nil_r, <- app_assoc.
        by repeat constructor.
      * destruct (benchmark_server h (Some dig) server (Some name)) as [r|e];
          simpl.
        -- destruct (IH (o ++ [Dot]) ss (rs ++ [r])) as (extra&rs'&->&Hex).
           exists (Dot :: extra), (r :: rs'). rewrite <- !app_assoc.
           by repeat constructor.
        -- destruct e; simpl;
             try (destruct (IH (o ++ [Dot]) ss rs) as (extra&rs'&->&Hex);
                  exists (Dot :: extra), rs';
                  rewrite <- app_assoc; by repeat constructor).
           exists [Dot; Interrupted], []. rewrite app_nil_r, <- app_assoc.
           by repeat constructor.
Qed.

Lemma warned_app o1 o2 : warned (o1 ++ o2) = warned o1 ++ warned o2.
Proof.
  induction o1 as [|l o1 IH]; simpl; [done|]. destruct l; by rewrite ?IH.
Qed.

Lemma warned_none out :
  Forall (λ l, is_warning l = false) out → warned out = [].
Proof. induction 1 as [|l out Hl _ IH]; [done|]. by destruct l. Qed.

Lemma warned_warnings l : warned (InvalidCustom <$> l) = l.
Proof. induction l as [|s l IH]; simpl; [done | by f_equal]. Qed.

Lemma warned_current_lines (l : list (nat * string)) :
  warned ((λ '(i, server), CurrentServer i server) <$> l) = [].
Proof. induction l as [|[i s] l IH]; simpl; [done | exact IH]. Qed.

Lemma bind_run {S A B} (m : M S A) (f : A → M S B) s a s' :
  m s = (Ok a, s') → bind m f s = f a s'.
Proof. unfold bind. by intros ->. Qed.

(** A run on a machine with a lookup tool. *)
Lemma run_benchmark_with_tool h verbose o :
  has_tool h "dig" || has_tool h "nslookup" = true →
  ∃ current res st,
    get_current_dns_servers h = Ok current
    ∧ run_benchmark h verbose o run_start = (Ok res, st)
    ∧ servers_to_test st
      = expected_servers o (if test_current o then current else [])
    ∧ warned (output st)
      = filter (λ s, negb (valid_address s)) (default [] (custom_servers o))
    ∧ head (output st) = Some Banner.
Proof.
  intros Htool.
  pose proof (get_current_dns_servers_candidates h) as Hcur.
  eexists. unfold run_benchmark.
  rewrite (bind_run _ _ _ _ _ (check_command_run h "dig" run_start)).
  rewrite (bind_run _ _ _ _ _ (check_command_run h "nslookup" run_start)).
  apply orb_true_iff in Htool.
  assert (negb (has_tool h "dig") && negb (has_tool h "nslookup") = false)
    as -> by (destruct Htool as [-> | ->]; by rewrite ?andb_false_r).
  unfold run_start.
  set (cur := keep_first (filter (λ s, accepted s) (candidates h))) in *.
  set (cd := if test_current o then cur else []).
  rewrite (bind_run _ _ _ () {| output := [Banner]; servers_to_test := [];
                                results := [] |}) by done.
  rewrite (bind_run _ _ _ ()
    {| output := Banner :: (if verbose then [] else [VerboseHint]);
       servers_to_test := []; results := [] |}) by (by destruct verbose).
  rewrite (bind_run _ _ _ cd
    {| output := Banner :: (if verbose then [] else [VerboseHint]);
       servers_to_test := []; results := [] |});
    [|unfold cd, lift; rewrite Hcur; by destruct (test_current o)].
  set (o1 := Banner :: (if verbose then [] else [VerboseHint])).
  assert (∃ lines, warned lines = [] ∧
    (if negb (is_nil cd)
     then say CurrentDetected >>>
          for_each (enumerate 1 cd) (λ '(i, server0), say (CurrentServer i server0))
     else if test_current o then say NoCurrentWarning >>> say NoCurrentNote
          else ret ())
      {| output := o1; servers_to_test := []; results := [] |}
    = (Ok (), {| output := o1 ++ lines; servers_to_test := [];
                 results := [] |})) as (lines&Hlines&Hstep).
  { destruct cd as [|s0 cd'] eqn:Ecd; cbn [is_nil negb].
    - destruct (test_current o).
      + exists [NoCurrentWarning; NoCurrentNote]. split; [done|].
        unfold bind, say, modify. simpl. by rewrite <- app_assoc.
      + exists []. by rewrite app_nil_r.
    - exists (CurrentDetected ::
        ((λ '(i, server0), CurrentServer i server0) <$> enumerate 1 (s0 :: cd'))).
      split; [simpl; apply warned_current_lines|].
      unfold bind at 1. unfold say at 1, modify. cbn [fst snd output servers_to_test results].
      rewrite (for_each_say (λ '(i, server0), CurrentServer i server0))
        by (by intros [i x] ?).
      by rewrite <- app_assoc. }
  rewrite (bind_run _ _ _ _ _ Hstep).
  rewrite (bind_run _ _ _ _ _ (prepare_servers_run o cd _ _ _)).
  rewrite app_nil_l. unfold bind at 1, gets. cbn [fst snd servers_to_test].
  set (warnings := InvalidCustom <$> _).
  assert (warned ((o1 ++ lines) ++ warnings)
          = filter (λ s, negb (valid_address s)) (default [] (custom_servers o)))
    as Hwarned.
  { rewrite !warned_app, Hlines. unfold warnings. rewrite warned_warnings.
    unfold o1. by destruct verbose. }
  destruct (expected_servers o cd) as [|sv svs] eqn:Eexp; cbn [is_nil].
  - eexists _, _. split; [done|]. split; [done|].
    cbn [servers_to_test output]. split; [done|].
    rewrite warned_app, Hwarned. simpl. by rewrite app_nil_r.
  - rewrite (bind_run _ _ _ () {| output := ((o1 ++ lines) ++ warnings)
        ++ [Testing (length (sv :: svs)) (length test_domains)];
        servers_to_test := sv :: svs; results := [] |}) by done.
    rewrite (bind_run _ _ _ () {| output := (((o1 ++ lines) ++ warnings)
        ++ [Testing (length (sv :: svs)) (length test_domains)])
        ++ (if verbose then [] else [ProgressStart]);
        servers_to_test := sv :: svs; results := [] |});
      [|destruct verbose; simpl; by rewrite ?app_nil_r].
    destruct (bench_loop_run h verbose (has_tool h "dig")
      (enumerate 0 (sv :: svs)) ((((o1 ++ lines) ++ warnings)
        ++ [Testing (length (sv :: svs)) (length test_domains)])
        ++ (if verbose then [] else [ProgressStart])) (sv :: svs) [])
      as (extra&rs'&Hloop&Hextra).
    rewrite (bind_run _ _ _ _ _ Hloop).
    rewrite (bind_run _ _ _ () {| output := (((((o1 ++ lines) ++ warnings)
        ++ [Testing (length (sv :: svs)) (length test_domains)])
        ++ (if verbose then [] else [ProgressStart])) ++ extra)
        ++ (if verbose then [] else [Done]);
        servers_to_test := sv :: svs; results := [] ++ rs' |});
      [|destruct verbose; simpl; by rewrite ?app_nil_r].
    eexists _, _. split; [done|]. split; [done|].
    cbn [servers_to_test output]. split; [done|]. split; [|done].
    do 4 rewrite warned_app. rewrite Hwarned, (warned_none extra Hextra).
    destruct verbose; simpl; by rewrite ?app_nil_r.
Qed.

(** C6. On a machine with a lookup tool the run never raises, and the
    server list it builds is: the discovered current servers, labelled
    [Current-], when [test_current]; then the custom servers that pass the
    validator, labelled [Custom-], in the order given; then, when
    [test_public], the three top servers if [top3_only] and the ten public
    servers otherwise. The custom addresses that fail the validator are
    the ones warned about, and nothing else comes of them. *)
Theorem run_benchmark_servers h verbose o :
  has_tool h "dig" || has_tool h "nslookup" = true →
  ∃ current res st,
    get_current_dns_servers h = Ok current
    ∧ run_benchmark h verbose o run_start = (Ok res, st)
    ∧ servers_to_test st
      = (if test_current o then label_current <$> current else [])
        ++ (label_custom <$>
              filter (λ s, valid_address s) (default [] (custom_servers o)))
        ++ (if test_public o then
              if top3_only o then top3_dns_servers else public_dns_servers
            else [])
    ∧ warned (output st)
      = filter (λ s, negb (valid_address s)) (default [] (custom_servers o))
    ∧ length top3_dns_servers = 3%nat
    ∧ length public_dns_servers = 10%nat.
Proof.
  intros Htool.
  destruct (run_benchmark_with_tool h verbose o Htool)
    as (current&res&st&Hcur&Hrun&Hservers&Hwarned&_).
  exists current, res, st. split; [done|]. split; [done|].
  split; [|by split]. rewrite Hservers. unfold expected_servers.
  by destruct (test_current o).
Qed.

(** The theorem on a machine with [nslookup] and one configured
    resolver, for a quick run with an invalid and a valid custom server. *)
Lemma run_benchmark_servers_witness :
  ∃ res st,
    run_benchmark office false quick_with_customs run_start = (Ok res, st)
    ∧ servers_to_test st
      = [("Current-10.0.0.1", "10.0.0.1"); ("Custom-8.8.4.4", "8.8.4.4");
         ("Cloudflare", "1.1.1.1"); ("Google", "8.8.8.8");
         ("Quad9", "9.9.9.9")]
    ∧ warned (output st) = ["300.1.1.1"].
Proof.
  destruct (run_benchmark_servers office false quick_with_customs)
    as (current&res&st&Hcur&Hrun&Hservers&Hwarned&_); [by vm_compute|].
  exists res, st. split; [done|].
  vm_compute in Hcur. injection Hcur as <-.
  rewrite Hservers, Hwarned. by vm_compute.
Defined.

(** C8 (as the code has it). On a machine with neither [dig] nor
    [nslookup] the run prints the two lines of the error, benchmarks
    nothing and returns the empty list. What it prints tells this outcome
    from every run on a machine with a tool, which starts with the banner;
    so from the run with no server to test, which returns the empty list
    as well. *)
Theorem run_benchmark_no_tool :
  (∀ h verbose o,
     has_tool h "dig" = false → has_tool h "nslookup" = false →
     run_benchmark h verbose o run_start
     = (Ok [], {| output := [NoLookupTool; InstallHint];
                  servers_to_test := []; results := [] |}))
  ∧ (∀ h verbose o,
       has_tool h "dig" || has_tool h "nslookup" = true →
       ∃ res st, run_benchmark h verbose o run_start = (Ok res, st)
         ∧ head (output st) = Some Banner)
  ∧ run_benchmark (bare ["dig"]) false no_servers run_start
    = (Ok [], {| output := [Banner; VerboseHint; NoServers];
                 servers_to_test := []; results := [] |}).
Proof.
  split; [|split].
  - intros h verbose o Hdig Hns. unfold run_benchmark.
    rewrite (bind_run _ _ _ _ _ (check_command_run h "dig" run_start)).
    rewrite (bind_run _ _ _ _ _ (check_command_run h "nslookup" run_start)).
    by rewrite Hdig, Hns.
  - intros h verbose o Htool.
    destruct (run_benchmark_with_tool h verbose o Htool)
      as (current&res&st&_&Hrun&_&_&Hhead).
    by exists res, st.
  - by vm_compute.
Qed.

(** The theorem on a machine with no tool at all. *)
Lemma run_benchmark_no_tool_witness :
  run_benchmark (bare []) true quick_with_customs run_start
  = (Ok [], {| output := [NoLookupTool; InstallHint];
               servers_to_test := []; results := [] |}).
Proof. by apply (proj1 run_benchmark_no_tool). Defined.

(** C8 as the spec words it fails: the run without a tool is no error
    of its own kind. It returns the empty list, as the run on a machine
    with [dig] and no server to test does, and [main] returns normally
    after both. *)
Lemma run_benchmark_no_tool_counterexample :
  fst (run_benchmark (bare []) false no_servers run_start) = Ok []
  ∧ fst (run_benchmark (bare ["dig"]) false no_servers run_start) = Ok []
  ∧ fst (main (bare []) (both_only_args false false)) = Ok tt
  ∧ fst (main (bare ["dig"]) (both_only_args false false)) = Ok tt.
Proof. by vm_compute. Qed.

(** ** The languages of repetitions *)

Lemma sconcat_app l1 l2 : sconcat (l1 ++ l2) = sconcat l1 +:+ sconcat l2.
Proof.
  unfold sconcat. induction l1 as [|p l1 IH]; simpl; [done|].
  by rewrite IH, sapp_assoc.
Qed.

Lemma lang_times r n : ∀ s,
  lang (times n r) s ↔
  ∃ parts, length parts = n ∧ Forall (lang r) parts ∧ s = sconcat parts.
Proof.
  induction n as [|n IH]; intros s; simpl.
  - split.
    + intros ->. by exists [].
    + intros (parts&Hl&_&->). by destruct parts.
  - split.
    + intros (s1&s2&->&H1&(parts&Hl&Hp&->)%IH).
      exists (s1 :: parts). simpl. rewrite Hl. auto.
    + intros (parts&Hl&Hp&->). destruct parts as [|p parts]; [done|].
      apply Forall_cons in Hp as [Hp Hps]. exists p, (sconcat parts).
      split; [done|]. split; [done|]. apply IH. exists parts.
      simpl in Hl. auto with lia.
Qed.

Lemma lang_upto r n : ∀ s,
  lang (upto n r) s ↔
  ∃ parts, (length parts ≤ n)%nat ∧ Forall (lang r) parts ∧ s = sconcat parts.
Proof.
  induction n as [|n IH]; intros s; simpl.
  - split.
    + intros ->. by exists [].
    + intros (parts&Hl&_&->). destruct parts; [done | simpl in Hl; lia].
  - split.
    + intros [(s1&s2&->&H1&(parts&Hl&Hp&->)%IH) | ->].
      * exists (s1 :: parts). simpl. split; [lia|]. auto.
      * exists []. simpl. split; [lia|]. auto.
    + intros (parts&Hl&Hp&->). destruct parts as [|p parts]; [by right|].
      left. apply Forall_cons in Hp as [Hp Hps]. exists p, (sconcat parts).
      split; [done|]. split; [done|]. apply IH. exists parts.
      simpl in Hl. auto with lia.
Qed.

Lemma lang_range r m n s :
  (m ≤ n)%nat →
  lang (range m n r) s ↔
  ∃ parts, (m ≤ length parts ≤ n)%nat ∧ Forall (lang r) parts
    ∧ s = sconcat parts.
Proof.
  intros Hmn. unfold range. simpl. split.
  - intros (s1&s2&->&(p1&Hl1&Hp1&->)%lang_times&(p2&Hl2&Hp2&->)%lang_upto).
    exists (p1 ++ p2). rewrite length_app, sconcat_app, Forall_app.
    split; [lia|]. auto.
  - intros (parts&Hl&Hp&->).
    rewrite <- (take_drop m parts), sconcat_app.
    rewrite <- (take_drop m parts) in Hp. apply Forall_app in Hp as [Hp1 Hp2].
    exists (sconcat (take m parts)), (sconcat (drop m parts)).
    split; [done|]. split.
    + apply lang_times. exists (take m parts). rewrite length_take. auto with lia.
    + apply lang_upto. exists (drop m parts). rewrite length_drop. auto with lia.
Qed.

Lemma is_hex_group_lang g :
  is_hex_group g = true ↔ lang (range 0 4 (Cls is_hex)) g.
Proof.
  rewrite lang_range_cls by lia. unfold is_hex_group.
  rewrite andb_true_iff, Nat.leb_le. intuition lia.
Qed.

Lemma join_with_snoc gs last :
  join_with ":" (gs ++ [last])
  = sconcat ((λ g, g +:+ ":") <$> gs) +:+ last.
Proof.
  induction gs as [|g gs IH]; [done|].
  change ((g :: gs) ++ [last]) with (g :: (gs ++ [last])).
  cbn [join_with]. destruct (gs ++ [last]) as [|x l] eqn:E.
  { by destruct gs. }
  rewrite IH. unfold sconcat. simpl. by rewrite !sapp_assoc.
Qed.

Lemma lang_ipv6_pattern s :
  lang ipv6_pattern s ↔
  ∃ groups, s = join_with ":" groups ∧ (3 ≤ length groups ≤ 8)%nat
    ∧ Forall (λ g, is_hex_group g = true) groups.
Proof.
  unfold ipv6_pattern. split.
  - intros (s1&last&->&(parts&Hl&Hp&->)%lang_range&Hlast%is_hex_group_lang);
      [|lia].
    assert (∃ gs, parts = (λ g, g +:+ ":") <$> gs
                  ∧ Forall (λ g, is_hex_group g = true) gs) as (gs&->&Hgs).
    { clear Hl. induction Hp as [|p parts Hp _ (gs&->&Hgs)]; [by exists []|].
      destruct Hp as (g&c&->&Hg%is_hex_group_lang&(c'&->&->%is_char_eq)).
      exists (g :: gs). split; [done | by constructor]. }
    exists (gs ++ [last]). rewrite join_with_snoc. split; [done|].
    rewrite length_app, length_fmap in *. simpl. split; [lia|].
    apply Forall_app. auto.
  - intros (groups&->&Hl&Hg).
    destruct (exists_last (l:=groups)) as (gs&last&->).
    { intros ->. simpl in Hl. lia. }
    apply Forall_app in Hg as [Hgs Hlast].
    apply Forall_cons in Hlast as [Hlast _].
    rewrite length_app in Hl. simpl in Hl. rewrite join_with_snoc.
    exists (sconcat ((λ g, g +:+ ":") <$> gs)), last. split; [done|].
    split; [|apply is_hex_group_lang, Hlast].
    apply lang_range; [lia|]. exists ((λ g, g +:+ ":") <$> gs).
    rewrite length_fmap. split; [lia|]. split; [|done].
    apply Forall_fmap. eapply Forall_impl; [done|]. intros g Hg. simpl.
    exists g, ":". split; [done|]. split; [by apply is_hex_group_lang|].
    by exists ":"%char.
Qed.

(** ** Exactly what the validator accepts *)

Lemma ipv4_not_ipv6 s :
  re_match ipv4_pattern s = true → re_match ipv6_pattern s = false.
Proof.
  intros (g1&g2&g3&g4&rest&->&Hg&Hrest)%re_match_ipv4_inv.
  destruct (re_match ipv6_pattern _) eqn:H6; [|done].
  apply ipv6_lacks_dot, split_on_lacks in H6.
  rewrite split_on_dotted in H6; [done | done | by destruct Hrest as [-> | ->]].
Qed.

Lemma validate_ipv4_shaped s :
  re_match ipv4_pattern s = true →
  validate_ip_address s = Ok true → ipv4_shaped s.
Proof.
  intros (g1&g2&g3&g4&rest&->&Hg&Hrest)%re_match_ipv4_inv Hvalid.
  rewrite validate_dotted in Hvalid by done.
  assert (forallb (λ g, octet_value g <=? 255) [g1; g2; g3; g4] = true)
    as Hall by congruence.
  exists g1, g2, g3, g4, rest. split; [done|]. split; [|done].
  rewrite forallb_forall in Hall. rewrite Forall_forall in Hg |- *.
  intros g Hin. split; [by apply Hg|].
  by apply Z.leb_le, Hall, list_elem_of_In.
Qed.

(** X1. The validator accepts a string exactly when it is a dotted quad
    of groups of one to three digits with values up to 255, or three to
    eight groups of at most four hexadecimal digits joined by colons; in
    both cases one newline may follow. *)
Theorem validate_ip_address_accepts (s : string) :
  validate_ip_address s = Ok true ↔ ipv4_shaped s ∨ ipv6_shaped s.
Proof.
  split.
  - intros Hvalid. destruct (re_match ipv4_pattern s) eqn:H4.
    + left. by apply validate_ipv4_shaped.
    + right. rewrite validate_not_ipv4 in Hvalid by done.
      injection Hvalid as H6.
      apply re_match_spec in H6 as (s1&rest&->&Hs1&Hrest).
      apply lang_ipv6_pattern in Hs1 as (groups&->&Hl&Hg).
      by exists groups, rest.
  - intros [(g1&g2&g3&g4&rest&->&Hg&Hrest) | (groups&rest&->&Hl&Hg&Hrest)].
    + rewrite validate_dotted;
        [|eapply Forall_impl; [done | naive_solver] | done].
      f_equal. apply forallb_forall. intros g Hin%list_elem_of_In.
      rewrite Forall_forall in Hg. by apply Z.leb_le, Hg.
    + assert (re_match ipv6_pattern (join_with ":" groups +:+ rest) = true)
        as H6.
      { apply re_match_spec. exists (join_with ":" groups), rest.
        split; [done|]. split; [|done]. apply lang_ipv6_pattern. eauto. }
      destruct (re_match ipv4_pattern (join_with ":" groups +:+ rest)) eqn:H4.
      * apply ipv4_not_ipv6 in H4. congruence.
      * rewrite validate_not_ipv4 by done. by rewrite H6.
Qed.

(** ** Successful probes *)

Lemma query_dns_lookup {S} h dig domain dns_server (s : S) :
  ∃ success elapsed,
    query_dns h dig domain dns_server s = (Ok (success, elapsed), s)
    ∧ truthy success = lookup_succeeds h dig dns_server domain
    ∧ elapsed = match dig with
                | Some d =>
                    if lookup_succeeds h dig dns_server domain
                    then Finite (elapsed_ms h (lookup_argv d domain dns_server))
                    else Inf
                | None => Inf
                end.
Proof.
  unfold query_dns, lookup_succeeds, elapsed_ms, catch, bind, attribute,
    subprocess_run.
  destruct dig as [dig|]; simpl; [|by eexists _, _].
  change (if dig then dig_argv domain dns_server
          else nslookup_argv domain dns_server)
    with (lookup_argv dig domain dns_server).
  destruct (clock h _) as [start_time end_time].
  destruct (run h _) as [rc out| |]; simpl; try by eexists _, _.
  destruct (rc =? 0); simpl; [|by eexists _, _].
  destruct dig; simpl.
  - eexists _, _. split; [done|]. simpl.
    destruct (Py.is_empty (Py.strip out)); simpl; by rewrite ?andb_true_r.
  - destruct (Py.contains "NXDOMAIN" out); simpl;
      [eexists _, _; split; [done|]; simpl; by rewrite ?andb_false_r|].
    destruct (Py.contains "can't find" out); simpl;
      [eexists _, _; split; [done|]; simpl; by rewrite ?andb_false_r|].
    eexists _, _. split; [done|]. simpl.
    destruct (Py.is_empty (Py.strip out)); simpl; by rewrite ?andb_true_r.
Qed.

(** X2. When the lookup tool exits with status 0 and prints something
    other than white space, and the output of [nslookup] names no failure,
    the probe succeeds: it returns a true value, [True] with [dig] and the
    stripped output with [nslookup], and the time between the two clock
    readings in milliseconds. *)
Theorem query_dns_success {S} h dig domain dns_server out (s : S) :
  run h (lookup_argv dig domain dns_server) = Completed 0 out →
  Py.is_empty (Py.strip out) = false →
  (dig = false →
   Py.contains "NXDOMAIN" out = false ∧ Py.contains "can't find" out = false) →
  query_dns h (Some dig) domain dns_server s
  = (Ok (if dig then PBool true else PStr (Py.strip out),
         Finite (elapsed_ms h (lookup_argv dig domain dns_server))), s)
  ∧ truthy (if dig then PBool true else PStr (Py.strip out)) = true.
Proof.
  intros Hrun Hout Hns.
  unfold query_dns, elapsed_ms, catch, bind, attribute, subprocess_run. simpl.
  change (if dig then dig_argv domain dns_server
          else nslookup_argv domain dns_server)
    with (lookup_argv dig domain dns_server).
  destruct (clock h _) as [start_time end_time]. rewrite Hrun. simpl.
  destruct dig; simpl; rewrite ?Hout; [done|].
  destruct Hns as [-> ->]; [done|]. simpl. by rewrite Hout.
Qed.

(** The theorem on a machine where [dig] answers within 20 ms. *)
Lemma query_dns_success_witness :
  query_dns (lab (λ _ _, true) (λ _, 20)) (Some true) "github.com" "9.9.9.9" ()
  = (Ok (PBool true,
         Finite (elapsed_ms (lab (λ _ _, true) (λ _, 20))
                   (lookup_argv true "github.com" "9.9.9.9"))), ())
  ∧ Qeq (elapsed_ms (lab (λ _ _, true) (λ _, 20))
           (lookup_argv true "github.com" "9.9.9.9")) (20 # 1).
Proof.
  split; [|by vm_compute].
  by apply (query_dns_success (lab (λ _ _, true) (λ _, 20)) true
              "github.com" "9.9.9.9" "192.0.2.1" ()).
Defined.

(** ** What a benchmark counts *)

Lemma collect_unfold h dig dns_server :
  collect h dig dns_server
  = for_each (completion h dns_server) (collect_body h dig dns_server).
Proof. reflexivity. Qed.

Lemma count_by_index {A} (f : bool → bool) (P : A → bool) (l : list A) :
  ∀ pre,
  length (filter (λ j, f (default false (P <$> (pre ++ l) !! j)))
            (seq (length pre) (length l)))
  = length (filter (λ x, f (P x)) l).
Proof.
  induction l as [|x l IH]; intros pre; [done|].
  simpl. rewrite !filter_cons.
  rewrite (list_lookup_middle pre l x (length pre) eq_refl). simpl.
  specialize (IH (pre ++ [x])). rewrite length_app, <- app_assoc in IH.
  simpl in IH. rewrite Nat.add_1_r in IH.
  destruct (f (P x)); simpl; by rewrite IH.
Qed.

Lemma count_succeeds h dig dns_server (f : bool → bool) :
  length (filter (λ j, f (succeeds_at h dig dns_server j))
            (seq 0 (length test_domains)))
  = length (filter (λ d, f (lookup_succeeds h dig dns_server d))
              test_domains).
Proof.
  exact (count_by_index f (lookup_succeeds h dig dns_server) test_domains []).
Qed.

Lemma collect_body_run h dig dns_server j (a : tally) :
  (j < length test_domains)%nat →
  ∃ t,
    collect_body h dig dns_server j a
    = (Ok (), if succeeds_at h dig dns_server j
              then add_success (Finite t) a else add_failure a).
Proof.
  intros Hj. destruct (lookup_lt_is_Some_2 test_domains j Hj) as [domain Hd].
  destruct (query_dns_lookup h dig domain dns_server a)
    as (success&elapsed&Hq&Hs&He).
  unfold collect_body, succeeds_at, bind, index, try_except.
  rewrite Hd. simpl. rewrite Hq, Hs, He.
  destruct dig as [d|].
  - destruct (lookup_succeeds h (Some d) dns_server domain); simpl; eauto.
    by exists 0%Q.
  - unfold lookup_succeeds. simpl. by exists 0%Q.
Qed.

Lemma collect_count h dig dns_server js : ∀ a,
  Forall (λ j, (j < length test_domains)%nat) js →
  ∃ a',
    for_each js (collect_body h dig dns_server) a = (Ok (), a')
    ∧ length (successful a')
      = (length (successful a)
         + length (filter (λ j, succeeds_at h dig dns_server j) js))%nat
    ∧ failed a'
      = (failed a
         + length (filter (λ j, negb (succeeds_at h dig dns_server j)) js))%nat.
Proof.
  induction js as [|j js IH]; intros a Hjs.
  - exists a. simpl. split; [done|]. split; lia.
  - apply Forall_cons in Hjs as [Hj Hjs].
    destruct (collect_body_run h dig dns_server j a Hj) as [t Hstep].
    cbn [for_each]. unfold bind at 1. rewrite Hstep, !filter_cons.
    destruct (succeeds_at h dig dns_server j) eqn:Hok; simpl.
    + destruct (IH (add_success (Finite t) a) Hjs) as (a'&Hrun&Hs&Hf).
      exists a'. split; [done|]. rewrite Hs, Hf. simpl.
      rewrite length_app. simpl. split; lia.
    + destruct (IH (add_failure a) Hjs) as (a'&Hrun&Hs&Hf).
      exists a'. split; [done|]. rewrite Hs, Hf. simpl. split; lia.
Qed.

(** X3. Whatever the order in which the probes complete, the benchmark
    of a server counts as successful exactly the test domains whose lookup
    succeeds, and as failed the others. *)
Theorem benchmark_server_tally h dig dns_server name :
  completes_all h dns_server →
  ∃ r,
    benchmark_server h dig dns_server name = Ok r
    ∧ successful_queries r
      = length (filter (λ d, lookup_succeeds h dig dns_server d) test_domains)
    ∧ failed_queries r
      = length (filter (λ d, negb (lookup_succeeds h dig dns_server d))
                  test_domains).
Proof.
  intros Hall. unfold completes_all in Hall.
  destruct (collect_count h dig dns_server (completion h dns_server) tally_start)
    as (a&Hrun&Hs&Hf).
  { rewrite Hall. apply Forall_forall. intros j Hj%elem_of_seq. lia. }
  assert (length (successful a)
          = length (filter (λ d, lookup_succeeds h dig dns_server d)
                      test_domains)) as Hs'.
  { rewrite Hs, Hall. unfold tally_start at 1. cbn [successful length Nat.add].
    apply (count_succeeds h dig dns_server (λ b, b)). }
  assert (failed a
          = length (filter (λ d, negb (lookup_succeeds h dig dns_server d))
                      test_domains)) as Hf'.
  { rewrite Hf, Hall. unfold tally_start at 1. cbn [failed Nat.add].
    apply (count_succeeds h dig dns_server negb). }
  clear Hs Hf. revert Hs' Hf'.
  generalize (length (filter (λ d, lookup_succeeds h dig dns_server d)
                        test_domains)).
  generalize (length (filter (λ d, negb (lookup_succeeds h dig dns_server d))
                        test_domains)).
  intros nf ns Hs Hf.
  unfold benchmark_server. rewrite collect_unfold. unfold bind at 1.
  rewrite Hrun. unfold summarize, bind, gets, truediv.
  cbn [fst snd successful failed].
  change (length test_domains =? 0)%nat with false. cbv iota.
  destruct (negb (bool_decide (successful a = []))); unfold ret;
    cbn [fst snd]; eexists; (split; [done|]);
    by cbn [successful_queries failed_queries].
Qed.

(** The theorem on a machine where only one domain resolves, with the
    futures completing in reverse order. *)
Lemma benchmark_server_tally_witness :
  ∃ r,
    benchmark_server
      (lab (λ _ domain, String.eqb domain "github.com") (λ _, 20))
      (Some true) "9.9.9.9" None = Ok r
    ∧ successful_queries r = 1%nat ∧ failed_queries r = 23%nat.
Proof.
  destruct (benchmark_server_tally
    (lab (λ _ domain, String.eqb domain "github.com") (λ _, 20))
    (Some true) "9.9.9.9" None (lab_completes_all _ _ _)) as (r&Hr&Hs&Hf).
  exists r. split; [done|]. rewrite Hs, Hf. by vm_compute.
Defined.

(** Linear arithmetic over the rationals, for the bounds below. *)
From Stdlib Require Import Lqa.

(** ** The statistics of the samples *)

Lemma lat_le_refl a : lat_le a a.
Proof. unfold lat_le. destruct a; simpl; [|done]. apply Qltb_false, Qle_refl. Qed.

Lemma lat_le_total a b : lat_le a b ∨ lat_le b a.
Proof.
  unfold lat_le. destruct (lat_ltb b a) eqn:E; [right | by left].
  by apply lat_ltb_asym.
Qed.

Lemma lat_le_finite x y : lat_le (Finite x) (Finite y) ↔ (x <= y)%Q.
Proof. unfold lat_le. simpl. apply Qltb_false. Qed.

Lemma fold_min xs : ∀ m,
  let r := foldl (λ m y, if lat_ltb y m then y else m) m xs in
  lat_le r m ∧ Forall (lat_le r) xs ∧ (r = m ∨ r ∈ xs).
Proof.
  induction xs as [|x xs IH]; intros m; simpl.
  - split; [apply lat_le_refl|]. split; [constructor | by left].
  - destruct (lat_ltb x m) eqn:E.
    + destruct (IH x) as (H1&H2&H3). split; [|split].
      * eapply lat_le_trans; [exact H1|]. by apply lat_ltb_asym.
      * by constructor.
      * right. destruct H3 as [-> | ?]; [left | by right].
    + destruct (IH m) as (H1&H2&H3). split; [done|]. split.
      * constructor; [|done]. by eapply lat_le_trans.
      * destruct H3 as [-> | ?]; [by left | right; by right].
Qed.

Lemma fold_max xs : ∀ m,
  let r := foldl (λ m y, if lat_ltb m y then y else m) m xs in
  lat_le m r ∧ Forall (λ x, lat_le x r) xs ∧ (r = m ∨ r ∈ xs).
Proof.
  induction xs as [|x xs IH]; intros m; simpl.
  - split; [apply lat_le_refl|]. split; [constructor | by left].
  - destruct (lat_ltb m x) eqn:E.
    + destruct (IH x) as (H1&H2&H3). split; [|split].
      * eapply lat_le_trans; [|exact H1]. by apply lat_ltb_asym.
      * by constructor.
      * right. destruct H3 as [-> | ?]; [left | by right].
    + destruct (IH m) as (H1&H2&H3). split; [done|]. split.
      * constructor; [|done]. by eapply lat_le_trans.
      * destruct H3 as [-> | ?]; [by left | right; by right].
Qed.

Lemma minimum_spec xs :
  xs ≠ [] → minimum xs ∈ xs ∧ Forall (lat_le (minimum xs)) xs.
Proof.
  destruct xs as [|x xs]; [done|]. intros _. unfold minimum.
  destruct (fold_min xs x) as (H1&H2&H3). split.
  - destruct H3 as [-> | ?]; [left | by right].
  - by constructor.
Qed.

Lemma maximum_spec xs :
  xs ≠ [] → maximum xs ∈ xs ∧ Forall (λ x, lat_le x (maximum xs)) xs.
Proof.
  destruct xs as [|x xs]; [done|]. intros _. unfold maximum.
  destruct (fold_max xs x) as (H1&H2&H3). split.
  - destruct H3 as [-> | ?]; [left | by right].
  - by constructor.
Qed.

(** A time between two finite times is finite. *)
Lemma between_finite lo hi t :
  lat_le (Finite lo) t → lat_le t (Finite hi) →
  ∃ x, t = Finite x ∧ (lo <= x <= hi)%Q.
Proof.
  destruct t as [x|]; [|done]. rewrite !lat_le_finite. eauto.
Qed.

Lemma sum_bounds lo hi xs :
  Forall (λ t, lat_le (Finite lo) t ∧ lat_le t (Finite hi)) xs →
  ∃ s, foldr lat_add (Finite 0) xs = Finite s
    ∧ (lo * inject_Z (Z.of_nat (length xs)) <= s)%Q
    ∧ (s <= hi * inject_Z (Z.of_nat (length xs)))%Q.
Proof.
  induction 1 as [|t xs [Hlo Hhi] _ (s&Hs&Hs1&Hs2)].
  - exists 0%Q. split; [done|]. change (inject_Z (Z.of_nat (length []))) with 0%Q.
    split; lra.
  - destruct (between_finite lo hi t Hlo Hhi) as (x&->&Hx1&Hx2).
    exists (x + s)%Q. cbn [foldr length]. rewrite Hs. split; [done|].
    rewrite Nat2Z.inj_succ, <- Z.add_1_r, inject_Z_plus.
    change (inject_Z 1) with 1%Q. split; lra.
Qed.

Lemma mean_bounds lo hi xs :
  xs ≠ [] →
  Forall (λ t, lat_le (Finite lo) t ∧ lat_le t (Finite hi)) xs →
  ∃ m, mean xs = Finite m ∧ (lo <= m <= hi)%Q.
Proof.
  intros Hne (s&Hs&Hs1&Hs2)%sum_bounds. unfold mean. rewrite Hs. simpl.
  eexists. split; [done|].
  assert (0 < inject_Z (Z.of_nat (length xs)))%Q as Hn.
  { change 0%Q with (inject_Z 0). rewrite <- Zlt_Qlt.
    destruct xs; [done | simpl; lia]. }
  split; [by apply Qle_shift_div_l | by apply Qle_shift_div_r].
Qed.

Lemma median_bounds lo hi xs :
  xs ≠ [] →
  Forall (λ t, lat_le (Finite lo) t ∧ lat_le t (Finite hi)) xs →
  ∃ m, median xs = Finite m ∧ (lo <= m <= hi)%Q.
Proof.
  intros Hne Hxs. unfold median.
  set (data := py_sorted lat_ltb xs).
  assert (Forall (λ t, lat_le (Finite lo) t ∧ lat_le t (Finite hi)) data)
    as Hdata by (unfold data; by rewrite py_sorted_Permutation).
  assert (length data ≠ 0%nat) as Hlen.
  { unfold data. rewrite py_sorted_Permutation. by destruct xs. }
  assert (∀ i, (i < length data)%nat →
    ∃ x, nth i data Inf = Finite x ∧ (lo <= x <= hi)%Q) as Hnth.
  { intros i Hi. rewrite Forall_forall in Hdata.
    destruct (Hdata (nth i data Inf)) as [H1 H2].
    { apply list_elem_of_In, nth_In, Hi. }
    by apply between_finite. }
  cbv zeta. destruct (Nat.odd (length data)) eqn:Hodd.
  - apply Hnth. apply Nat.div_lt; lia.
  - assert (2 ≤ length data)%nat as H2.
    { destruct (length data) as [|[|n]]; [done | done | lia]. }
    destruct (Hnth (length data / 2 - 1)%nat) as (x&->&Hx).
    { assert (length data / 2 < length data)%nat by (apply Nat.div_lt; lia). lia. }
    destruct (Hnth (length data / 2)%nat) as (y&->&Hy).
    { apply Nat.div_lt; lia. }
    simpl. eexists. split; [done|].
    change (inject_Z (Z.of_nat 2)) with 2%Q. split.
    + apply Qle_shift_div_l; lra.
    + apply Qle_shift_div_r; lra.
Qed.

(** X4. When at least one probe succeeds, the four times of the result
    are finite, and the average and the median lie between the least and
    the greatest time. *)
Theorem benchmark_server_statistics h dig dns_server name :
  completes_all h dns_server →
  ∃ r,
    benchmark_server h dig dns_server name = Ok r
    ∧ (successful_queries r ≠ 0%nat →
       ∃ lo avg mid hi,
         min_time r = Finite lo ∧ avg_time r = Finite avg
         ∧ median_time r = Finite mid ∧ max_time r = Finite hi
         ∧ (lo <= avg <= hi)%Q ∧ (lo <= mid <= hi)%Q).
Proof.
  intros Hall.
  destruct (benchmark_server_run h dig dns_server name Hall) as (a&Hfin&_&->).
  eexists. split; [done|]. simpl. intros Hne.
  destruct (successful a) as [|t ts] eqn:E; [done|].
  rewrite bool_decide_eq_false_2 by done. cbn [negb]. rewrite <- E in *.
  assert (successful a ≠ []) as Hne' by (by rewrite E).
  destruct (minimum_spec _ Hne') as [Hmin_in Hmin].
  destruct (maximum_spec _ Hne') as [Hmax_in Hmax].
  unfold finite_samples in Hfin. rewrite Forall_forall in Hfin.
  destruct (minimum (successful a)) as [lo|] eqn:Elo;
    [|by specialize (Hfin _ Hmin_in)].
  destruct (maximum (successful a)) as [hi|] eqn:Ehi;
    [|by specialize (Hfin _ Hmax_in)].
  assert (Forall (λ t, lat_le (Finite lo) t ∧ lat_le t (Finite hi))
            (successful a)) as Hb.
  { rewrite Forall_forall in Hmin, Hmax |- *. intros x Hx. auto. }
  destruct (mean_bounds lo hi _ Hne' Hb) as (avg&->&Havg).
  destruct (median_bounds lo hi _ Hne' Hb) as (mid&->&Hmid).
  by exists lo, avg, mid, hi.
Qed.

(** The theorem on a machine where every lookup takes 20 ms. *)
Lemma benchmark_server_statistics_witness :
  ∃ r lo avg hi,
    benchmark_server (lab (λ _ _, true) (λ _, 20)) (Some true) "9.9.9.9" None
    = Ok r
    ∧ min_time r = Finite lo ∧ avg_time r = Finite avg
    ∧ max_time r = Finite hi ∧ (lo <= avg <= hi)%Q.
Proof.
  destruct (benchmark_server_statistics (lab (λ _ _, true) (λ _, 20))
              (Some true) "9.9.9.9" None (lab_completes_all _ _ _))
    as (r&Hr&Hstat).
  destruct Hstat as (lo&avg&mid&hi&?&?&?&?&?&?).
  { vm_compute in Hr. injection Hr as <-. by vm_compute. }
  by exists r, lo, avg, hi.
Defined.

(** ** Discovery, source by source *)

Lemma consider_run server d :
  ∃ d', consider server d = (Ok tt, d')
    ∧ offered d' = (offered d ++ [server])%list.
Proof.
  unfold consider, bind, modify, lift, gets, ret.
  destruct (validate_total server) as [b ->]. cbn [fst snd].
  destruct (b && negb (Py.startswith "127." server));
    [destruct (decide (server ∈ seen_servers (log_offer server d)))|];
    eexists; (split; [reflexivity | done]).
Qed.

Lemma for_each_offers {X} (body : X → M discovery unit)
    (f : X → option string) xs :
  (∀ x d, ∃ d', body x d = (Ok tt, d')
     ∧ offered d' = (offered d ++ option_list (f x))%list) →
  ∀ d, ∃ d', for_each xs body d = (Ok tt, d')
     ∧ offered d' = (offered d ++ omap f xs)%list.
Proof.
  intros Hbody. induction xs as [|x xs IH]; intros d.
  - exists d. by rewrite app_nil_r.
  - cbn [for_each omap]. unfold bind at 1.
    destruct (Hbody x d) as (d1&->&Hd1).
    destruct (IH d1) as (d'&->&Hd'). exists d'. split; [done|].
    rewrite Hd', Hd1, <- app_assoc. simpl. by destruct (f x).
Qed.

Lemma resolv_conf_line line d :
  ∃ d',
    (if Py.startswith "nameserver" (Py.strip line) then
       let parts := Py.split (Py.strip line) in
       if (2 <=? length parts)%nat then
         let* server := index parts 1 in
         consider server
       else ret tt
     else ret tt) d
    = (Ok tt, d')
    ∧ offered d'
      = (offered d ++ option_list
           (if Py.startswith "nameserver" (Py.strip line)
            then Py.split (Py.strip line) !! 1%nat
            else None))%list.
Proof.
  destruct (Py.startswith "nameserver" (Py.strip line));
    [|exists d; by rewrite app_nil_r].
  cbv zeta. destruct (Py.split (Py.strip line)) as [|w [|server ws]].
  - exists d. by rewrite app_nil_r.
  - exists d. by rewrite app_nil_r.
  - destruct (consider_run server d) as (d1&Hrun&Hd1). exists d1.
    split; [|done]. exact Hrun.
Qed.

Lemma from_resolv_conf_run h d :
  ∃ d', from_resolv_conf h d = (Ok tt, d')
    ∧ offered d'
      = (offered d ++ from_option nameservers [] (resolv_conf h))%list.
Proof.
  unfold from_resolv_conf, try_except, open_resolv_conf, bind at 1.
  destruct (resolv_conf h) as [text|]; unfold ret at 1, raise;
    cbv beta iota.
  - lazymatch goal with
    | |- context [for_each ?xs ?body d] =>
        destruct (for_each_offers body _ xs resolv_conf_line d)
          as (d'&Hrun&Hd')
    end.
    exists d'. split; [|exact Hd']. by rewrite Hrun.
  - exists d. split; [done|]. by rewrite app_nil_r.
Qed.

Lemma grows_ret {A} (a : A) : grows (ret a).
Proof. by intros d. Qed.

Lemma grows_raise {A} e : grows (raise (A:=A) e).
Proof. by intros d. Qed.

Lemma grows_bind {A B} (m : M discovery A) (f : A → M discovery B) :
  grows m → (∀ a, grows (f a)) → grows (bind m f).
Proof.
  intros Hm Hf d. unfold bind. specialize (Hm d).
  destruct (m d) as [[a|e] d']; simpl in *; [|done].
  etrans; [exact Hm | apply Hf].
Qed.

Lemma grows_for_each {X} (xs : list X) (body : X → M discovery unit) :
  (∀ x, grows (body x)) → grows (for_each xs body).
Proof.
  intros Hb. induction xs as [|x xs IH]; simpl.
  - apply grows_ret.
  - apply grows_bind; auto.
Qed.

Lemma grows_index {A} (l : list A) i : grows (index l i).
Proof. unfold index. destruct (l !! i); [apply grows_ret | apply grows_raise]. Qed.

Lemma grows_subprocess_run h argv : grows (subprocess_run h argv).
Proof.
  unfold subprocess_run.
  destruct (run h argv); [apply grows_ret | apply grows_raise..].
Qed.

Lemma grows_try_except (m : M discovery unit) :
  grows m → grows (try_except m (λ _, ret tt)).
Proof.
  intros Hm d. unfold try_except. specialize (Hm d).
  destruct (m d) as [[[]|e] d']; simpl in *; [done|].
  by destruct (is_Exception e).
Qed.

Lemma grows_consider server : grows (consider server).
Proof.
  intros d. destruct (consider_run server d) as (d'&->&Hd').
  cbn [snd]. rewrite Hd'. by apply prefix_app_r.
Qed.

Ltac grows_step :=
  lazymatch goal with
  | |- grows (ret _) => apply grows_ret
  | |- grows (bind _ _) => apply grows_bind; [|intros ?]
  | |- grows (for_each _ _) => apply grows_for_each; intros ?
  | |- grows (index _ _) => apply grows_index
  | |- grows (consider _) => apply grows_consider
  | |- grows (subprocess_run _ _) => apply grows_subprocess_run
  | |- grows (try_except _ _) => apply grows_try_except
  | |- grows (if ?b then _ else _) => destruct b
  | |- grows (let '(_, _) := ?p in _) => destruct p
  end.

Lemma grows_following_lines lines js : grows (following_lines lines js).
Proof.
  induction js as [|j js IH]; simpl; repeat grows_step; exact IH.
Qed.

Lemma grows_from_resolved h : grows (from_resolved h).
Proof.
  unfold from_resolved, scan_status.
  repeat grows_step; apply grows_following_lines.
Qed.

Lemma grows_from_nmcli h : grows (from_nmcli h).
Proof. unfold from_nmcli. repeat grows_step. Qed.

Lemma keep_first_prefix l1 l2 : keep_first l1 `prefix_of` keep_first (l1 ++ l2).
Proof.
  induction l2 as [|x l2 IH] using rev_ind.
  - by rewrite app_nil_r.
  - rewrite app_assoc, keep_first_snoc. destruct (decide _); [done|].
    by apply prefix_app_r.
Qed.

(** The candidates of a run start with the name servers of resolv.conf. *)
Lemma candidates_resolv_conf h :
  from_option nameservers [] (resolv_conf h) `prefix_of` candidates h.
Proof.
  unfold candidates, discover. unfold bind at 1.
  destruct (from_resolv_conf_run h discovery_start) as (d1&->&Hd1).
  simpl in Hd1. rewrite <- Hd1.
  apply (grows_bind _ _ (grows_from_resolved h) (λ _, grows_from_nmcli h)).
Qed.

(** X5. The resolvers named in [/etc/resolv.conf] come first: the result
    of discovery starts with the second words of the [nameserver] lines
    that pass the guard, in the order of the file and without repeats,
    whatever the other sources yield. *)
Theorem get_current_dns_servers_resolv_conf h text :
  resolv_conf h = Some text →
  ∃ others,
    get_current_dns_servers h
    = Ok (keep_first (filter (λ s, accepted s) (nameservers text)) ++ others)%list.
Proof.
  intros Htext. rewrite get_current_dns_servers_candidates.
  destruct (candidates_resolv_conf h) as [more Hmore].
  rewrite Htext in Hmore. simpl in Hmore. rewrite Hmore, filter_app.
  destruct (keep_first_prefix (filter (λ s, accepted s) (nameservers text))
              (filter (λ s, accepted s) more)) as [others ->].
  by exists others.
Qed.

(** The theorem on a machine whose resolv.conf names one resolver. *)
Lemma get_current_dns_servers_resolv_conf_witness :
  ∃ others, get_current_dns_servers office = Ok (["10.0.0.1"] ++ others)%list.
Proof.
  destruct (get_current_dns_servers_resolv_conf office
              ("nameserver 10.0.0.1" +:+ nl) eq_refl) as [others H].
  exists others. by vm_compute in H |- *.
Defined.

Lemma failing_command h argv (k : Z * string → M discovery unit) d :
  exits_zero h argv = false →
  try_except
    (let* result := subprocess_run h argv in
     if fst result =? 0 then k result else ret tt)
    (λ _, ret tt) d
  = (Ok tt, d).
Proof.
  unfold exits_zero, try_except, bind, subprocess_run, ret, raise.
  destruct (run h argv) as [rc out| |]; simpl; [|done..].
  by intros ->.
Qed.

Lemma from_resolved_fails h d :
  exits_zero h ["systemd-resolve"; "--status"] = false →
  exits_zero h ["resolvectl"; "status"] = false →
  from_resolved h d = (Ok tt, d).
Proof.
  intros H1 H2. unfold from_resolved. cbn [for_each].
  rewrite (bind_run _ _ d tt d);
    [|exact (failing_command h ["systemd-resolve"; "--status"]
               (λ result, scan_status (snd result)) d H1)].
  rewrite (bind_run _ _ d tt d);
    [done|exact (failing_command h ["resolvectl"; "status"]
               (λ result, scan_status (snd result)) d H2)].
Qed.

Lemma from_nmcli_fails h d :
  exits_zero h ["nmcli"; "dev"; "show"] = false →
  from_nmcli h d = (Ok tt, d).
Proof. intros H3. unfold from_nmcli. by apply failing_command. Qed.

(** X6. When none of [systemd-resolve --status], [resolvectl status] and
    [nmcli dev show] runs to an exit status of 0, discovery returns the
    name servers of [/etc/resolv.conf] that pass the guard, each once in
    the order of the file, and the empty list when the file cannot be
    read. *)
Theorem get_current_dns_servers_file_only h :
  exits_zero h ["systemd-resolve"; "--status"] = false →
  exits_zero h ["resolvectl"; "status"] = false →
  exits_zero h ["nmcli"; "dev"; "show"] = false →
  get_current_dns_servers h
  = Ok (keep_first (filter (λ s, accepted s)
          (from_option nameservers [] (resolv_conf h)))).
Proof.
  intros H1 H2 H3. rewrite get_current_dns_servers_candidates.
  do 2 f_equal. unfold candidates, discover. unfold bind at 1.
  destruct (from_resolv_conf_run h discovery_start) as (d1&->&Hd1).
  simpl in Hd1. rewrite <- Hd1.
  unfold bind. by rewrite from_resolved_fails, from_nmcli_fails.
Qed.

(** The theorem on a machine without resolv.conf and without commands. *)
Lemma get_current_dns_servers_file_only_witness :
  get_current_dns_servers (bare []) = Ok [].
Proof.
  exact (get_current_dns_servers_file_only (bare []) eq_refl eq_refl eq_refl).
Defined.

(** ** The report as a whole *)

Lemma valid_failed_Permutation results :
  valid_results results ++ failed_results results ≡ₚ results.
Proof.
  unfold valid_results, failed_results.
  induction results as [|r results IH]; [done|].
  rewrite !filter_cons. destruct (is_inf (avg_time r)); simpl.
  - by rewrite <- Permutation_middle, IH.
  - by rewrite IH.
Qed.

(** X7. Every result is listed once in the report, in the table or in
    the failure listing, and the failure listing keeps the order in which
    the results came. *)
Theorem print_results_partition (results : list stats) :
  table_rows (report results false) ++ failure_rows (report results false)
    ≡ₚ results
  ∧ failure_rows (report results false)
    = filter (λ r, is_inf (avg_time r)) results.
Proof.
  destruct (report_rows results) as [-> ->]. split; [|done].
  unfold ranked. rewrite py_sorted_Permutation.
  apply valid_failed_Permutation.
Qed.

Lemma best_servers_app o1 o2 :
  best_servers (o1 ++ o2) = best_servers o1 ++ best_servers o2.
Proof.
  induction o1 as [|l o1 IH]; [done|]. destruct l; simpl; by rewrite ?IH.
Qed.

Lemma best_servers_none out :
  Forall (λ l, is_best_server l = false) out → best_servers out = [].
Proof. induction 1 as [|l out Hl _ IH]; [done|]. by destruct l. Qed.

Lemma best_servers_table rs : best_servers (table_lines rs) = [].
Proof.
  apply best_servers_none. unfold table_lines. destruct (is_nil rs); [done|].
  repeat (constructor; [done|]). apply Forall_forall.
  by intros l ([i r]&->&_)%list_elem_of_fmap.
Qed.

Lemma best_servers_failures rs : best_servers (failure_lines rs) = [].
Proof.
  apply best_servers_none. unfold failure_lines. destruct (is_nil rs); [done|].
  constructor; [done|]. apply Forall_forall.
  by intros l (r&->&_)%list_elem_of_fmap.
Qed.

Lemma writes_compare_with_current best rs :
  writes (λ l, is_comparison l = true) (compare_with_current best rs).
Proof.
  unfold compare_with_current.
  repeat first
    [ apply writes_ret | apply writes_index | apply writes_next_rank
    | apply writes_improvement_of | by apply writes_print
    | apply writes_bind; [|intros ?]
    | match goal with |- writes _ (if ?b then _ else _) => destruct b end
    | progress cbv zeta ].
Qed.

Lemma recommend_run best rest out :
  recommend (best :: rest) out
  = compare_with_current best (best :: rest)
      (out ++ [BestHeader; BestServer best; BestAverage best]).
Proof.
  unfold recommend. cbn [is_nil negb index lookup list_lookup].
  unfold bind at 1. unfold ret at 1. unfold bind at 1 2 3, print, modify.
  cbn [fst snd]. by rewrite <- !app_assoc.
Qed.

(** The report of a list of results with a non-empty table. *)
Lemma report_with_table results best rest :
  ranked results = best :: rest →
  ∃ extra,
    report results false
    = [RuleTop; Title; Rule] ++ table_lines (best :: rest)
        ++ failure_lines (failed_results results)
        ++ [BestHeader; BestServer best; BestAverage best] ++ extra
    ∧ Forall (λ l, is_comparison l = true) extra.
Proof.
  intros Hranked. assert (results ≠ []) as Hne by (by intros ->).
  unfold report. rewrite print_results_run by done. rewrite Hranked.
  rewrite recommend_run.
  destruct (writes_compare_with_current best (best :: rest)
    (([] ++ [RuleTop; Title; Rule] ++ table_lines (best :: rest)
         ++ failure_lines (failed_results results))
     ++ [BestHeader; BestServer best; BestAverage best]))
    as (extra&->&Hextra).
  exists extra. split; [|done]. by rewrite <- !app_assoc.
Qed.

Lemma report_without_table results :
  ranked results = [] → best_servers (report results false) = [].
Proof.
  intros Hranked. destruct (decide (results = [])) as [->|Hne]; [done|].
  unfold report. rewrite print_results_run by done. rewrite Hranked.
  unfold recommend. cbn [is_nil negb ret snd].
  rewrite !best_servers_app, best_servers_failures. done.
Qed.

(** X8. The report names as the best server the result in the first row
    of the table, and no other; that result is one of the results, and no
    result has a smaller average. Without a table no best server is
    named. *)
Theorem print_results_best (results : list stats) :
  best_servers (report results false)
  = take 1 (table_rows (report results false))
  ∧ ∀ best r,
      best ∈ best_servers (report results false) → r ∈ results →
      best ∈ results ∧ lat_le (avg_time best) (avg_time r).
Proof.
  destruct (report_rows results) as [Hrows _]. rewrite Hrows.
  destruct (ranked results) as [|best rest] eqn:Hranked.
  { rewrite (report_without_table results Hranked). split; [done|].
    by intros best r Hbest%elem_of_nil. }
  destruct (report_with_table results best rest Hranked) as (extra&->&Hextra).
  assert (best_servers extra = []) as Hnone.
  { apply best_servers_none. eapply Forall_impl; [exact Hextra|].
    by intros []. }
  rewrite !best_servers_app, best_servers_table, best_servers_failures, Hnone.
  cbn [best_servers app take]. split; [done|].
  intros b r ->%list_elem_of_singleton Hr.
  destruct (ranked_elem results best) as [Hin Hfin]; [rewrite Hranked; left|].
  split; [done|].
  destruct (is_inf (avg_time r)) eqn:Hinf.
  { unfold lat_le. destruct (avg_time r); [done|]. by destruct (avg_time best). }
  assert (r ∈ ranked results) as Hr'.
  { unfold ranked. rewrite py_sorted_Permutation. unfold valid_results.
    apply list_elem_of_filter. rewrite Hinf. split; [done|]. exact Hr. }
  assert (StronglySorted (λ a b, lat_le (avg_time a) (avg_time b))
            (py_sorted (λ x y, lat_ltb (avg_time x) (avg_time y))
               (valid_results results))) as Hsorted.
  { apply (py_sorted_sorted (λ x y, lat_ltb (avg_time x) (avg_time y))).
    - intros x y. apply lat_ltb_asym.
    - intros x y z Hxy Hyz. by apply (lat_le_trans _ (avg_time y)). }
  fold (ranked results) in Hsorted. rewrite Hranked in Hsorted, Hr'.
  apply StronglySorted_inv in Hsorted as [_ Hle].
  apply elem_of_cons in Hr' as [-> | Hr'].
  - apply lat_le_refl.
  - rewrite Forall_forall in Hle. by apply Hle.
Qed.

(** X9. When the first current server of the table is below the first
    row and its average is zero, the division in the improvement raises
    ZeroDivisionError, and the report has no line that compares with the
    current server: its last line is the average of the best server. *)
Theorem print_results_zero_average results best rest p cur c :
  Forall rate_is_number results →
  ranked results = best :: rest →
  first_current (ranked results) = Some (S p, cur) →
  avg_time cur = Finite c →
  Qeq_bool c 0 = true →
  improvement_of (avg_time cur) (avg_time best) ()
  = (Raise ZeroDivisionError, ())
  ∧ comparison (report results false) = []
  ∧ last (report results false) = Some (BestAverage best).
Proof.
  intros Hnum Hranked Hfirst Hc Hzero.
  destruct (ranked_elem results best) as [_ Hbest_fin];
    [rewrite Hranked; left|].
  destruct (avg_time best) as [b|] eqn:Hb; [|done].
  assert (results ≠ []) as Hne by (by intros ->).
  assert (report results false
          = [RuleTop; Title; Rule] ++ table_lines (best :: rest)
              ++ failure_lines (failed_results results)
              ++ [BestHeader; BestServer best; BestAverage best]) as ->.
  { unfold report. rewrite print_results_run by done. rewrite Hranked in *.
    rewrite recommend_run.
    rewrite (compare_with_current_run best (best :: rest) _ (S p) cur Hfirst).
    - assert ((1 <? length (best :: rest))%nat = true) as ->.
      { destruct (first_current_spec _ _ _ Hfirst) as (Hp&_&_).
        apply lookup_lt_Some in Hp. apply Nat.ltb_lt. lia. }
      rewrite Hc, Hb. unfold improvement_of. rewrite Hzero.
      unfold raise. cbn [fst snd app]. by rewrite <- !app_assoc.
    - destruct (first_current_spec _ _ _ Hfirst)
        as (Hcur%list_elem_of_lookup_2&_&_).
      rewrite <- Hranked in Hcur. apply ranked_elem in Hcur as [Hcur _].
      rewrite Forall_forall in Hnum. by apply Hnum. }
  split; [|split].
  - rewrite Hc. unfold improvement_of. by rewrite Hzero.
  - rewrite !comparison_app, comparison_table, comparison_failures. done.
  - change [BestHeader; BestServer best; BestAverage best]
      with ([BestHeader; BestServer best] ++ [BestAverage best]).
    rewrite !app_assoc. apply last_snoc.
Qed.

(** The theorem on two results with an average of zero, the second one a
    current server's. *)
Lemma print_results_zero_average_witness :
  comparison (report zero_averages false) = []
  ∧ last (report zero_averages false)
    = Some (BestAverage (result_of "Cloudflare" (Finite 0) 24)).
Proof.
  apply (print_results_zero_average zero_averages
           (result_of "Cloudflare" (Finite 0) 24)
           [result_of "Current-192.168.1.1" (Finite 0) 24]
           0%nat (result_of "Current-192.168.1.1" (Finite 0) 24) 0%Q).
  - repeat constructor.
  - reflexivity.
  - reflexivity.
  - reflexivity.
  - reflexivity.
Defined.

(** ** The run, server by server *)

Lemma bench_loop_trace h verbose dig items :
  (∀ server, completes_all h server) →
  ∀ o ss rs,
  ∃ extra rs',
    bench_loop h verbose dig items
      {| output := o; servers_to_test := ss; results := rs |}
    = (Ok (), {| output := o ++ extra; servers_to_test := ss;
                 results := rs ++ rs' |})
    ∧ Forall2 (λ '(name, server) r,
                 benchmark_server h (Some dig) server (Some name) = Ok r)
        (before_interrupt h items) rs'
    ∧ (Interrupted ∈ extra ↔ interrupted_in h items = true)
    ∧ Forall (λ l, l = Dot ∨ l = Interrupted) extra.
Proof.
  intros Hall. induction items as [|[i [name server]] items IH]; intros o ss rs.
  - exists [], []. simpl. rewrite !app_nil_r. split; [done|].
    split; [constructor|]. split; [|constructor].
    split; [by intros ?%elem_of_nil | done].
  - cbn [bench_loop before_interrupt interrupted_in existsb].
    unfold bind, catch, say, append_result, modify, lift, raise, ret.
    destruct (benchmark_server_run h (Some dig) server (Some name) (Hall server))
      as (a&_&_&Hr).
    destruct (interrupted h i) eqn:Hi; cbn [orb].
    + exists (if verbose then [Interrupted] else [Dot; Interrupted]), [].
      destruct verbose; simpl; rewrite ?app_nil_r, <- ?app_assoc;
        (split; [done|]); (split; [constructor|]);
        (split; [split; [done | intros _; set_solver]|]);
        apply Forall_forall; intros l; rewrite ?elem_of_cons, elem_of_nil;
        naive_solver.
    + rewrite Hr. set (r := Build_stats _ _ _ _ _ _ _ _ _) in *.
      destruct verbose; cbn [negb fst snd output servers_to_test results].
      * destruct (IH o ss (rs ++ [r])) as (extra&rs'&->&HF&HI&HD).
        exists extra, (r :: rs'). rewrite <- app_assoc.
        split; [done|]. split; [by constructor|]. done.
      * destruct (IH (o ++ [Dot]) ss (rs ++ [r])) as (extra&rs'&->&HF&HI&HD).
        exists (Dot :: extra), (r :: rs'). rewrite <- !app_assoc.
        split; [done|]. split; [by constructor|].
        split; [|constructor; auto].
        rewrite elem_of_cons. fold (interrupted_in h items).
        rewrite <- HI. naive_solver.
Qed.



(** A run on a machine with a lookup tool, up to the loop. *)
Lemma run_benchmark_run h verbose o :
  has_tool h "dig" || has_tool h "nslookup" = true →
  ∀ current, get_current_dns_servers h = Ok current →
  let cd := if test_current o then current else [] in
  let servers := expected_servers o cd in
  run_benchmark h verbose o run_start
  = if is_nil servers then
      (Ok [], {| output := prelude verbose o cd ++ [NoServers];
                 servers_to_test := []; results := [] |})
    else
      match bench_loop h verbose (has_tool h "dig") (enumerate 0 servers)
              {| output :=
                   prelude verbose o cd
                   ++ Testing (length servers) (length test_domains)
                      :: (if verbose then [] else [ProgressStart]);
                 servers_to_test := servers; results := [] |} with
      | (Ok _, st) =>
          (Ok (results st),
           {| output := output st ++ (if verbose then [] else [Done]);
              servers_to_test := servers_to_test st;
              results := results st |})
      | (Raise e, st) => (Raise e, st)
      end.
Proof.
  intros Htool current Hcur cd servers.
  unfold run_benchmark.
  rewrite (bind_run _ _ _ _ _ (check_command_run h "dig" run_start)).
  rewrite (bind_run _ _ _ _ _ (check_command_run h "nslookup" run_start)).
  apply orb_true_iff in Htool.
  assert (negb (has_tool h "dig") && negb (has_tool h "nslookup") = false)
    as -> by (destruct Htool as [-> | ->]; by rewrite ?andb_false_r).
  unfold run_start.
  rewrite (bind_run _ _ _ () {| output := [Banner]; servers_to_test := [];
                                results := [] |}) by done.
  rewrite (bind_run _ _ _ ()
    {| output := Banner :: (if verbose then [] else [VerboseHint]);
       servers_to_test := []; results := [] |}) by (by destruct verbose).
  rewrite (bind_run _ _ _ cd
    {| output := Banner :: (if verbose then [] else [VerboseHint]);
       servers_to_test := []; results := [] |});
    [|unfold cd, lift; rewrite Hcur; by destruct (test_current o)].
  set (o1 := Banner :: (if verbose then [] else [VerboseHint])).
  set (lines := if negb (is_nil cd) then
        CurrentDetected
        :: ((λ '(i, server), CurrentServer i server) <$> enumerate 1 cd)
      else if test_current o then [NoCurrentWarning; NoCurrentNote]
      else []).
  assert (
    (if negb (is_nil cd)
     then say CurrentDetected >>>
          for_each (enumerate 1 cd) (λ '(i, server0), say (CurrentServer i server0))
     else if test_current o then say NoCurrentWarning >>> say NoCurrentNote
          else ret ())
      {| output := o1; servers_to_test := []; results := [] |}
    = (Ok (), {| output := o1 ++ lines; servers_to_test := [];
                 results := [] |})) as Hstep.
  { unfold lines. destruct cd as [|s0 cd'] eqn:Ecd; cbn [is_nil negb].
    - destruct (test_current o).
      + unfold bind, say, modify. simpl. by rewrite <- app_assoc.
      + by rewrite app_nil_r.
    - unfold bind at 1. unfold say at 1, modify.
      cbn [fst snd output servers_to_test results].
      rewrite (for_each_say (λ '(i, server0), CurrentServer i server0))
        by (by intros [i x] ?).
      by rewrite <- app_assoc. }
  rewrite (bind_run _ _ _ _ _ Hstep).
  rewrite (bind_run _ _ _ _ _ (prepare_servers_run o cd _ _ _)).
  rewrite app_nil_l. unfold bind at 1, gets. cbn [fst snd servers_to_test].
  fold servers.
  assert ((o1 ++ lines)
          ++ (InvalidCustom <$>
                filter (λ s, negb (valid_address s))
                  (default [] (custom_servers o)))
          = prelude verbose o cd) as ->.
  { unfold prelude. fold o1. fold lines. by rewrite <- app_assoc. }
  destruct servers as [|sv svs] eqn:Eexp; cbn [is_nil].
  - done.
  - rewrite (bind_run _ _ _ () {| output := prelude verbose o cd
        ++ [Testing (length (sv :: svs)) (length test_domains)];
        servers_to_test := sv :: svs; results := [] |}) by done.
    rewrite (bind_run _ _ _ () {| output := prelude verbose o cd
        ++ Testing (length (sv :: svs)) (length test_domains)
           :: (if verbose then [] else [ProgressStart]);
        servers_to_test := sv :: svs; results := [] |});
      [|destruct verbose; cbn [negb]; unfold say, modify, ret;
        cbn [output servers_to_test results]; by rewrite <- ?app_assoc].
    unfold bind at 1.
    destruct (bench_loop h verbose (has_tool h "dig") (enumerate 0 (sv :: svs)) _)
      as [[[]|e] [out ss rs]]; [|done].
    unfold bind, gets, say, modify, ret.
    destruct verbose; cbn [negb fst snd output servers_to_test results];
      by rewrite ?app_nil_r.
Qed.

(** A run on a machine with a lookup tool on which the futures of every
    server complete. *)
Lemma run_benchmark_trace h verbose o :
  has_tool h "dig" || has_tool h "nslookup" = true →
  (∀ server, completes_all h server) →
  ∃ current extra res,
    get_current_dns_servers h = Ok current
    ∧ let cd := if test_current o then current else [] in
      let servers := expected_servers o cd in
      run_benchmark h verbose o run_start
      = (Ok res,
         {| output :=
              if is_nil servers then prelude verbose o cd ++ [NoServers]
              else (prelude verbose o cd
                    ++ Testing (length servers) (length test_domains)
                       :: (if verbose then [] else [ProgressStart]))
                   ++ extra ++ (if verbose then [] else [Done]);
            servers_to_test := servers; results := res |})
      ∧ Forall2 (λ '(name, server) r,
                   benchmark_server h (Some (has_tool h "dig")) server
                     (Some name) = Ok r)
          (before_interrupt h (enumerate 0 servers)) res
      ∧ (Interrupted ∈ extra ↔ interrupted_in h (enumerate 0 servers) = true)
      ∧ Forall (λ l, l = Dot ∨ l = Interrupted) extra.
Proof.
  intros Htool Hall.
  pose proof (get_current_dns_servers_candidates h) as Hcur.
  pose proof (run_benchmark_run h verbose o Htool _ Hcur) as Hrun.
  cbv zeta in Hrun.
  exists (keep_first (filter (λ s, accepted s) (candidates h))).
  set (cd := if test_current o then _ else []) in *.
  destruct (expected_servers o cd) as [|sv svs] eqn:Eexp; cbn [is_nil] in Hrun.
  - exists [], []. split; [exact Hcur|]. cbv zeta. fold cd. rewrite Eexp.
    cbn [is_nil]. split; [exact Hrun|]. split; [constructor|].
    split; [|constructor]. split; [by intros ?%elem_of_nil | done].
  - destruct (bench_loop_trace h verbose (has_tool h "dig")
                (enumerate 0 (sv :: svs)) Hall
                (prelude verbose o cd
                 ++ Testing (length (sv :: svs)) (length test_domains)
                    :: (if verbose then [] else [ProgressStart]))
                (sv :: svs) []) as (extra&rs'&Hloop&HF&HI&HD).
    rewrite Hloop in Hrun. cbn [output servers_to_test results app] in Hrun.
    exists extra, rs'. split; [exact Hcur|]. cbv zeta. fold cd. rewrite Eexp.
    cbn [is_nil]. split; [|done]. rewrite Hrun. by rewrite <- app_assoc.
Qed.


Lemma before_interrupt_enumerate {A} h (l : list A) : ∀ n x,
  x ∈ before_interrupt h (enumerate n l) → x ∈ l.
Proof.
  induction l as [|y l IH]; intros n x; [by intros ?%elem_of_nil|].
  rewrite enumerate_cons. cbn [before_interrupt].
  destruct (interrupted h n); [by intros ?%elem_of_nil|].
  rewrite !elem_of_cons. intros [-> | Hx]; [by left|]. right. by eapply IH.
Qed.




Lemma benchmark_server_labels h dig dns_server label r :
  completes_all h dns_server →
  benchmark_server h dig dns_server (Some label) = Ok r →
  name r = label ∧ server r = dns_server.
Proof.
  intros Hall Hr.
  destruct (benchmark_server_run h dig dns_server (Some label) Hall)
    as (a&_&_&Hrun).
  rewrite Hrun in Hr. by injection Hr as <-.
Qed.

Lemma expected_servers_current o cd label dns_server :
  (label, dns_server) ∈ expected_servers o cd →
  Py.startswith "Current-" label = true →
  dns_server ∈ cd ∧ label = "Current-" +:+ dns_server.
Proof.
  unfold expected_servers. rewrite !elem_of_app.
  intros [Hin | [Hin | Hin]] Hlabel.
  - destruct (test_current o); [|by apply elem_of_nil in Hin].
    apply list_elem_of_fmap in Hin as (s&[= -> ->]&Hs). done.
  - apply list_elem_of_fmap in Hin as (s&[= -> ->]&Hs). done.
  - destruct (test_public o); [|by apply elem_of_nil in Hin].
    destruct (top3_only o);
      repeat (apply elem_of_cons in Hin as [[= -> ->] | Hin]; [done|]);
      by apply elem_of_nil in Hin.
Qed.

(** X11. The report's test for a current server, a name that starts with
    [Current-], picks out of the results of a run exactly those of the
    servers that the run took from discovery: a result has such a name if
    and only if current servers were asked for, its server is one of the
    discovered ones and its name is [Current-] followed by the server. *)
Theorem run_benchmark_current_results h verbose o :
  has_tool h "dig" || has_tool h "nslookup" = true →
  (∀ server, completes_all h server) →
  ∃ current res st,
    get_current_dns_servers h = Ok current
    ∧ run_benchmark h verbose o run_start = (Ok res, st)
    ∧ Forall (λ r,
        is_current r = true
        ↔ test_current o = true ∧ server r ∈ current
          ∧ name r = "Current-" +:+ server r) res.
Proof.
  intros Htool Hall.
  destruct (run_benchmark_trace h verbose o Htool Hall)
    as (current&extra&res&Hcur&Hrun&HF&_&_).
  cbv zeta in Hrun, HF. exists current. eexists _, _.
  split; [exact Hcur|]. split; [exact Hrun|].
  apply Forall_forall. intros r Hr.
  apply list_elem_of_lookup in Hr as [k Hk].
  destruct (Forall2_lookup_r _ _ _ _ _ HF Hk) as ([label dns_server]&Hitem&Hbench).
  apply list_elem_of_lookup_2, before_interrupt_enumerate in Hitem.
  destruct (benchmark_server_labels _ _ _ _ _ (Hall dns_server) Hbench)
    as [Hname Hserver].
  unfold is_current. rewrite Hname, Hserver. split.
  - intros Hlabel.
    destruct (expected_servers_current _ _ _ _ Hitem Hlabel) as [Hin ->].
    destruct (test_current o); [done | by apply elem_of_nil in Hin].
  - by intros (_&_&->).
Qed.

(** The theorem on a machine whose resolv.conf names one resolver. *)
Lemma run_benchmark_current_results_witness :
  ∃ res st,
    run_benchmark (with_resolv_conf ("nameserver 10.0.0.1" +:+ nl)
                     (lab (λ _ _, true) (λ _, 20)))
      false quick_with_customs run_start = (Ok res, st)
    ∧ is_current <$> res = [true; false; false; false; false].
Proof.
  destruct (run_benchmark_current_results
              (with_resolv_conf ("nameserver 10.0.0.1" +:+ nl)
                 (lab (λ _ _, true) (λ _, 20)))
              false quick_with_customs eq_refl
              (λ server, lab_completes_all _ _ server))
    as (current&res&st&_&Hrun&_).
  exists res, st. split; [exact Hrun|].
  vm_compute in Hrun. injection Hrun as <- <-. by vm_compute.
Defined.

(** ** main *)

Lemma run_benchmark_without_tool h verbose o :
  has_tool h "dig" = false → has_tool h "nslookup" = false →
  run_benchmark h verbose o run_start
  = (Ok [], {| output := [NoLookupTool; InstallHint];
               servers_to_test := []; results := [] |}).
Proof.
  intros Hdig Hns. unfold run_benchmark.
  rewrite (bind_run _ _ _ _ _ (check_command_run h "dig" run_start)).
  rewrite (bind_run _ _ _ _ _ (check_command_run h "nslookup" run_start)).
  by rewrite Hdig, Hns.
Qed.

(** X12. On a machine with neither [dig] nor [nslookup], [main] prints
    the two lines of the error, after the note about conflicting options
    when that applies, and returns normally: whatever the options, also
    with [--json], nothing else is printed. *)
Theorem main_no_tool h args :
  has_tool h "dig" = false → has_tool h "nslookup" = false →
  main h args
  = (Ok tt,
     (if Args.top3 args && Args.public_only args then [PrecedenceNote] else [])
     ++ [Printed NoLookupTool; Printed InstallHint]).
Proof.
  intros Hdig Hns. unfold main.
  by rewrite (run_benchmark_without_tool h _ _ Hdig Hns).
Qed.

(** The theorem for [dns-bench --json] on a machine with no tool. *)
Lemma main_no_tool_witness :
  main (bare []) json_args
  = (Ok tt, [Printed NoLookupTool; Printed InstallHint]).
Proof. exact (main_no_tool (bare []) json_args eq_refl eq_refl). Defined.

(** X13. With [--json] on a machine with a lookup tool, [main] returns
    normally; what it prints starts with the lines of the run, the banner
    first, and ends with the JSON document of the results, which is left
    out when the run returns no result. *)
Theorem main_json h args :
  Args.json args = true →
  has_tool h "dig" || has_tool h "nslookup" = true →
  ∃ res st lines,
    run_benchmark h (Args.verbose args) (main_options args) run_start
    = (Ok res, st)
    ∧ output st = Banner :: lines
    ∧ main h args
      = (Ok tt,
         (if Args.top3 args && Args.public_only args
          then [PrecedenceNote] else [])
         ++ (Printed <$> Banner :: lines
               ++ if is_nil res then [] else [JsonDump res])).
Proof.
  intros Hjson Htool.
  destruct (run_benchmark_with_tool h (Args.verbose args) (main_options args)
              Htool) as (current&res&st&_&Hrun&_&_&Hhead).
  destruct (output st) as [|l lines] eqn:Hout; [done|].
  injection Hhead as ->.
  exists res, st, lines. split; [exact Hrun|]. split; [exact Hout|].
  unfold main. rewrite Hrun, Hjson, Hout. unfold print_results.
  destruct res as [|r res]; cbn [is_nil ret print modify].
  - by rewrite app_nil_r.
  - done.
Qed.

(** The theorem for [dns-bench --json] on a machine with [dig]. *)
Lemma main_json_witness :
  ∃ res lines,
    main (lab (λ _ _, true) (λ _, 20)) json_args
    = (Ok tt, Printed <$> Banner :: lines
                ++ if is_nil res then [] else [JsonDump res]).
Proof.
  destruct (main_json (lab (λ _ _, true) (λ _, 20)) json_args eq_refl eq_refl)
    as (res&st&lines&_&_&Hmain).
  by exists res, lines.
Defined.

(** X14. Together with [--top3] the option [--public-only] changes
    nothing but the note that [main] prints first: the run and the report
    are those of [--top3] alone, so the current servers are tested as
    well. *)
Theorem main_top3_public_only h current_only custom verbose json :
  main h {| Args.top3 := true; Args.current_only := current_only;
            Args.public_only := true; Args.custom := custom;
            Args.verbose := verbose; Args.json := json |}
  = (fst (main h {| Args.top3 := true; Args.current_only := current_only;
                    Args.public_only := false; Args.custom := custom;
                    Args.verbose := verbose; Args.json := json |}),
     PrecedenceNote
     :: snd (main h {| Args.top3 := true; Args.current_only := current_only;
                       Args.public_only := false; Args.custom := custom;
                       Args.verbose := verbose; Args.json := json |})).
Proof.
  unfold main, main_options. cbn [Args.top3 Args.public_only
    Args.current_only Args.custom Args.verbose Args.json andb negb].
  destruct (run_benchmark h verbose _ run_start) as [[res|e] st]; [|done].
  by destruct (print_results res json (output st)).
Qed.

(** X15. [--current-only] and [--public-only] together, without
    [--top3] and without custom servers, leave nothing to test: on a
    machine with a lookup tool [main] prints the banner and that there are
    no servers to test, and returns normally. *)
Theorem main_both_only h verbose json :
  has_tool h "dig" || has_tool h "nslookup" = true →
  main h (both_only_args verbose json)
  = (Ok tt,
     Printed <$> Banner :: (if verbose then [] else [VerboseHint])
                   ++ [NoServers]).
Proof.
  intros Htool. unfold main.
  change (Args.verbose (both_only_args verbose json)) with verbose.
  rewrite (run_benchmark_run h verbose (main_options (both_only_args verbose json))
             Htool _ (get_current_dns_servers_candidates h)).
  cbn. destruct verbose, json; reflexivity.
Qed.

(** The theorem on a machine with [dig]. *)
Lemma main_both_only_witness :
  main (bare ["dig"]) (both_only_args false false)
  = (Ok tt, [Printed Banner; Printed VerboseHint; Printed NoServers]).
Proof. exact (main_both_only (bare ["dig"]) false false eq_refl). Defined.

(** ** Discovery: what the parsers find *)

Section rules_elem.
Context {S : Type} (I : S → Prop).

Lemma total_for_each_elem {X} (xs : list X) (body : X → M S unit) :
  (∀ x, x ∈ xs → total I (body x)) → total I (for_each xs body).
Proof.
  induction xs as [|x xs IH]; intros Hb; simpl.
  - apply total_ret.
  - apply total_bind; [apply Hb; left|]. intros _. apply IH.
    intros y Hy. apply Hb. by right.
Qed.


Lemma total_index {A} (l : list A) i a : l !! i = Some a → total I (index l i).
Proof. intros Hi. unfold index. rewrite Hi. apply total_ret. Qed.

End rules_elem.

Lemma snd_try_except {S} (m : M S unit) s :
  snd (try_except m (λ _, ret tt) s) = snd (m s).
Proof.
  unfold try_except. destruct (m s) as [[[]|e] s']; [done|].
  by destruct (is_Exception e).
Qed.

(** The second part of [s.split(c, 1)] is there exactly when [c in s]. *)
Lemma split_once_contains c s :
  is_Some (Py.split_once c s !! 1%nat) ↔ Py.contains (String c "") s = true.
Proof.
  induction s as [|x s IH]; simpl.
  - split; [by intros [? ?] | done].
  - rewrite (Ascii.eqb_sym c x). destruct (Ascii.eqb x c); simpl.
    + split; [done | by eexists].
    + rewrite <- IH. by destruct (Py.split_once c s).
Qed.








Lemma total_following_lines lines js :
  Forall (λ j, (j < length lines)%nat) js →
  total discovery_inv (following_lines lines js).
Proof.
  induction 1 as [|j js Hj _ IH]; cbn [following_lines].
  - apply total_ret.
  - destruct (lookup_lt_is_Some_2 lines j Hj) as [line Hline].
    apply total_bind; [by eapply total_index|]. intros line'. cbv zeta.
    destruct (_ && _).
    + apply total_bind; [|intros _; exact IH].
      apply total_for_each. intros t. apply total_consider.
    + destruct (any_in _ _); [apply total_ret | exact IH].
Qed.

Lemma py_range_bound a b n j : (b ≤ n)%nat → j ∈ py_range a b → (j < n)%nat.
Proof. unfold py_range. intros Hb Hj%elem_of_seq. lia. Qed.

(** The body of the loop over the lines of a status output. *)
Lemma total_scan_line lines i line :
  total discovery_inv
    (if Py.contains "DNS Servers:" line || Py.contains "DNS Server:" line then
       (if Py.contains ":" line then
          let* after := index (Py.split_once ":" line) 1 in
          let server_part := Py.strip after in
          for_each (Py.split server_part) consider
        else ret tt) >>>
       following_lines lines
         (py_range (i + 1) (Nat.min (i + 10) (length lines)))
     else ret tt).
Proof.
  destruct (_ || _); [|apply total_ret].
  apply total_bind.
  - destruct (Py.contains ":" line) eqn:Hcolon; [|apply total_ret].
    apply (split_once_contains ":" line) in Hcolon as [after Hafter].
    apply total_bind; [by eapply total_index|]. intros after'. cbv zeta.
    apply total_for_each. intros t. apply total_consider.
  - intros _. apply total_following_lines. apply Forall_forall.
    intros j Hj. eapply py_range_bound; [|exact Hj]. lia.
Qed.

Lemma total_scan_status stdout : total discovery_inv (scan_status stdout).
Proof.
  unfold scan_status. cbv zeta. apply total_for_each. intros [i line].
  apply total_scan_line.
Qed.

(** The body of the loop over the lines of the output of [nmcli]. *)
Lemma total_nmcli_line line :
  total discovery_inv
    (if Py.contains "IP4.DNS" line || Py.contains "IP6.DNS" line then
       if Py.contains ":" line then
         let* after := index (Py.split_once ":" line) 1 in
         consider (Py.strip after)
       else ret tt
     else ret tt).
Proof.
  destruct (_ || _); [|apply total_ret].
  destruct (Py.contains ":" line) eqn:Hcolon; [|apply total_ret].
  apply (split_once_contains ":" line) in Hcolon as [after Hafter].
  apply total_bind; [by eapply total_index|]. intros after'.
  apply total_consider.
Qed.

(** ** Candidates that a source offers *)

Lemma offers_consider t : offers t (consider t).
Proof.
  intros d _. destruct (consider_run t d) as (d'&->&Hd').
  cbn [snd]. rewrite Hd'. set_solver.
Qed.

Lemma offers_bind_l {A B} t (m : M discovery A) (f : A → M discovery B) :
  offers t m → (∀ a, grows (f a)) → offers t (bind m f).
Proof.
  intros Hm Hf d Hd. specialize (Hm d Hd). unfold bind.
  destruct (m d) as [[a|e] d']; [|done]. cbn [snd] in Hm.
  destruct (Hf a d') as [more ->]. set_solver.
Qed.

Lemma offers_bind_r {A B} t (m : M discovery A) (f : A → M discovery B) :
  total discovery_inv m → (∀ a, offers t (f a)) → offers t (bind m f).
Proof.
  intros Hm Hf d Hd. destruct (Hm d Hd) as [Hinv [a Ha]]. unfold bind.
  destruct (m d) as [r d']. cbn [fst snd] in *. subst r. by apply Hf.
Qed.

Lemma offers_for_each {X} t (xs : list X) (body : X → M discovery unit) x :
  x ∈ xs →
  (∀ y, total discovery_inv (body y)) → (∀ y, grows (body y)) →
  offers t (body x) → offers t (for_each xs body).
Proof.
  intros Hx Htotal Hgrows Hoffers.
  induction xs as [|y xs IH]; [by apply elem_of_nil in Hx|].
  cbn [for_each]. apply elem_of_cons in Hx as [<- | Hx].
  - apply offers_bind_l; [done|]. intros _. by apply grows_for_each.
  - apply offers_bind_r; [done|]. intros _. by apply IH.
Qed.

Lemma offers_try_except t (m : M discovery unit) :
  offers t m → offers t (try_except m (λ _, ret tt)).
Proof. intros Hm d Hd. rewrite snd_try_except. by apply Hm. Qed.

Lemma offers_index {A} t (l : list A) i a (f : A → M discovery unit) :
  l !! i = Some a → offers t (f a) → offers t (let* x := index l i in f x).
Proof.
  intros Hi Hf d Hd. unfold bind, index. rewrite Hi. by apply Hf.
Qed.

(** A command that exits with status 0 hands its output to the parser. *)
Lemma offers_command t h argv out (parse : string → M discovery unit) :
  run h argv = Completed 0 out →
  offers t (parse out) →
  offers t (try_except
    (let* result := subprocess_run h argv in
     if fst result =? 0 then parse (snd result) else ret tt)
    (λ _, ret tt)).
Proof.
  intros Hrun Hparse. apply offers_try_except. intros d Hd.
  unfold bind, subprocess_run. rewrite Hrun. by apply Hparse.
Qed.

Lemma grows_scan_line lines i line :
  grows
    (if Py.contains "DNS Servers:" line || Py.contains "DNS Server:" line then
       (if Py.contains ":" line then
          let* after := index (Py.split_once ":" line) 1 in
          let server_part := Py.strip after in
          for_each (Py.split server_part) consider
        else ret tt) >>>
       following_lines lines
         (py_range (i + 1) (Nat.min (i + 10) (length lines)))
     else ret tt).
Proof.
  repeat first [grows_step | progress cbv zeta]; apply grows_following_lines.
Qed.

Lemma grows_scan_status stdout : grows (scan_status stdout).
Proof.
  unfold scan_status. cbv zeta. apply grows_for_each. intros [i line].
  apply grows_scan_line.
Qed.

Lemma grows_nmcli_line line :
  grows
    (if Py.contains "IP4.DNS" line || Py.contains "IP6.DNS" line then
       if Py.contains ":" line then
         let* after := index (Py.split_once ":" line) 1 in
         consider (Py.strip after)
       else ret tt
     else ret tt).
Proof. repeat grows_step. Qed.

Lemma enumerate_elem {A} (l : list A) x n :
  x ∈ l → ∃ i, (i, x) ∈ enumerate n l.
Proof.
  intros [k Hk]%list_elem_of_lookup. exists (n + k)%nat.
  apply list_elem_of_lookup. exists k. unfold enumerate.
  by rewrite list_lookup_imap, Hk.
Qed.

Lemma offers_scan_status t stdout line after :
  line ∈ Py.split_on "010" stdout →
  Py.contains "DNS Servers:" line || Py.contains "DNS Server:" line = true →
  Py.split_once ":" line !! 1%nat = Some after →
  t ∈ Py.split (Py.strip after) →
  offers t (scan_status stdout).
Proof.
  intros Hline Hhead Hafter Ht. unfold scan_status. cbv zeta.
  destruct (enumerate_elem _ line 0 Hline) as [i Hi].
  apply (offers_for_each t _ _ (i, line) Hi).
  - intros [j l]. apply total_scan_line.
  - intros [j l]. apply grows_scan_line.
  - cbv beta iota. rewrite Hhead.
    assert (Py.contains ":" line = true) as ->
      by (by apply (split_once_contains ":" line)).
    apply offers_bind_l; [|intros _; apply grows_following_lines].
    apply (offers_index t _ _ after); [done|]. cbv zeta.
    apply (offers_for_each t _ _ t Ht).
    + intros y. apply total_consider.
    + intros y. apply grows_consider.
    + apply offers_consider.
Qed.

Lemma offers_from_resolved t h argv out line after :
  argv = ["systemd-resolve"; "--status"] ∨ argv = ["resolvectl"; "status"] →
  run h argv = Completed 0 out →
  line ∈ Py.split_on "010" out →
  Py.contains "DNS Servers:" line || Py.contains "DNS Server:" line = true →
  Py.split_once ":" line !! 1%nat = Some after →
  t ∈ Py.split (Py.strip after) →
  offers t (from_resolved h).
Proof.
  intros Hargv Hrun Hline Hhead Hafter Ht. unfold from_resolved.
  assert (∃ cmd, cmd ∈ ["systemd-resolve --status"; "resolvectl status"]
                 ∧ Py.split cmd = argv) as (cmd&Hcmd&Hsplit).
  { destruct Hargv as [-> | ->];
      [exists "systemd-resolve --status" | exists "resolvectl status"];
      (split; [set_solver | reflexivity]). }
  apply (offers_for_each t _ _ cmd Hcmd).
  - intros y. apply total_try_except. repeat safe_step. apply safe_scan_status.
  - intros y. repeat grows_step; apply grows_scan_status.
  - cbv beta. rewrite Hsplit.
    apply (offers_command t h argv out scan_status Hrun).
    by eapply offers_scan_status.
Qed.

Lemma offers_from_nmcli h out line after :
  run h ["nmcli"; "dev"; "show"] = Completed 0 out →
  line ∈ Py.split_on "010" out →
  Py.contains "IP4.DNS" line || Py.contains "IP6.DNS" line = true →
  Py.split_once ":" line !! 1%nat = Some after →
  offers (Py.strip after) (from_nmcli h).
Proof.
  intros Hrun Hline Hhead Hafter. unfold from_nmcli.
  apply (offers_command _ h _ out
           (λ stdout, for_each (Py.split_on "010" stdout) _) Hrun).
  apply (offers_for_each _ _ _ line Hline).
  - intros y. apply total_nmcli_line.
  - intros y. apply grows_nmcli_line.
  - cbv beta. rewrite Hhead.
    assert (Py.contains ":" line = true) as ->
      by (by apply (split_once_contains ":" line)).
    apply (offers_index _ _ _ after); [done|]. apply offers_consider.
Qed.

(** An accepted candidate is in the result. *)
Lemma offered_accepted h t :
  t ∈ candidates h → accepted t = true →
  ∃ current, get_current_dns_servers h = Ok current ∧ t ∈ current.
Proof.
  intros Ht Hacc. rewrite get_current_dns_servers_candidates.
  eexists. split; [done|]. apply elem_of_keep_first, list_elem_of_filter.
  by rewrite Hacc.
Qed.

(** X17. Discovery finds what [nmcli dev show] lists: when the command
    exits with status 0, the text after the first colon of every output
    line that has [IP4.DNS] or [IP6.DNS] in it, stripped of white space, is
    in the result if it passes the guard. *)
Theorem get_current_dns_servers_nmcli h out line after :
  run h ["nmcli"; "dev"; "show"] = Completed 0 out →
  line ∈ Py.split_on "010" out →
  Py.contains "IP4.DNS" line || Py.contains "IP6.DNS" line = true →
  Py.split_once ":" line !! 1%nat = Some after →
  accepted (Py.strip after) = true →
  ∃ current,
    get_current_dns_servers h = Ok current ∧ Py.strip after ∈ current.
Proof.
  intros Hrun Hline Hhead Hafter Hacc. apply offered_accepted; [|done].
  unfold candidates, discover.
  apply (offers_bind_r _ _ _ (total_from_resolv_conf h)); [|apply discovery_inv_start].
  intros _. apply (offers_bind_r _ _ _ (total_from_resolved h)). intros _.
  by eapply offers_from_nmcli.
Qed.

(** The theorem on a machine where [nmcli] lists one resolver. *)
Lemma get_current_dns_servers_nmcli_witness :
  ∃ current,
    get_current_dns_servers
      (with_command ["nmcli"; "dev"; "show"]
         ("IP4.DNS[1]:      192.168.1.1" +:+ nl) (bare []))
    = Ok current
    ∧ "192.168.1.1" ∈ current.
Proof.
  apply (get_current_dns_servers_nmcli
           (with_command ["nmcli"; "dev"; "show"]
              ("IP4.DNS[1]:      192.168.1.1" +:+ nl) (bare []))
           ("IP4.DNS[1]:      192.168.1.1" +:+ nl)
           "IP4.DNS[1]:      192.168.1.1" "      192.168.1.1").
  - reflexivity.
  - by left.
  - reflexivity.
  - reflexivity.
  - by vm_compute.
Defined.

(** X18. Discovery finds what the line of a [DNS Servers:] heading
    lists: when [systemd-resolve --status] or [resolvectl status] exits
    with status 0, every word after the first colon of an output line that
    has [DNS Servers:] or [DNS Server:] in it is in the result if it passes
    the guard. *)
Theorem get_current_dns_servers_resolved h argv out line after server :
  argv = ["systemd-resolve"; "--status"] ∨ argv = ["resolvectl"; "status"] →
  run h argv = Completed 0 out →
  line ∈ Py.split_on "010" out →
  Py.contains "DNS Servers:" line || Py.contains "DNS Server:" line = true →
  Py.split_once ":" line !! 1%nat = Some after →
  server ∈ Py.split (Py.strip after) →
  accepted server = true →
  ∃ current, get_current_dns_servers h = Ok current ∧ server ∈ current.
Proof.
  intros Hargv Hrun Hline Hhead Hafter Hserver Hacc.
  apply offered_accepted; [|done]. unfold candidates, discover.
  apply (offers_bind_r _ _ _ (total_from_resolv_conf h)); [|apply discovery_inv_start].
  intros _. apply offers_bind_l; [|intros _; apply grows_from_nmcli].
  by eapply offers_from_resolved.
Qed.

(** The theorem on a machine where [resolvectl] lists two resolvers on
    the line of the heading. *)
Lemma get_current_dns_servers_resolved_witness :
  ∃ current,
    get_current_dns_servers
      (with_command ["resolvectl"; "status"]
         ("  DNS Servers: 192.168.1.1 2001:db8::1" +:+ nl) (bare []))
    = Ok current
    ∧ "2001:db8::1" ∈ current.
Proof.
  apply (get_current_dns_servers_resolved
           (with_command ["resolvectl"; "status"]
              ("  DNS Servers: 192.168.1.1 2001:db8::1" +:+ nl) (bare []))
           ["resolvectl"; "status"]
           ("  DNS Servers: 192.168.1.1 2001:db8::1" +:+ nl)
           "  DNS Servers: 192.168.1.1 2001:db8::1"
           " 192.168.1.1 2001:db8::1").
  - by right.
  - reflexivity.
  - by left.
  - reflexivity.
  - reflexivity.
  - by right; left.
  - by vm_compute.
Defined.

(** ** The range of the success rate *)

Lemma code_rate_range k :
  (k ≤ 24)%nat →
  PrimFloat.leb 0%float (code_rate k 24) = true
  ∧ PrimFloat.leb (code_rate k 24) 100%float = true
  ∧ PrimFloat.eqb (code_rate k 24) 100%float = (k =? 24)%nat
  ∧ PrimFloat.eqb (code_rate k 24) 0%float = (k =? 0)%nat.
Proof.
  intros Hk. do 25 (destruct k as [|k]; [by vm_compute|]). lia.
Qed.

(** X19. The success rate of a benchmark lies between 0.0 and 100.0; it
    is 100.0 exactly when no probe failed and 0.0 exactly when none
    succeeded. *)
Theorem benchmark_server_rate_range h dig dns_server name :
  completes_all h dns_server →
  ∃ r,
    benchmark_server h dig dns_server name = Ok r
    ∧ PrimFloat.leb 0%float (success_rate r) = true
    ∧ PrimFloat.leb (success_rate r) 100%float = true
    ∧ (PrimFloat.eqb (success_rate r) 100%float = true
       ↔ failed_queries r = 0%nat)
    ∧ (PrimFloat.eqb (success_rate r) 0%float = true
       ↔ successful_queries r = 0%nat).
Proof.
  intros Hall.
  destruct (benchmark_server_run h dig dns_server name Hall) as (a&_&Hsum&->).
  eexists. split; [done|]. cbn [success_rate failed_queries successful_queries].
  change (length test_domains) with 24%nat in *.
  destruct (code_rate_range (length (successful a))) as (H0&H100&Hfull&Hnone);
    [lia|].
  split; [done|]. split; [done|]. rewrite Hfull, Hnone.
  rewrite !Nat.eqb_eq. split; lia.
Qed.

(** The theorem on a machine where every lookup succeeds. *)
Lemma benchmark_server_rate_range_witness :
  ∃ r,
    benchmark_server (lab (λ _ _, true) (λ _, 20)) (Some true) "9.9.9.9" None
    = Ok r
    ∧ PrimFloat.eqb (success_rate r) 100%float = true.
Proof.
  destruct (benchmark_server_rate_range (lab (λ _ _, true) (λ _, 20))
              (Some true) "9.9.9.9" None (lab_completes_all _ _ _))
    as (r&Hr&_&_&Hfull&_).
  exists r. split; [exact Hr|]. apply Hfull.
  vm_compute in Hr. injection Hr as <-. reflexivity.
Defined.
